(** * PDF-to-Text: a shallow embedding of the batch conversion engine

    The development follows the two scripts of the repository,
    [pdf_to_text_enterprise.py] (the parallel engine) and [pdf_to_text.py]
    (the sequential predecessor).  Python values are modelled as follows:

    - [str] is a list of Unicode code points ([N]);
    - a [pathlib.Path] is its [parts] tuple, the anchor ["/"] being the first
      part of an absolute path;
    - the file system is a finite map from paths to nodes;
    - code with effects lives in a state-and-exception monad over a [World]
      holding the file system and the trace of observable events (calls into
      PyMuPDF and pypdf, log records, printed lines).

    Logging: [setup_logging] opens the log file [LOG_FILE], which creates it
    when it is missing.  The records handed to [logging] afterwards are kept
    in the trace; what the handlers make of them (a line appended to the open
    log file, a line on the console) is not written into the file system of
    the model, which holds the entry of the log file and not its growing
    content.  A statement that the worker leaves the file system as it was
    speaks of the file operations of the worker; statements about every entry
    of the file system after a run leave the log file out.

    Outside the model: file permissions, symbolic links and the current
    directory (a path denotes the entry stored under its parts), the clock,
    the progress bar and the parsing of the command line (the entry points
    take the parsed options).  The worker processes of the pool are
    interleaved at the granularity of one work item: a schedule decides in
    which order the items complete. *)

From Stdlib Require Import ZArith NArith List String Ascii Lia.
From stdpp Require Import gmap strings list fin_maps.

Set Default Proof Using "Type".
Local Open Scope nat_scope.

(** ** Python strings *)

Abbreviation str := (list N).

(** A literal: the code points of an ASCII string. *)
Definition u (s : string) : str :=
  map N_of_ascii (list_ascii_of_string s).

Definition len (s : str) : nat := length s.

(** [str.isspace] for one code point: the characters CPython's
    [_PyUnicode_IsWhitespace] accepts. *)
Definition isspace (c : N) : bool :=
  (((9 <=? c) && (c <=? 13)) || ((28 <=? c) && (c <=? 32))
   || (c =? 133) || (c =? 160) || (c =? 5760)
   || ((8192 <=? c) && (c <=? 8202))
   || (c =? 8232) || (c =? 8233) || (c =? 8239) || (c =? 8287)
   || (c =? 12288))%N.

Fixpoint lstrip (s : str) : str :=
  match s with
  | c :: s' => if isspace c then lstrip s' else s
  | [] => []
  end.

Definition rstrip (s : str) : str := rev (lstrip (rev s)).

(** [s.strip()] *)
Definition strip (s : str) : str := lstrip (rstrip s).

(** [sep.join(chunks)] *)
Fixpoint join (sep : str) (chunks : list str) : str :=
  match chunks with
  | [] => []
  | [c] => c
  | c :: rest => c ++ sep ++ join sep rest
  end.

Definition dot : N := 46%N.
Definition slash : N := 47%N.

(** [s.rfind('.')], with [None] for Python's -1. *)
Fixpoint rfind_dot (s : str) : option nat :=
  match s with
  | [] => None
  | c :: s' =>
      match rfind_dot s' with
      | Some i => Some (S i)
      | None => if N.eqb c dot then Some 0 else None
      end
  end.

(** [s.startswith(p)] *)
Fixpoint startswith (s p : str) : bool :=
  match p, s with
  | [], _ => true
  | a :: p', b :: s' => N.eqb a b && startswith s' p'
  | _ :: _, [] => false
  end.

(** [s.endswith(p)] *)
Definition endswith (s p : str) : bool := startswith (rev s) (rev p).

(** ** Exceptions and the effect monad *)

(** The subclasses of [Exception] the program can meet.  [LibraryError] stands
    for whatever PyMuPDF or pypdf raise.  [SystemExit] is not an [Exception]
    in Python and is kept apart in [Result]. *)
Inductive Exception :=
| ValueError
| KeyError
| FileExistsError
| FileNotFoundError
| NotADirectoryError
| IsADirectoryError
| UnicodeEncodeError
| LibraryError (msg : str).

#[global] Instance Exception_eq_dec : EqDecision Exception.
Proof. solve_decision. Defined.

Inductive Result (A : Type) :=
| Ok (a : A)
| Raise (e : Exception)
| SysExit (code : Z).
Arguments Ok {A} a.
Arguments Raise {A} e.
Arguments SysExit {A} code.

(** ** Paths ([pathlib.PurePosixPath]) *)

Abbreviation Path := (list (list N)).

Definition is_absolute (p : Path) : bool :=
  match p with
  | a :: _ => bool_decide (a = [slash])
  | [] => false
  end.

(** The anchor alone: the current directory [Path(".")] or the root. *)
Definition is_anchor (p : Path) : bool :=
  match p with
  | [] => true
  | [a] => bool_decide (a = [slash])
  | _ => false
  end.

(** [p.name] *)
Definition name (p : Path) : str :=
  if is_anchor p then [] else List.last p [].

(** [p.parent] *)
Definition parent (p : Path) : Path :=
  if is_anchor p then p else removelast p.

(** [a / b] *)
Definition joinpath (a b : Path) : Path :=
  if is_absolute b then b else a ++ b.

Fixpoint strip_prefix (self other : Path) : option Path :=
  match other, self with
  | [] , _ => Some self
  | o :: other', s :: self' =>
      if bool_decide (o = s) then strip_prefix self' other' else None
  | _ :: _, [] => None
  end.

(** [self.relative_to(other)] *)
Definition relative_to (self other : Path) : Result Path :=
  if negb (Bool.eqb (is_absolute self) (is_absolute other)) then Raise ValueError
  else match strip_prefix self other with
       | Some rel => Ok rel
       | None => Raise ValueError
       end.

(** [p.suffix]: the text from the last dot of the name, unless that dot is the
    first or the last character of the name. *)
Definition suffix (p : Path) : str :=
  let n := name p in
  match rfind_dot n with
  | Some i => if (0 <? i) && (i <? len n - 1) then drop i n else []
  | None => []
  end.

(** [p.with_suffix(sfx)] *)
Definition with_suffix (p : Path) (sfx : str) : Result Path :=
  if bool_decide (slash ∈ sfx) then Raise ValueError
  else if (negb (bool_decide (sfx = [])) && negb (startswith sfx [dot]))
          || bool_decide (sfx = [dot]) then Raise ValueError
  else
    let n := name p in
    if bool_decide (n = []) then Raise ValueError
    else
      let old_suffix := suffix p in
      let n' := if bool_decide (old_suffix = []) then n ++ sfx
                else take (len n - len old_suffix) n ++ sfx in
      Ok (removelast p ++ [n']).

(** [fnmatch(name, "*.pdf")] on a POSIX system: case-sensitive. *)
Definition fnmatch_pdf (n : str) : bool := endswith n (u ".pdf").


(** ** The file system and the world *)

Inductive Node :=
| File (content : str)
| Dir.

#[global] Instance Node_eq_dec : EqDecision Node.
Proof. solve_decision. Defined.

Abbreviation FS := (gmap Path Node).

(** The anchors (current directory, root) always exist and are directories. *)
Definition exists_ (f : FS) (p : Path) : bool :=
  is_anchor p || bool_decide (is_Some (f !! p)).

Definition is_dir (f : FS) (p : Path) : bool :=
  is_anchor p || bool_decide (f !! p = Some Dir).

Definition is_file (f : FS) (p : Path) : bool :=
  negb (is_anchor p) &&
  match f !! p with Some (File _) => true | _ => false end.

(** What a run can be observed to do besides changing files. *)
Inductive Event :=
| Ev_fitz_open (p : Path)                    (* fitz.open(p) *)
| Ev_PdfReader (p : Path)                    (* PdfReader(str(p)) *)
| Ev_log_fallback (p : Path)                 (* logging.info("Fallback ...: {p}") *)
| Ev_log_failed (p : Path) (e : Exception)   (* logging.error("Failed {p}: {e}") *)
| Ev_print_no_pdf                            (* "No PDF files found." *)
| Ev_print_found (total : nat)               (* "Found {total} PDF files." *)
| Ev_print_using (workers : Z)               (* "Using {workers} worker(s)." *)
| Ev_print_summary_header
| Ev_print_total (n : nat)
| Ev_print_success (n : nat)
| Ev_print_skipped (n : nat)
| Ev_print_failed (n : nat)
| Ev_print_time                              (* the duration is not modelled *)
| Ev_print_summary_footer
| Ev_print_help
| Ev_print_invalid_input (* "Input directory does not exist." and its variants *)
| Ev_print_complete.                         (* "Processing complete." *)

Record World := mkWorld { fs : FS; events : list Event }.

Definition M (A : Type) : Type := World -> Result A * World.

Definition ret {A} (a : A) : M A := fun w => (Ok a, w).

Definition bind {A B} (m : M A) (k : A -> M B) : M B :=
  fun w =>
    match m w with
    | (Ok a, w') => k a w'
    | (Raise e, w') => (Raise e, w')
    | (SysExit c, w') => (SysExit c, w')
    end.

Definition raise {A} (e : Exception) : M A := fun w => (Raise e, w).

(** [sys.exit(code)] *)
Definition sys_exit {A} (code : Z) : M A := fun w => (SysExit code, w).

Definition lift {A} (r : Result A) : M A := fun w => (r, w).

(** [try: body except Exception as e: handler e].  [SystemExit] passes. *)
Definition try_except {A} (body : M A) (handler : Exception -> M A) : M A :=
  fun w =>
    match body w with
    | (Raise e, w') => handler e w'
    | r => r
    end.

Definition emit (e : Event) : M unit :=
  fun w => (Ok tt, mkWorld (fs w) (events w ++ [e])).

Definition set_fs (f : FS) : M unit :=
  fun w => (Ok tt, mkWorld f (events w)).

Declare Scope py_scope.
Delimit Scope py_scope with py.
Notation "x <- c ;; k" := (bind c (fun x => k))
  (at level 100, c at next level, right associativity) : py_scope.
Notation "c ;;; k" := (bind c (fun _ => k))
  (at level 100, right associativity) : py_scope.
Local Open Scope py_scope.

(** [for x in xs: s = body(s, x)] *)
Fixpoint for_loop {A S} (xs : list A) (body : S -> A -> M S) (s : S) : M S :=
  match xs with
  | [] => ret s
  | x :: xs' => s' <- body s x ;; for_loop xs' body s'
  end.

(** *** [pathlib] and [os] calls that touch the file system *)

(** [p.exists()] *)
Definition path_exists (p : Path) : M bool :=
  fun w => (Ok (exists_ (fs w) p), w).

(** [p.is_dir()] *)
Definition path_is_dir (p : Path) : M bool :=
  fun w => (Ok (is_dir (fs w) p), w).

(** [os.mkdir(p)] *)
Definition os_mkdir (p : Path) : M unit :=
  fun w =>
    if exists_ (fs w) p then (Raise FileExistsError, w)
    else if is_dir (fs w) (parent p) then set_fs (<[p := Dir]> (fs w)) w
    else if exists_ (fs w) (parent p) then (Raise NotADirectoryError, w)
    else (Raise FileNotFoundError, w).

(** [Path.mkdir(parents=False, exist_ok)] *)
Definition mkdir_single (p : Path) (exist_ok : bool) : M unit :=
  try_except (os_mkdir p)
    (fun e =>
       match e with
       | FileNotFoundError => raise e
       | _ => d <- path_is_dir p ;;
              if negb exist_ok || negb d then raise e else ret tt
       end).

(** [Path.mkdir(parents, exist_ok)], by recursion on the reversed parts: the
    parent of [rev (x :: rp)] is [rev rp]. *)
Fixpoint mkdir_rev (rp : Path) (parents exist_ok : bool) : M unit :=
  let self := rev rp in
  try_except (os_mkdir self)
    (fun e =>
       match e with
       | FileNotFoundError =>
           if negb parents || bool_decide (parent self = self) then raise e
           else match rp with
                | [] => raise e
                | _ :: rparent =>
                    mkdir_rev rparent true true ;;;
                    mkdir_single self exist_ok
                end
       | _ => d <- path_is_dir self ;;
              if negb exist_ok || negb d then raise e else ret tt
       end).

Definition mkdir (p : Path) (parents exist_ok : bool) : M unit :=
  mkdir_rev (rev p) parents exist_ok.

(** UTF-8 cannot encode the surrogate code points. *)
Definition encodable (s : str) : bool :=
  forallb (fun c => negb ((55296 <=? c) && (c <=? 57343))%N) s.

(** [open(p, "w")]: creates or truncates the file. *)
Definition open_w (p : Path) : M unit :=
  fun w =>
    if is_dir (fs w) p then (Raise IsADirectoryError, w)
    else if is_dir (fs w) (parent p) then set_fs (<[p := File []]> (fs w)) w
    else if exists_ (fs w) (parent p) then (Raise NotADirectoryError, w)
    else (Raise FileNotFoundError, w).

(** [open(p, "a")]: creates the file when it is missing and keeps it, with
    its content, when it is there. *)
Definition open_a (p : Path) : M unit :=
  fun w =>
    if is_dir (fs w) p then (Raise IsADirectoryError, w)
    else if exists_ (fs w) p then (Ok tt, w)
    else if is_dir (fs w) (parent p) then set_fs (<[p := File []]> (fs w)) w
    else if exists_ (fs w) (parent p) then (Raise NotADirectoryError, w)
    else (Raise FileNotFoundError, w).

(** [p.write_text(data, encoding="utf-8")]: the file is opened (and so
    truncated) before the data is encoded. *)
Definition write_text (p : Path) (data : str) : M unit :=
  open_w p ;;;
  if encodable data then (fun w => set_fs (<[p := File data]> (fs w)) w)
  else raise UnicodeEncodeError.

(** [input_dir.rglob("*.pdf")]: every entry below [d] whose name matches
    (a file or a directory, hidden or not), in the order the map lists them;
    nothing when [d] is not a directory. *)
Definition below (d p : Path) : bool :=
  Bool.eqb (is_absolute p) (is_absolute d) &&
  match strip_prefix p d with
  | Some (_ :: _) => true
  | _ => false
  end.

Definition rglob_list (f : FS) (d : Path) : list Path :=
  if is_dir f d
  then filter (fun p => Is_true (below d p && fnmatch_pdf (name p)))
              (map fst (map_to_list f))
  else [].

Definition rglob_pdf (d : Path) : M (list Path) :=
  fun w => (Ok (rglob_list (fs w) d), w).

(** ** The extraction engines and the extraction policy *)

Definition MIN_TEXT_THRESHOLD : nat := 50.
Definition LOG_FILE : Path := [u "pdf_processing.log"].

(** [setup_logging()]: of the handlers it installs, [logging.FileHandler]
    opens [LOG_FILE] for appending at once; the console handler touches no
    file. *)
Definition setup_logging : M unit := open_a LOG_FILE.

(** What an external library call gives back: an [Exception] or a value. *)
Definition lift_ext {A} (r : Exception + A) : M A :=
  match r with
  | inl e => raise e
  | inr a => ret a
  end.

Section Engine.

(** PyMuPDF: [fitz.open(path)] raises or gives the pages of the document; a
    page is what its [get_text("text")] does. *)
Variable fitz_open : FS -> Path -> Exception + list (Exception + str).

(** pypdf: [PdfReader(str(path)).pages], a page being what its
    [extract_text()] does. *)
Variable PdfReader : FS -> Path -> Exception + list (Exception + str).

(** [mp.cpu_count()] *)
Variable cpu_count : Z.

Definition extract_with_pymupdf (pdf_path : Path) : M str :=
  emit (Ev_fitz_open pdf_path) ;;;
  doc <- (fun w => lift_ext (fitz_open (fs w) pdf_path) w) ;;
  text_chunks <- for_loop doc
                   (fun text_chunks page =>
                      t <- lift_ext page ;; ret (text_chunks ++ [t]))
                   [] ;;
  ret (join (u (String "010" EmptyString)) text_chunks).

Definition extract_with_pypdf (pdf_path : Path) : M str :=
  emit (Ev_PdfReader pdf_path) ;;;
  pages <- (fun w => lift_ext (PdfReader (fs w) pdf_path) w) ;;
  for_loop pages
    (fun text page =>
       page_text <- lift_ext page ;;
       ret (if bool_decide (page_text = []) then text else text ++ page_text))
    [].

Definition extract_text (pdf_path : Path) : M str :=
  text <- extract_with_pymupdf pdf_path ;;
  if len (strip text) <? MIN_TEXT_THRESHOLD then
    emit (Ev_log_fallback pdf_path) ;;;
    extract_with_pypdf pdf_path
  else ret text.

(** ** The worker *)

Definition skipped : str := u "skipped".
Definition success : str := u "success".
Definition failed : str := u "failed".

(** [output_root / pdf_path.relative_to(input_root).with_suffix(".txt")] *)
Definition output_path (pdf_path input_root output_root : Path) : Result Path :=
  match relative_to pdf_path input_root with
  | Ok relative =>
      match with_suffix relative (u ".txt") with
      | Ok renamed => Ok (joinpath output_root renamed)
      | Raise e => Raise e
      | SysExit c => SysExit c
      end
  | Raise e => Raise e
  | SysExit c => SysExit c
  end.

Definition process_file (args : Path * Path * Path * bool * bool) : M str :=
  let '(pdf_path, input_root, output_root, overwrite, skip_existing) := args in
  try_except
    (output_file <- lift (output_path pdf_path input_root output_root) ;;
     c1 <- (if skip_existing then path_exists output_file else ret false) ;;
     if c1 then ret skipped
     else
       c2 <- (there <- path_exists output_file ;; ret (there && negb overwrite)) ;;
       if c2 then ret skipped
       else
         text <- extract_text pdf_path ;;
         mkdir (parent output_file) true true ;;;
         write_text output_file text ;;;
         ret success)
    (fun e => emit (Ev_log_failed pdf_path e) ;;; ret failed).

(** ** The processing engine *)

(** [mp.Pool(processes=workers)] refuses a worker count below one. *)
Definition mp_Pool (workers : Z) : M unit :=
  if (workers <? 1)%Z then raise ValueError else ret tt.

(** [pool.imap_unordered] hands the results over as the workers finish, in no
    fixed order.  A schedule picks, at each step, which pending item finishes
    next (the pick is taken modulo the number of pending items; an exhausted
    schedule picks the first).  Each worker call is taken as one step. *)
Fixpoint completion_order {A} (n : nat) (sched : list nat) (pending : list A)
  : list A :=
  match n with
  | 0 => []
  | S n' =>
      let i := hd 0 sched `mod` length pending in
      match pending !! i with
      | Some x => x :: completion_order n' (tl sched) (delete i pending)
      | None => []
      end
  end.

Definition imap_unordered {A} (sched : list nat) (args : list A) : list A :=
  completion_order (length args) sched args.

(** [d[k] += 1] *)
Definition dict_incr (d : gmap str nat) (k : str) : M (gmap str nat) :=
  match d !! k with
  | Some n => ret (<[k := n + 1]> d)
  | None => raise KeyError
  end.

(** [d[k]] *)
Definition dict_get (d : gmap str nat) (k : str) : M nat :=
  match d !! k with
  | Some n => ret n
  | None => raise KeyError
  end.

Definition process_directory (sched : list nat)
    (input_dir output_dir : Path) (workers : Z)
    (overwrite skip_existing : bool) : M unit :=
  pdf_files <- rglob_pdf input_dir ;;
  let total := length pdf_files in
  if total =? 0 then
    emit Ev_print_no_pdf ;;; ret tt
  else
    emit (Ev_print_found total) ;;;
    emit (Ev_print_using workers) ;;;
    let args :=
      map (fun pdf => (pdf, input_dir, output_dir, overwrite, skip_existing))
          pdf_files in
    let results : gmap str nat :=
      <[success := 0]> (<[failed := 0]> (<[skipped := 0]> ∅)) in
    mp_Pool workers ;;;
    results <- for_loop (imap_unordered sched args)
                 (fun results a =>
                    result <- process_file a ;;
                    dict_incr results result)
                 results ;;
    emit Ev_print_summary_header ;;;
    emit (Ev_print_total total) ;;;
    n_success <- dict_get results success ;;
    emit (Ev_print_success n_success) ;;;
    n_skipped <- dict_get results skipped ;;
    emit (Ev_print_skipped n_skipped) ;;;
    n_failed <- dict_get results failed ;;
    emit (Ev_print_failed n_failed) ;;;
    emit Ev_print_time ;;;
    emit Ev_print_summary_footer.

(** ** Entry points of the parallel script *)

(** What the prompts of the interactive mode were answered: the two
    directories, the lower-cased answer to the question whether the output
    directory shall be created, and the worker count ([None] for an empty
    line, otherwise what [int] makes of the text). *)
Record Answers := mkAnswers {
  ans_input : Path;
  ans_output : Path;
  ans_create : str;
  ans_workers : option (Exception + Z)
}.

Definition interactive_mode (sched : list nat) (a : Answers) : M unit :=
  let input_dir := ans_input a in
  let output_dir := ans_output a in
  there <- path_exists input_dir ;;
  d <- path_is_dir input_dir ;;
  if negb there || negb d then
    emit Ev_print_invalid_input ;;; sys_exit 1
  else
    out_there <- path_exists output_dir ;;
    (if negb out_there then
       if bool_decide (ans_create a = u "y") then mkdir output_dir true true
       else sys_exit 0
     else ret tt) ;;;
    workers <- match ans_workers a with
               | None => ret cpu_count
               | Some r => lift_ext r
               end ;;
    process_directory sched input_dir output_dir workers false true.

(** The parsed command line; [None] for an option that is absent or empty. *)
Record Args := mkArgs {
  args_input : option Path;
  args_output : option Path;
  args_workers : Z;
  args_overwrite : bool;
  args_skip_existing : bool;
  args_interactive : bool
}.

Definition main (sched : list nat) (a : Answers) (args : Args) : M unit :=
  setup_logging ;;;
  if args_interactive args then interactive_mode sched a
  else
    match args_input args, args_output args with
    | Some input_dir, Some output_dir =>
        there <- path_exists input_dir ;;
        if negb there then
          emit Ev_print_invalid_input ;;; sys_exit 1
        else
          mkdir output_dir true true ;;;
          process_directory sched input_dir output_dir (args_workers args)
            (args_overwrite args) (args_skip_existing args)
    | _, _ => emit Ev_print_help ;;; sys_exit 1
    end.

End Engine.

(** ** The sequential script, [pdf_to_text.py] *)

Module Legacy.
Section Engine.

Variable fitz_open : FS -> Path -> Exception + list (Exception + str).
Variable PdfReader : FS -> Path -> Exception + list (Exception + str).

(** The script carries its own copy of the three extraction functions, the
    same as the parallel script's up to the wording of the log record. *)
Definition extract_text : Path -> M str :=
  extract_text fitz_open PdfReader.

Definition process_directory (input_dir output_dir : Path) : M unit :=
  there <- path_exists input_dir ;;
  if negb there then
    emit Ev_print_invalid_input ;;; sys_exit 1
  else
    d <- path_is_dir input_dir ;;
    if negb d then
      emit Ev_print_invalid_input ;;; sys_exit 1
    else
      mkdir output_dir true true ;;;
      pdf_files <- rglob_pdf input_dir ;;
      emit (Ev_print_found (length pdf_files)) ;;;
      for_loop pdf_files
        (fun _ pdf_file =>
           try_except
             (text <- extract_text pdf_file ;;
              relative_path <- lift (relative_to pdf_file input_dir) ;;
              renamed <- lift (with_suffix relative_path (u ".txt")) ;;
              let output_file := joinpath output_dir renamed in
              mkdir (parent output_file) true true ;;;
              write_text output_file text)
             (fun e => emit (Ev_log_failed pdf_file e)))
        tt ;;;
      emit Ev_print_complete.

(** [logging.basicConfig(filename=LOG_FILE, ...)], which the script runs when
    it is loaded: the file handler it installs opens [LOG_FILE] for
    appending. *)
Definition logging_basicConfig : M unit := open_a LOG_FILE.

(** The script on a command line that names both directories: the module
    level, then [main], which hands the two paths to [process_directory]. *)
Definition main (input_dir output_dir : Path) : M unit :=
  process_directory input_dir output_dir.

Definition script (input_dir output_dir : Path) : M unit :=
  logging_basicConfig ;;; main input_dir output_dir.

End Engine.
End Legacy.

(** ** Auxiliary definitions for the statements *)

Definition is_fallback_call (e : Event) : bool :=
  match e with Ev_PdfReader _ => true | _ => false end.

Definition is_primary_call (e : Event) : bool :=
  match e with Ev_fitz_open _ => true | _ => false end.

(** How often the fallback engine, resp. the primary engine, was called. *)
Definition fallback_calls (evs : list Event) : nat :=
  length (List.filter is_fallback_call evs).

Definition primary_calls (evs : list Event) : nat :=
  length (List.filter is_primary_call evs).

(** The loop over the pages of a document, without the world. *)
Fixpoint gather {A S} (pages : list (Exception + A)) (g : S -> A -> S) (s : S)
  : Exception + S :=
  match pages with
  | [] => inr s
  | inl e :: _ => inl e
  | inr a :: rest => gather rest g (g s a)
  end.

(** What [mkdir] may do to an entry [q] on the way to the directory [p]: leave
    it, or create it as a directory when it is missing and lies on the way. *)
Definition mkdir_changes (f f' : FS) (p : Path) : Prop :=
  forall q, f' !! q = f !! q
            \/ (f !! q = None /\ f' !! q = Some Dir /\ q `prefix_of` p).

(** A file system is a tree when every entry lies in a directory. *)
Definition wf_fs (f : FS) : Prop :=
  forall p n, f !! p = Some n -> is_dir f (parent p) = true.

(** What a call [mkdir(p, parents=True, exist_ok=True)] guarantees when it
    takes the world [w] to the result [r]. *)
Definition mkdir_post (p : Path) (w : World) (r : Result unit * World) : Prop :=
  events (snd r) = events w /\
  (forall c, fst r <> SysExit c) /\
  mkdir_changes (fs w) (fs (snd r)) p /\
  (fst r = Ok tt -> is_dir (fs (snd r)) p = true) /\
  (wf_fs (fs w) -> wf_fs (fs (snd r))).

Definition as_result {A} (r : Exception + A) : Result A :=
  match r with inl e => Raise e | inr a => Ok a end.

Section Denotations.

Variable fitz_open : FS -> Path -> Exception + list (Exception + str).
Variable PdfReader : FS -> Path -> Exception + list (Exception + str).

(** What the primary engine makes of a document. *)
Definition pymupdf_text (f : FS) (p : Path) : Exception + str :=
  match fitz_open f p with
  | inl e => inl e
  | inr doc =>
      match gather doc (fun chunks t => chunks ++ [t]) [] with
      | inl e => inl e
      | inr chunks => inr (join (u (String "010" EmptyString)) chunks)
      end
  end.

(** What the fallback engine makes of a document. *)
Definition pypdf_text (f : FS) (p : Path) : Exception + str :=
  match PdfReader f p with
  | inl e => inl e
  | inr pages =>
      gather pages
        (fun text t => if bool_decide (t = []) then text else text ++ t) []
  end.

(** What the extraction policy returns, and the events it leaves. *)
Definition policy_text (f : FS) (p : Path) : Exception + str :=
  match pymupdf_text f p with
  | inl e => inl e
  | inr text =>
      if len (strip text) <? MIN_TEXT_THRESHOLD then pypdf_text f p
      else inr text
  end.

Definition policy_events (f : FS) (p : Path) : list Event :=
  match pymupdf_text f p with
  | inl e => [Ev_fitz_open p]
  | inr text =>
      if len (strip text) <? MIN_TEXT_THRESHOLD
      then [Ev_fitz_open p; Ev_log_fallback p; Ev_PdfReader p]
      else [Ev_fitz_open p]
  end.

End Denotations.

(** ** Auxiliary definitions for the coordinator *)

(** The lines of the summary. *)
Definition summary_block (total n_success n_skipped n_failed : nat)
  : list Event :=
  [Ev_print_summary_header; Ev_print_total total; Ev_print_success n_success;
   Ev_print_skipped n_skipped; Ev_print_failed n_failed; Ev_print_time;
   Ev_print_summary_footer].

(** The dictionary of the three counters. *)
Definition counters (s f k : nat) : gmap str nat :=
  <[success := s]> (<[failed := f]> (<[skipped := k]> ∅)).

(** How often the outcome [o] occurs among [outs]. *)
Definition count_outcome (o : str) (outs : list str) : nat :=
  length (filter (fun x => x = o) outs).

Definition mk_args (input_dir output_dir : Path) (overwrite skip_existing : bool)
    (pdf : Path) : Path * Path * Path * bool * bool :=
  (pdf, input_dir, output_dir, overwrite, skip_existing).

Section Runs.

Variable fitz_open : FS -> Path -> Exception + list (Exception + str).
Variable PdfReader : FS -> Path -> Exception + list (Exception + str).

(** The outcomes of the workers, in the order of completion, and the world
    they leave. *)
Fixpoint run_workers (order : list (Path * Path * Path * bool * bool))
    (w : World) : list str * World :=
  match order with
  | [] => ([], w)
  | a :: rest =>
      let '(r, w1) := process_file fitz_open PdfReader a w in
      let o := match r with Ok o => o | _ => failed end in
      let '(outs, w2) := run_workers rest w1 in
      (o :: outs, w2)
  end.

(** The workers take the items of [order] one after the other, from the
    world [w] on: [process_file] returns the i-th of [outs] for the i-th
    item, in the world the item before it has left, and the last item leaves
    the world [w']. *)
Fixpoint worker_chain (order : list (Path * Path * Path * bool * bool))
    (outs : list str) (w w' : World) : Prop :=
  match order, outs with
  | [], [] => w' = w
  | a :: order', o :: outs' =>
      exists w1,
        process_file fitz_open PdfReader a w = (Ok o, w1)
        /\ worker_chain order' outs' w1 w'
  | _, _ => False
  end.

End Runs.

(** The file system after [p] was opened for appending: [p] is created as an
    empty file when it was missing. *)
Definition touch (f : FS) (p : Path) : FS :=
  if exists_ f p then f else <[p := File []]> f.

(** The output path of a work item (the empty path when there is none). *)
Definition output_of (input_dir output_dir pdf : Path) : Path :=
  match output_path pdf input_dir output_dir with
  | Ok out => out
  | _ => []
  end.

(** The output paths of the work list. *)
Definition outputs (f : FS) (input_dir output_dir : Path) : list Path :=
  output_of input_dir output_dir <$> rglob_list f input_dir.

(** Writing the outputs [outs] cannot fail: no regular file lies where a
    directory of an output is needed, no output path is a directory, and no
    output path doubles as a directory of another output. *)
Definition io_safe (f : FS) (outs : list Path) : Prop :=
  (forall o q, o ∈ outs -> q `prefix_of` parent o -> is_file f q = false) /\
  (forall o, o ∈ outs -> is_dir f o = false) /\
  (forall o o', o ∈ outs -> o' ∈ outs -> o `prefix_of` o' -> o = o').

(** No item is skipped: the flags say "overwrite", or the outputs are all new
    and pairwise different. *)
Definition never_skips (f : FS) (outs : list Path) (overwrite skip_existing : bool)
  : Prop :=
  (skip_existing = false /\ overwrite = true)
  \/ (NoDup outs /\ forall o, o ∈ outs -> exists_ f o = false).

(** All prefixes of a path, the path itself included. *)
Definition prefixes (p : Path) : list Path :=
  (fun n => take n p) <$> seq 0 (S (length p)).

(** [io_safe] and [never_skips] as tests that can be run. *)
Definition io_safe_b (f : FS) (outs : list Path) : bool :=
  forallb
    (fun o =>
       forallb (fun q => negb (is_file f q)) (prefixes (parent o))
       && negb (is_dir f o)
       && forallb (fun o' => bool_decide (o `prefix_of` o' -> o = o')) outs)
    outs.

Definition all_new_b (f : FS) (outs : list Path) : bool :=
  bool_decide (NoDup outs) && forallb (fun o => negb (exists_ f o)) outs.

(** The outcome an item is due when [bad] is the one document that cannot
    be read: failed for [bad], success for every other. *)
Definition due (bad pdf : Path) : str :=
  if decide (pdf = bad) then failed else success.

(** ** A small tree and stub engines for concrete runs *)

Definition ex_root : Path := [u "root"].
Definition ex_out : Path := [u "out"].
Definition ex_pdf : Path := [u "root"; u "a"; u "b"; u "doc.pdf"].
Definition ex_txt : Path := [u "out"; u "a"; u "b"; u "doc.txt"].

(** Sixty letters: long enough to keep the primary engine's text. *)
Definition ex_long : str := replicate 60 120%N.

(** A text with a lone surrogate, which UTF-8 cannot encode. *)
Definition ex_surrogate : str := replicate 59 120%N ++ [55296%N].

Definition ex_input_tree : FS :=
  <[ex_pdf := File (u "%PDF-1.7")]>
    (<[[u "root"; u "a"; u "b"] := Dir]>
       (<[[u "root"; u "a"] := Dir]> (<[ex_root := Dir]> ∅))).

(** The tree after a first run: the output file is there. *)
Definition ex_done_tree : FS :=
  <[ex_txt := File (u "old text")]>
    (<[[u "out"; u "a"; u "b"] := Dir]>
       (<[[u "out"; u "a"] := Dir]> (<[ex_out := Dir]> ex_input_tree))).

Definition ex_fitz (f : FS) (p : Path) : Exception + list (Exception + str) :=
  inr [inr ex_long].

Definition ex_fitz_short (f : FS) (p : Path)
  : Exception + list (Exception + str) :=
  inr [inr (u "  scan  ")].

Definition ex_fitz_broken (f : FS) (p : Path)
  : Exception + list (Exception + str) :=
  inl (LibraryError (u "cannot open broken document")).

Definition ex_fitz_surrogate (f : FS) (p : Path)
  : Exception + list (Exception + str) :=
  inr [inr ex_surrogate].

Definition ex_pypdf (f : FS) (p : Path) : Exception + list (Exception + str) :=
  inr [inr (u "from "); inr []; inr (u "pypdf")].

(** A tree whose only document is the hidden file [root/a/.pdf]. *)
Definition ex_hidden_pdf : Path := [u "root"; u "a"; u ".pdf"].

Definition ex_hidden_tree : FS :=
  <[ex_hidden_pdf := File (u "%PDF-1.7")]>
    (<[[u "root"; u "a"] := Dir]> (<[ex_root := Dir]> ∅)).

(** An input directory without documents. *)
Definition ex_empty_tree : FS := <[ex_root := Dir]> ∅.

(** A tree with three documents, one of which no engine can read. *)
Definition ex_bad_pdf : Path := [u "root"; u "a"; u "broken.pdf"].
Definition ex_other_pdf : Path := [u "root"; u "notes.pdf"].

Definition ex_three_tree : FS :=
  <[ex_other_pdf := File (u "%PDF-1.4")]>
    (<[ex_bad_pdf := File (u "garbage")]> ex_input_tree).

Definition ex_fitz_one_bad (f : FS) (p : Path)
  : Exception + list (Exception + str) :=
  if bool_decide (p = ex_bad_pdf)
  then inl (LibraryError (u "cannot open broken document"))
  else inr [inr ex_long].

(** Answers for the prompts of the interactive mode (not asked for on the
    command line). *)
Definition ex_answers : Answers :=
  mkAnswers ex_root ex_out (u "y") None.

(** A command line naming the input and the output root. *)
Definition ex_args (input_dir : Path) (workers : Z) : Args :=
  mkArgs (Some input_dir) (Some ex_out) workers false false false.

(** The same tree when an earlier run has left an output for the unreadable
    document. *)
Definition ex_stale_tree : FS :=
  <[[u "out"; u "a"; u "broken.txt"] := File (u "stale")]>
    (<[[u "out"; u "a"] := Dir]> (<[ex_out := Dir]> ex_three_tree)).

(** The input tree when a regular file lies where the output root is to be. *)
Definition ex_blocked_tree : FS := <[ex_out := File (u "notes")]> ex_input_tree.

(** A tree in which a directory lies in the place of the log file. *)
Definition ex_log_dir_tree : FS := <[LOG_FILE := Dir]> ex_input_tree.

(** ** Auxiliary definitions for the further properties *)

(** Two results agree when they return the same and leave the same files. *)
Definition agree {A} (x y : Result A * World) : Prop :=
  fst x = fst y /\ fs (snd x) = fs (snd y).

(** The same result and, the log file apart, the same file system. *)
Definition agree_but_log {A} (x y : Result A * World) : Prop :=
  fst x = fst y /\
  forall q, q <> LOG_FILE -> fs (snd x) !! q = fs (snd y) !! q.

Section LegacyBody.

Variable fitz_open : FS -> Path -> Exception + list (Exception + str).
Variable PdfReader : FS -> Path -> Exception + list (Exception + str).

(** The body of the loop of the sequential script, for one document. *)
Definition legacy_body (input_dir output_dir : Path) (_ : unit)
    (pdf_file : Path) : M unit :=
  try_except
    (text <- Legacy.extract_text fitz_open PdfReader pdf_file ;;
     relative_path <- lift (relative_to pdf_file input_dir) ;;
     renamed <- lift (with_suffix relative_path (u ".txt")) ;;
     let output_file := joinpath output_dir renamed in
     mkdir (parent output_file) true true ;;;
     write_text output_file text)
    (fun e => emit (Ev_log_failed pdf_file e)).

End LegacyBody.

(** A primary engine that finds white space only, as on a scanned document. *)
Definition ex_fitz_blank (f : FS) (p : Path)
  : Exception + list (Exception + str) :=
  inr [inr (u "   "); inr []; inr (u " ")].

(** A path outside the input root of the examples. *)
Definition ex_stray_pdf : Path := [u "elsewhere"; u "doc.pdf"].

(** * Properties *)

Local Open Scope py_scope.
#[local] Opaque skipped success failed.

(** ** The monad *)

Lemma bind_unfold {A B} (m : M A) (k : A -> M B) w :
  bind m k w = match m w with
               | (Ok a, w') => k a w'
               | (Raise e, w') => (Raise e, w')
               | (SysExit c, w') => (SysExit c, w')
               end.
Proof. reflexivity. Qed.

Lemma for_loop_gather {A S} (pages : list (Exception + A)) (g : S -> A -> S)
    (s : S) (w : World) :
  for_loop pages (fun s page => t <- lift_ext page ;; ret (g s t)) s w
  = (match gather pages g s with inl e => Raise e | inr s' => Ok s' end, w).
Proof.
  revert s. induction pages as [|[e|a] rest IH]; intros s; simpl; [done..|].
  rewrite bind_unfold. simpl. apply IH.
Qed.

(** ** The file system *)

Lemma exists_cases (f : FS) p :
  exists_ f p = is_dir f p || is_file f p.
Proof.
  unfold exists_, is_dir, is_file.
  destruct (is_anchor p); simpl; [done|].
  destruct (f !! p) as [[c|]|] eqn:E; simpl;
    repeat case_bool_decide; try done;
    match goal with H : ¬ is_Some _ |- _ => destruct H; eauto
                  | H : is_Some None |- _ => by destruct H end.
Qed.

Lemma is_dir_exists (f : FS) p : is_dir f p = true -> exists_ f p = true.
Proof. intros H. by rewrite exists_cases, H. Qed.

Lemma is_file_not_dir (f : FS) p : is_file f p = true -> is_dir f p = false.
Proof.
  unfold is_file, is_dir. destruct (is_anchor p); simpl; [done|].
  destruct (f !! p) as [[c|]|]; done.
Qed.

Lemma not_exists_lookup (f : FS) p : exists_ f p = false -> f !! p = None.
Proof.
  unfold exists_. intros [_ H]%orb_false_iff.
  apply bool_decide_eq_false_1 in H.
  destruct (f !! p) eqn:E; [|done]. destruct H. eauto.
Qed.

Lemma not_exists_not_anchor (f : FS) p :
  exists_ f p = false -> is_anchor p = false.
Proof. unfold exists_. by intros [? _]%orb_false_iff. Qed.

Lemma parent_snoc (p : Path) x :
  is_anchor (p ++ [x]) = false -> parent (p ++ [x]) = p.
Proof. intros H. unfold parent. rewrite H. apply removelast_last. Qed.

Lemma parent_prefix (p : Path) : parent p `prefix_of` p.
Proof.
  unfold parent. destruct (is_anchor p); [done|].
  destruct (decide (p = [])) as [->|Hne]; [done|].
  rewrite (app_removelast_last [] Hne) at 2. by apply prefix_app_r.
Qed.

Lemma parent_length (p : Path) :
  is_anchor p = false -> length p = S (length (parent p)).
Proof.
  intros H. unfold parent. rewrite H.
  destruct (decide (p = [])) as [->|Hne]; [done|].
  rewrite (app_removelast_last [] Hne) at 1. rewrite length_app. simpl. lia.
Qed.

Lemma mkdir_changes_refl f p : mkdir_changes f f p.
Proof. intros q. by left. Qed.

Lemma mkdir_changes_trans f1 f2 f3 p p' :
  p `prefix_of` p' ->
  mkdir_changes f1 f2 p -> mkdir_changes f2 f3 p' -> mkdir_changes f1 f3 p'.
Proof.
  intros Hp H12 H23 q.
  destruct (H12 q) as [E1|(E1 & E1' & Hq)], (H23 q) as [E2|(E2 & E2' & Hq')].
  - left. congruence.
  - right. rewrite <- E1. done.
  - right. rewrite E2. split_and!; [done..|]. by etrans.
  - congruence.
Qed.

Lemma os_mkdir_inv p w :
  (fst (os_mkdir p w) = Ok tt /\ exists_ (fs w) p = false
   /\ is_dir (fs w) (parent p) = true
   /\ snd (os_mkdir p w) = mkWorld (<[p := Dir]> (fs w)) (events w))
  \/ (snd (os_mkdir p w) = w /\
      ((fst (os_mkdir p w) = Raise FileExistsError /\ exists_ (fs w) p = true)
       \/ (fst (os_mkdir p w) = Raise NotADirectoryError
           /\ exists_ (fs w) p = false
           /\ is_file (fs w) (parent p) = true)
       \/ (fst (os_mkdir p w) = Raise FileNotFoundError
           /\ exists_ (fs w) p = false
           /\ exists_ (fs w) (parent p) = false))).
Proof.
  unfold os_mkdir.
  destruct (exists_ (fs w) p) eqn:E1; [right; auto|].
  destruct (is_dir (fs w) (parent p)) eqn:E2; [left; auto|].
  destruct (exists_ (fs w) (parent p)) eqn:E3; right; split; auto.
  right. left. split_and!; [done..|].
  rewrite exists_cases, E2 in E3. done.
Qed.

Lemma is_dir_insert_dir (f : FS) p : is_dir (<[p := Dir]> f) p = true.
Proof.
  unfold is_dir. rewrite lookup_insert_eq.
  rewrite bool_decide_eq_true_2 by done. apply orb_true_r.
Qed.

Lemma mkdir_changes_insert (f : FS) p :
  f !! p = None -> mkdir_changes f (<[p := Dir]> f) p.
Proof.
  intros Hn q. destruct (decide (q = p)) as [->|Hne].
  - right. by rewrite lookup_insert_eq.
  - left. by rewrite lookup_insert_ne.
Qed.

Lemma is_dir_insert_mono (f : FS) p n q :
  f !! p = None -> is_dir f q = true -> is_dir (<[p := n]> f) q = true.
Proof.
  unfold is_dir. intros Hn. destruct (is_anchor q); [done|]. simpl.
  intros Hq%bool_decide_eq_true_1. apply bool_decide_eq_true_2.
  rewrite lookup_insert_ne; [done|]. congruence.
Qed.

Lemma wf_insert_dir (f : FS) p :
  wf_fs f -> f !! p = None -> is_dir f (parent p) = true ->
  wf_fs (<[p := Dir]> f).
Proof.
  intros Hwf Hn Hd q n Hq. apply is_dir_insert_mono; [done|].
  destruct (decide (q = p)) as [->|Hne]; [done|].
  rewrite lookup_insert_ne in Hq by done. by eapply Hwf.
Qed.

Lemma wf_insert_file (f : FS) p t :
  wf_fs f -> is_dir f p = false -> is_dir f (parent p) = true ->
  wf_fs (<[p := File t]> f).
Proof.
  intros Hwf Hnd Hd q n Hq.
  assert (forall q', is_dir f q' = true -> is_dir (<[p := File t]> f) q' = true)
    as Hmono.
  { intros q' Hq'. unfold is_dir in *. destruct (is_anchor q'); [done|].
    simpl in *. apply bool_decide_eq_true_1 in Hq'.
    apply bool_decide_eq_true_2. rewrite lookup_insert_ne; [done|].
    intros ->. apply orb_false_iff in Hnd as [_ Hnd].
    apply bool_decide_eq_false_1 in Hnd. done. }
  apply Hmono. destruct (decide (q = p)) as [->|Hne]; [done|].
  rewrite lookup_insert_ne in Hq by done. by eapply Hwf.
Qed.

Lemma wf_ancestors (f : FS) p :
  wf_fs f -> is_dir f p = true ->
  forall q, q `prefix_of` p -> is_dir f q = true.
Proof.
  intros Hwf. induction p as [|x p IH] using rev_ind; intros Hd q Hq.
  - apply prefix_nil_inv in Hq as ->. done.
  - destruct (decide (q = p ++ [x])) as [->|Hne]; [done|].
    assert (q `prefix_of` p) as Hqp.
    { destruct Hq as [k Hk]. destruct k as [|y k _] using rev_ind.
      - rewrite app_nil_r in Hk. by destruct Hne.
      - rewrite app_assoc in Hk. apply app_inj_tail in Hk as [-> _].
        by apply prefix_app_r. }
    destruct (is_anchor (p ++ [x])) eqn:Hanc.
    + destruct p as [|y p]; [|by destruct p].
      apply prefix_nil_inv in Hqp as ->. done.
    + apply IH; [|done]. unfold is_dir in Hd. rewrite Hanc in Hd. simpl in Hd.
      apply bool_decide_eq_true_1 in Hd.
      rewrite <- (parent_snoc p x Hanc). by eapply Hwf.
Qed.

Lemma mkdir_single_post p w :
  mkdir_post p w (mkdir_single p true w) /\
  (exists_ (fs w) p = false -> is_dir (fs w) (parent p) = true ->
   fst (mkdir_single p true w) = Ok tt).
Proof.
  unfold mkdir_single, try_except, mkdir_post.
  destruct (os_mkdir_inv p w)
    as [(Hr & He & Hd & Hw)|(Hw & [(Hr & He)|[(Hr & He & Hf)|(Hr & He & Hp)]])];
    destruct (os_mkdir p w) as [res w1]; simpl in *; subst; simpl.
  - split_and!; try done.
    + by apply mkdir_changes_insert, not_exists_lookup.
    + intros _. apply is_dir_insert_dir.
    + intros Hwf. apply wf_insert_dir; [done|by apply not_exists_lookup|done].
  - rewrite bind_unfold. simpl.
    destruct (is_dir (fs w) p) eqn:Ed; simpl;
      (split; [split_and!; try done; apply mkdir_changes_refl | congruence]).
  - rewrite bind_unfold. simpl.
    assert (is_dir (fs w) p = false) as ->.
    { rewrite exists_cases in He. by apply orb_false_iff in He as [? _]. }
    simpl. split; [split_and!; try done; apply mkdir_changes_refl|].
    intros _ Hd. by rewrite (is_file_not_dir _ _ Hf) in Hd.
  - split; [split_and!; try done; apply mkdir_changes_refl|].
    intros _ Hd. rewrite exists_cases in Hp. rewrite Hd in Hp. done.
Qed.

Lemma mkdir_rev_post rp w :
  mkdir_post (rev rp) w (mkdir_rev rp true true w) /\
  ((forall q, q `prefix_of` rev rp -> is_file (fs w) q = false) ->
   fst (mkdir_rev rp true true w) = Ok tt).
Proof.
  revert w. induction rp as [|x rp IH]; intros w.
  - split; [|done]. unfold mkdir_post. simpl. split_and!; try done.
    apply mkdir_changes_refl.
  - cbn [mkdir_rev]. change (rev (x :: rp)) with (rev rp ++ [x]).
    set (self := rev rp ++ [x]).
    unfold try_except, mkdir_post.
    destruct (os_mkdir_inv self w)
      as [(Hr & He & Hd & Hw)|(Hw & [(Hr & He)|[(Hr & He & Hf)|(Hr & He & Hp)]])];
      destruct (os_mkdir self w) as [res w1]; simpl in *; subst; simpl.
    + split_and!; try done.
      * by apply mkdir_changes_insert, not_exists_lookup.
      * intros _. apply is_dir_insert_dir.
      * intros Hwf. apply wf_insert_dir; [done|by apply not_exists_lookup|done].
    + rewrite bind_unfold. simpl.
      destruct (is_dir (fs w) self) eqn:Ed; simpl;
        (split; [split_and!; try done; apply mkdir_changes_refl |]); [done|].
      intros Hfree. specialize (Hfree self (reflexivity _)).
      rewrite exists_cases, Ed, Hfree in He. done.
    + rewrite bind_unfold. simpl.
      assert (is_dir (fs w) self = false) as ->.
      { rewrite exists_cases in He. by apply orb_false_iff in He as [? _]. }
      simpl. split; [split_and!; try done; apply mkdir_changes_refl|].
      intros Hfree. rewrite (Hfree _ (parent_prefix self)) in Hf. done.
    + pose proof (not_exists_not_anchor _ _ He) as Hanc.
      pose proof (parent_snoc (rev rp) x Hanc) as Hpar. fold self in Hpar.
      rewrite bool_decide_eq_false_2; last first.
      { rewrite Hpar. intros Heq.
        apply (f_equal length) in Heq. unfold self in Heq.
        rewrite length_app in Heq. simpl in Heq. lia. }
      simpl. rewrite bind_unfold.
      destruct (IH w) as [(Hev1 & Hex1 & Hch1 & Hdir1 & Hwf1) Hsucc1].
      destruct (mkdir_rev rp true true w) as [[[]|e1|c1] w1]; simpl in *.
      * destruct (mkdir_single_post self w1)
          as [(Hev2 & Hex2 & Hch2 & Hdir2 & Hwf2) Hsucc2].
        split.
        { split_and!; try done.
          - congruence.
          - eapply mkdir_changes_trans; [|exact Hch1|exact Hch2].
            unfold self. by apply prefix_app_r.
          - auto. }
        intros _. apply Hsucc2.
        -- assert (fs w1 !! self = None) as Hnone.
           { destruct (Hch1 self) as [->|(_ & _ & Hpre)].
             - by apply not_exists_lookup.
             - apply prefix_length in Hpre. unfold self in Hpre.
               rewrite length_app in Hpre. simpl in Hpre. lia. }
           unfold exists_. by rewrite Hanc, Hnone.
        -- rewrite Hpar. by apply Hdir1.
      * split.
        { split_and!; try done.
          intros q. destruct (Hch1 q) as [?|(? & ? & Hpre)]; [by left|right].
          split_and!; try done. unfold self. by apply prefix_app_r. }
        intros Hfree. exfalso.
        assert (Raise (A:=unit) e1 = Ok tt); [|done].
        apply Hsucc1. intros q Hq. apply Hfree. unfold self.
        by apply prefix_app_r.
      * by destruct (Hex1 c1).
Qed.

Lemma write_text_events p data w :
  events (snd (write_text p data w)) = events w /\
  (forall c, fst (write_text p data w) <> SysExit c).
Proof.
  unfold write_text, open_w. rewrite bind_unfold.
  destruct (is_dir (fs w) p); [done|].
  destruct (is_dir (fs w) (parent p)); simpl.
  - by destruct (encodable data).
  - by destruct (exists_ (fs w) (parent p)).
Qed.

Lemma write_text_ok p data w :
  is_dir (fs w) p = false -> is_dir (fs w) (parent p) = true ->
  write_text p data w
  = if encodable data
    then (Ok tt, mkWorld (<[p := File data]> (fs w)) (events w))
    else (Raise UnicodeEncodeError, mkWorld (<[p := File []]> (fs w)) (events w)).
Proof.
  intros Hd Hp. unfold write_text, open_w. rewrite bind_unfold, Hd, Hp. simpl.
  destruct (encodable data); [|done]. unfold set_fs. simpl.
  by rewrite insert_insert_eq.
Qed.

(** ** The extraction engines *)

Section Extraction.

Variable fitz_open : FS -> Path -> Exception + list (Exception + str).
Variable PdfReader : FS -> Path -> Exception + list (Exception + str).

Lemma extract_with_pymupdf_eq p w :
  extract_with_pymupdf fitz_open p w
  = (as_result (pymupdf_text fitz_open (fs w) p),
     mkWorld (fs w) (events w ++ [Ev_fitz_open p])).
Proof.
  unfold extract_with_pymupdf, pymupdf_text.
  rewrite bind_unfold. simpl. rewrite bind_unfold. simpl.
  destruct (fitz_open (fs w) p) as [e|doc]; simpl; [done|].
  rewrite bind_unfold, for_loop_gather.
  by destruct (gather doc _ _).
Qed.

Lemma extract_with_pypdf_eq p w :
  extract_with_pypdf PdfReader p w
  = (as_result (pypdf_text PdfReader (fs w) p),
     mkWorld (fs w) (events w ++ [Ev_PdfReader p])).
Proof.
  unfold extract_with_pypdf, pypdf_text.
  rewrite bind_unfold. simpl. rewrite bind_unfold. simpl.
  destruct (PdfReader (fs w) p) as [e|pages]; simpl; [done|].
  rewrite for_loop_gather.
  by destruct (gather pages _ _).
Qed.

Lemma extract_text_eq p w :
  extract_text fitz_open PdfReader p w
  = (as_result (policy_text fitz_open PdfReader (fs w) p),
     mkWorld (fs w)
       (events w ++ policy_events fitz_open (fs w) p)).
Proof.
  unfold extract_text, policy_text, policy_events.
  rewrite bind_unfold, extract_with_pymupdf_eq.
  destruct (pymupdf_text fitz_open (fs w) p) as [e|text]; simpl; [done|].
  destruct (len (strip text) <? MIN_TEXT_THRESHOLD); [|done].
  rewrite bind_unfold. simpl. rewrite extract_with_pypdf_eq. simpl.
  by rewrite <- !app_assoc.
Qed.

Lemma fallback_calls_app evs evs' :
  fallback_calls (evs ++ evs') = fallback_calls evs + fallback_calls evs'.
Proof. unfold fallback_calls. by rewrite List.filter_app, length_app. Qed.

Lemma primary_calls_app evs evs' :
  primary_calls (evs ++ evs') = primary_calls evs + primary_calls evs'.
Proof. unfold primary_calls. by rewrite List.filter_app, length_app. Qed.

(** C4. [extract_text] calls the primary engine first and exactly once.  When
    the primary engine returns a text, the fallback engine is called (once) if
    and only if the stripped text is shorter than 50 characters; its result is
    then returned as it is, whatever its length.  Otherwise the fallback engine
    is not called and the primary text is returned unchanged. *)
Theorem C4_extract_text_fallback_policy p w text :
  fst (extract_with_pymupdf fitz_open p w) = Ok text ->
  let r := extract_text fitz_open PdfReader p w in
  (exists rest, events (snd r) = events w ++ Ev_fitz_open p :: rest) /\
  primary_calls (events (snd r)) = S (primary_calls (events w)) /\
  (fallback_calls (events (snd r)) = S (fallback_calls (events w))
     <-> len (strip text) < 50) /\
  (len (strip text) < 50 ->
     fst r = fst (extract_with_pypdf PdfReader p w)) /\
  (50 <= len (strip text) ->
     fallback_calls (events (snd r)) = fallback_calls (events w) /\
     fst r = Ok text) /\
  fs (snd r) = fs w.
Proof.
  rewrite extract_with_pymupdf_eq, extract_with_pypdf_eq. simpl.
  intros Hprim. rewrite extract_text_eq. simpl.
  unfold policy_text, policy_events.
  destruct (pymupdf_text fitz_open (fs w) p) as [e|t]; simpl in Hprim; [done|].
  injection Hprim as ->. unfold MIN_TEXT_THRESHOLD.
  destruct (Nat.ltb_spec (len (strip text)) 50) as [Hlt|Hge].
  - rewrite fallback_calls_app, primary_calls_app. cbn.
    repeat split; eauto with lia.
  - rewrite fallback_calls_app, primary_calls_app. cbn.
    repeat split; eauto with lia.
Qed.

End Extraction.

(** ** Path arithmetic *)

Lemma relative_to_not_exit self other c : relative_to self other <> SysExit c.
Proof.
  unfold relative_to.
  destruct (negb _); [done|]. by destruct (strip_prefix self other).
Qed.

Lemma with_suffix_not_exit p sfx c : with_suffix p sfx <> SysExit c.
Proof.
  unfold with_suffix. repeat case_bool_decide; simpl; try done;
    by destruct (_ || _).
Qed.

Lemma output_path_not_exit pdf input output c :
  output_path pdf input output <> SysExit c.
Proof.
  unfold output_path.
  pose proof (relative_to_not_exit pdf input).
  destruct (relative_to pdf input) as [rel|e|c']; [|done|by destruct (H c')].
  pose proof (with_suffix_not_exit rel (u ".txt")).
  destruct (with_suffix rel (u ".txt")) as [r|e|c']; [done..|].
  by destruct (H0 c').
Qed.

Lemma strip_prefix_app (a b : Path) : strip_prefix (a ++ b) a = Some b.
Proof.
  induction a as [|x a IH]; simpl; [by destruct b|].
  by rewrite bool_decide_eq_true_2.
Qed.

Lemma strip_prefix_Some (self other rel : Path) :
  strip_prefix self other = Some rel -> self = other ++ rel.
Proof.
  revert self. induction other as [|o other IH]; intros self; simpl.
  - destruct self; by intros [= ->].
  - destruct self as [|s self]; [done|].
    cbn [strip_prefix].
    destruct (bool_decide (o = s)) eqn:Hos; [|done].
    apply bool_decide_eq_true_1 in Hos as ->.
    intros H. by rewrite (IH _ H).
Qed.

Lemma is_absolute_app (a b : Path) :
  is_absolute (a ++ b) = if bool_decide (a = []) then is_absolute b
                         else is_absolute a.
Proof. by destruct a. Qed.

Lemma relative_to_app (input rel : Path) :
  is_absolute rel = false ->
  relative_to (input ++ rel) input = Ok rel.
Proof.
  intros Hrel. unfold relative_to. rewrite is_absolute_app, strip_prefix_app.
  case_bool_decide as Hi; [subst; by rewrite Hrel|].
  by destruct (is_absolute input).
Qed.

Lemma rfind_dot_app_Some (l s : str) i :
  rfind_dot s = Some i -> rfind_dot (l ++ s) = Some (length l + i).
Proof. intros H. induction l as [|c l IH]; simpl; [done|]. by rewrite IH. Qed.

Lemma name_snoc (dirs : Path) (n : str) :
  n <> [slash] -> name (dirs ++ [n]) = n.
Proof.
  intros Hn. unfold name.
  assert (is_anchor (dirs ++ [n]) = false) as ->.
  { destruct dirs as [|d [|d' dirs]]; simpl; [|done..].
    by apply bool_decide_eq_false_2. }
  apply last_last.
Qed.

(** A name with a non-empty stem before ".pdf" gets ".txt" in its place. *)
Lemma with_suffix_pdf (dirs : Path) (stem : str) :
  stem <> [] ->
  with_suffix (dirs ++ [stem ++ u ".pdf"]) (u ".txt")
  = Ok (dirs ++ [stem ++ u ".txt"]).
Proof.
  intros Hstem. unfold with_suffix, suffix.
  assert (stem ++ u ".pdf" <> [slash]) as Hns.
  { intros H. apply (f_equal length) in H. rewrite length_app in H.
    simpl in H. lia. }
  rewrite (name_snoc _ _ Hns).
  rewrite (rfind_dot_app_Some stem (u ".pdf") 0 eq_refl).
  rewrite (bool_decide_eq_false_2 (slash ∈ u ".txt"));
    [|vm_compute; intros H; repeat (apply elem_of_cons in H as [H|H]; [done|]);
      by apply not_elem_of_nil in H].
  change (negb (bool_decide (u ".txt" = [])) && negb (startswith (u ".txt") [dot])
          || bool_decide (u ".txt" = [dot])) with false.
  cbv iota.
  rewrite bool_decide_eq_false_2 by (by destruct stem).
  unfold len. rewrite length_app, Nat.add_0_r.
  assert (length stem > 0) by (destruct stem; [done|simpl; lia]).
  replace (0 <? length stem) with true by (symmetry; apply Nat.ltb_lt; lia).
  replace (length stem <? length stem + length (u ".pdf") - 1) with true
    by (symmetry; apply Nat.ltb_lt; simpl; lia).
  simpl andb. cbv iota.
  rewrite drop_app_length.
  rewrite bool_decide_eq_false_2 by done.
  rewrite removelast_last.
  replace (length stem + length (u ".pdf") - length (u ".pdf"))
    with (length stem) by lia.
  by rewrite take_app_length.
Qed.

Lemma output_path_pdf (input output dirs : Path) (stem : str) :
  stem <> [] ->
  is_absolute (dirs ++ [stem ++ u ".pdf"]) = false ->
  output_path (input ++ dirs ++ [stem ++ u ".pdf"]) input output
  = Ok (output ++ dirs ++ [stem ++ u ".txt"]).
Proof.
  intros Hstem Hrel. unfold output_path.
  rewrite (relative_to_app _ _ Hrel), (with_suffix_pdf _ _ Hstem).
  unfold joinpath.
  assert (is_absolute (dirs ++ [stem ++ u ".txt"]) = false) as ->; [|done].
  rewrite is_absolute_app in *. case_bool_decide as Hd; [|done]. simpl in *.
  apply bool_decide_eq_false_2. intros Habs.
  apply (f_equal length) in Habs. rewrite length_app in Habs.
  simpl in Habs. lia.
Qed.

Lemma fnmatch_pdf_nonempty (n : str) : fnmatch_pdf n = true -> n <> [].
Proof. intros H ->. vm_compute in H. discriminate. Qed.

(** Every path the resolver lists has an output path. *)
Lemma rglob_list_output_path (f : FS) (input output pdf : Path) :
  pdf ∈ rglob_list f input ->
  exists out, output_path pdf input output = Ok out.
Proof.
  unfold rglob_list. destruct (is_dir f input); [|by intros ?%elem_of_nil].
  intros [Hp _]%list_elem_of_filter.
  apply Is_true_true, andb_true_iff in Hp as [Hbelow Hname].
  unfold below in Hbelow. apply andb_true_iff in Hbelow as [Habs Hrel].
  destruct (strip_prefix pdf input) as [[|x rel]|] eqn:Hstrip; try done.
  pose proof (strip_prefix_Some _ _ _ Hstrip) as ->.
  unfold output_path, relative_to.
  apply Bool.eqb_prop in Habs. rewrite Habs, Bool.eqb_reflx, Hstrip. simpl.
  assert (name (x :: rel) = name (input ++ x :: rel)
          /\ name (x :: rel) <> []) as [Hn Hne].
  { destruct (exists_last (l:=x :: rel)) as (ds & n & Hds); [done|].
    rewrite Hds, app_assoc in *.
    assert (n <> [slash]) as Hns.
    { intros ->. unfold name in Hname.
      destruct (is_anchor ((input ++ ds) ++ [[slash]])); [done|].
      rewrite last_last in Hname. vm_compute in Hname. discriminate. }
    rewrite !name_snoc in * by done.
    split; [done|]. by apply fnmatch_pdf_nonempty. }
  unfold with_suffix.
  rewrite (bool_decide_eq_false_2 (slash ∈ u ".txt"));
    [|vm_compute; intros H; repeat (apply elem_of_cons in H as [H|H]; [done|]);
      by apply not_elem_of_nil in H].
  change (negb (bool_decide (u ".txt" = [])) && negb (startswith (u ".txt") [dot])
          || bool_decide (u ".txt" = [dot])) with false.
  cbv iota. rewrite bool_decide_eq_false_2 by done. eauto.
Qed.

(** ** The worker *)

Section Worker.

Variable fitz_open : FS -> Path -> Exception + list (Exception + str).
Variable PdfReader : FS -> Path -> Exception + list (Exception + str).

Local Abbreviation process_file := (process_file fitz_open PdfReader).
Local Abbreviation extract_text := (extract_text fitz_open PdfReader).
Local Abbreviation policy_text := (policy_text fitz_open PdfReader).
Local Abbreviation policy_events := (policy_events fitz_open).

(** The worker, step by step. *)
Lemma process_file_eq pdf input output ov sk w :
  process_file (pdf, input, output, ov, sk) w =
  match output_path pdf input output with
  | Ok out =>
      if (sk && exists_ (fs w) out) || (exists_ (fs w) out && negb ov)
      then (Ok skipped, w)
      else
        let w1 := mkWorld (fs w) (events w ++ policy_events (fs w) pdf) in
        match policy_text (fs w) pdf with
        | inl e =>
            (Ok failed, mkWorld (fs w) (events w1 ++ [Ev_log_failed pdf e]))
        | inr text =>
            match mkdir (parent out) true true w1 with
            | (Ok _, w2) =>
                match write_text out text w2 with
                | (Ok _, w3) => (Ok success, w3)
                | (Raise e, w3) =>
                    (Ok failed,
                     mkWorld (fs w3) (events w3 ++ [Ev_log_failed pdf e]))
                | (SysExit c, w3) => (SysExit c, w3)
                end
            | (Raise e, w2) =>
                (Ok failed,
                 mkWorld (fs w2) (events w2 ++ [Ev_log_failed pdf e]))
            | (SysExit c, w2) => (SysExit c, w2)
            end
        end
  | Raise e => (Ok failed, mkWorld (fs w) (events w ++ [Ev_log_failed pdf e]))
  | SysExit c => (SysExit c, w)
  end.
Proof.
  unfold process_file. cbn beta iota. unfold try_except.
  rewrite bind_unfold. unfold lift at 1.
  destruct (output_path pdf input output) as [out|e|c]; simpl; [|done..].
  set (K := bind (extract_text pdf) _).
  assert (K w =
          match policy_text (fs w) pdf with
          | inl e =>
              (Raise e, mkWorld (fs w) (events w ++ policy_events (fs w) pdf))
          | inr text =>
              (mkdir (parent out) true true;;; write_text out text;;;
               ret success)
                (mkWorld (fs w) (events w ++ policy_events (fs w) pdf))
          end) as HK.
  { subst K. rewrite bind_unfold, extract_text_eq.
    by destruct (policy_text (fs w) pdf) as [e|text]. }
  clearbody K.
  unfold bind at 1 2 3, path_exists, ret at 1 2 3 4.
  destruct sk; cbn; destruct (exists_ (fs w) out) eqn:E; cbn;
    rewrite ?E; cbn; try done; destruct ov; cbn; try done.
  all: rewrite HK; destruct (policy_text (fs w) pdf) as [e|text]; [done|].
  all: rewrite !bind_unfold.
  all: destruct (mkdir _ _ _ _) as [[[]|e|c] w2]; [|done..].
  all: rewrite bind_unfold.
  all: by destruct (write_text _ _ _) as [[[]|e|c] w3].
Qed.

Lemma outcomes_distinct :
  skipped <> success /\ skipped <> failed /\ success <> failed.
Proof. split_and!; intros H; vm_compute in H; discriminate. Qed.

Lemma extract_text_fst pdf w :
  fst (extract_text pdf w) = as_result (policy_text (fs w) pdf).
Proof. by rewrite extract_text_eq. Qed.

Lemma mkdir_post_holds p w : mkdir_post p w (mkdir p true true w).
Proof.
  unfold mkdir. destruct (mkdir_rev_post (rev p) w) as [H _].
  by rewrite rev_involutive in H.
Qed.

Lemma mkdir_succeeds p w :
  (forall q, q `prefix_of` p -> is_file (fs w) q = false) ->
  fst (mkdir p true true w) = Ok tt.
Proof.
  unfold mkdir. destruct (mkdir_rev_post (rev p) w) as [_ H].
  rewrite rev_involutive in H. exact H.
Qed.

Lemma write_text_inv p data w :
  (is_dir (fs w) p = false /\ is_dir (fs w) (parent p) = true /\
   ((fst (write_text p data w) = Ok tt
     /\ fs (snd (write_text p data w)) = <[p := File data]> (fs w))
    \/ (fst (write_text p data w) = Raise UnicodeEncodeError
        /\ encodable data = false
        /\ fs (snd (write_text p data w)) = <[p := File []]> (fs w))))
  \/ (exists e, fst (write_text p data w) = Raise e
                /\ fs (snd (write_text p data w)) = fs w).
Proof.
  unfold write_text, open_w. rewrite bind_unfold.
  destruct (is_dir (fs w) p); [right; eauto|].
  destruct (is_dir (fs w) (parent p)); simpl.
  - left. split_and!; [done..|].
    destruct (encodable data); simpl; [|by right].
    left. by rewrite insert_insert_eq.
  - destruct (exists_ (fs w) (parent p)); right; eauto.
Qed.

(** The worker always returns one of its three outcomes. *)
Lemma process_file_total args w :
  exists o, fst (process_file args w) = Ok o
            /\ (o = skipped \/ o = success \/ o = failed).
Proof.
  destruct args as [[[[pdf input] output] ov] sk].
  rewrite process_file_eq.
  pose proof (output_path_not_exit pdf input output) as Hne.
  destruct (output_path pdf input output) as [out|e|c];
    [|eauto|by destruct (Hne c)].
  destruct (_ || _); [eauto|].
  destruct (policy_text (fs w) pdf) as [e|text]; simpl; [eauto|].
  match goal with |- context [mkdir ?p true true ?w1] =>
    destruct (mkdir_post_holds p w1) as (_ & Hx & _);
    destruct (mkdir p true true w1) as [[[]|e|c] w2]; simpl in *;
    [|eauto|by destruct (Hx c)]
  end.
  destruct (write_text_events out text w2) as [_ Hx2].
  destruct (write_text out text w2) as [[[]|e|c] w3]; simpl in *;
    [eauto|eauto|by destruct (Hx2 c)].
Qed.

Lemma process_file_skips pdf input output ov sk w out :
  output_path pdf input output = Ok out ->
  (sk && exists_ (fs w) out) || (exists_ (fs w) out && negb ov) = true ->
  process_file (pdf, input, output, ov, sk) w = (Ok skipped, w).
Proof. intros Ho Hs. by rewrite process_file_eq, Ho, Hs. Qed.

(** A worker whose extraction raises reports a failure and leaves the files. *)
Lemma process_file_extraction_raises pdf input output ov sk w out e :
  output_path pdf input output = Ok out ->
  (sk && exists_ (fs w) out) || (exists_ (fs w) out && negb ov) = false ->
  policy_text (fs w) pdf = inl e ->
  process_file (pdf, input, output, ov, sk) w
  = (Ok failed,
     mkWorld (fs w)
       (events w ++ policy_events (fs w) pdf ++ [Ev_log_failed pdf e])).
Proof.
  intros Ho Hs He. rewrite process_file_eq, Ho, Hs, He. simpl.
  by rewrite <- app_assoc.
Qed.

(** A worker whose extraction returns an encodable text, with nothing in the
    way of the output file, writes the text and reports success. *)
Lemma process_file_writes pdf input output ov sk w out text :
  output_path pdf input output = Ok out ->
  (sk && exists_ (fs w) out) || (exists_ (fs w) out && negb ov) = false ->
  policy_text (fs w) pdf = inr text ->
  encodable text = true ->
  (forall q, q `prefix_of` parent out -> is_file (fs w) q = false) ->
  is_dir (fs w) out = false ->
  exists f1,
    process_file (pdf, input, output, ov, sk) w
    = (Ok success,
       mkWorld (<[out := File text]> f1)
         (events w ++ policy_events (fs w) pdf))
    /\ mkdir_changes (fs w) f1 (parent out)
    /\ is_dir f1 (parent out) = true.
Proof.
  intros Ho Hs Ht Henc Hfree Hnd. rewrite process_file_eq, Ho, Hs, Ht. simpl.
  set (w1 := mkWorld _ _).
  pose proof (mkdir_post_holds (parent out) w1) as (Hev & _ & Hch & Hdir & _).
  pose proof (mkdir_succeeds (parent out) w1 Hfree) as Hok.
  destruct (mkdir (parent out) true true w1) as [r w2]; simpl in *. subst r.
  specialize (Hdir eq_refl).
  assert (is_dir (fs w2) out = false) as Hnd2.
  { unfold is_dir in *. apply orb_false_iff in Hnd as [Hanc Hnd].
    rewrite Hanc. simpl.
    destruct (Hch out) as [->|(_ & _ & Hpre)]; [done|].
    apply prefix_length in Hpre. rewrite (parent_length out Hanc) in Hpre. lia. }
  rewrite (write_text_ok out text w2 Hnd2 Hdir), Henc.
  exists (fs w2). by rewrite Hev.
Qed.

Lemma policy_events_head f pdf :
  exists rest, policy_events f pdf = Ev_fitz_open pdf :: rest.
Proof.
  unfold policy_events.
  destruct (pymupdf_text fitz_open f pdf); [eauto|].
  destruct (_ <? _); eauto.
Qed.

(** A worker that does not skip calls the extraction policy; it reports
    success only after writing the extracted text. *)
Lemma process_file_proceeds pdf input output ov sk w out :
  output_path pdf input output = Ok out ->
  (sk && exists_ (fs w) out) || (exists_ (fs w) out && negb ov) = false ->
  let r := process_file (pdf, input, output, ov, sk) w in
  (exists rest,
     events (snd r) = events w ++ policy_events (fs w) pdf ++ rest) /\
  (fst r = Ok success \/ fst r = Ok failed) /\
  (fst r = Ok success ->
   exists text, policy_text (fs w) pdf = inr text
                /\ fs (snd r) !! out = Some (File text)).
Proof.
  intros Ho Hs. cbv zeta. rewrite process_file_eq, Ho, Hs. simpl.
  destruct outcomes_distinct as (_ & _ & Hsf).
  destruct (policy_text (fs w) pdf) as [e|text]; simpl.
  { split_and!; [exists [Ev_log_failed pdf e]; by rewrite app_assoc|by right|].
    intros [=]; by try destruct Hsf. }
  set (w1 := mkWorld _ _).
  pose proof (mkdir_post_holds (parent out) w1) as (Hev & Hx & _).
  destruct (mkdir (parent out) true true w1) as [[[]|e|c] w2]; simpl in *;
    [| |by destruct (Hx c)].
  - pose proof (write_text_events out text w2) as [Hev2 Hx2].
    pose proof (write_text_inv out text w2) as Hinv.
    destruct (write_text out text w2) as [[[]|e|c] w3]; simpl in *;
      [| |by destruct (Hx2 c)].
    + split_and!; [exists []; by rewrite app_nil_r, Hev2, Hev|by left|].
      intros _. exists text. split; [done|].
      destruct Hinv as [(_ & _ & [[_ ->]|[[=] _]])|[e [[=] _]]].
      by rewrite lookup_insert_eq.
    + split_and!; [|by right|intros [=]; by try destruct Hsf].
      exists [Ev_log_failed pdf e]. by rewrite Hev2, Hev, app_assoc.
  - split_and!; [|by right|intros [=]; by try destruct Hsf].
    exists [Ev_log_failed pdf e]. by rewrite Hev, app_assoc.
Qed.

Lemma is_dir_insert_file (f : FS) p t q :
  is_dir f p = false -> is_dir f q = true ->
  is_dir (<[p := File t]> f) q = true.
Proof.
  intros Hnd Hq. unfold is_dir in *. destruct (is_anchor q); [done|].
  simpl in *. apply bool_decide_eq_true_1 in Hq.
  apply bool_decide_eq_true_2. rewrite lookup_insert_ne; [done|].
  intros ->. apply orb_false_iff in Hnd as [_ Hnd].
  by apply bool_decide_eq_false_1 in Hnd.
Qed.

(** The worker keeps the file system a tree. *)
Lemma process_file_wf args w :
  wf_fs (fs w) -> wf_fs (fs (snd (process_file args w))).
Proof.
  destruct args as [[[[pdf input] output] ov] sk]. intros Hwf.
  rewrite process_file_eq.
  destruct (output_path pdf input output) as [out|e|c]; [|done..].
  destruct (_ || _); [done|].
  destruct (policy_text (fs w) pdf) as [e|text]; simpl; [done|].
  set (w1 := mkWorld _ _).
  pose proof (mkdir_post_holds (parent out) w1) as (_ & _ & _ & _ & Hwf1).
  specialize (Hwf1 Hwf).
  destruct (mkdir (parent out) true true w1) as [[[]|e|c] w2]; simpl in *;
    [|done..].
  pose proof (write_text_inv out text w2) as Hinv.
  destruct (write_text out text w2) as [r3 w3]; simpl in *.
  assert (wf_fs (fs w3)) as Hwf3.
  { destruct Hinv as [(Hnd & Hd & [[_ ->]|(_ & _ & ->)])|[e [_ ->]]];
      [by apply wf_insert_file..|done]. }
  by destruct r3 as [[]|e|c].
Qed.

(** After a success the output file lies in a directory. *)
Lemma process_file_success_parent pdf input output ov sk w out :
  output_path pdf input output = Ok out ->
  fst (process_file (pdf, input, output, ov, sk) w) = Ok success ->
  is_dir (fs (snd (process_file (pdf, input, output, ov, sk) w))) (parent out)
  = true.
Proof.
  intros Ho. rewrite process_file_eq, Ho.
  destruct outcomes_distinct as (Hks & _ & Hsf).
  destruct (_ || _); simpl; [intros [=]; by try destruct Hks|].
  destruct (policy_text (fs w) pdf) as [e|text]; simpl;
    [intros [=]; by try destruct Hsf|].
  set (w1 := mkWorld _ _).
  destruct (mkdir (parent out) true true w1) as [[[]|e|c] w2]; simpl;
    [|intros [=]; by try destruct Hsf|done].
  pose proof (write_text_inv out text w2) as Hinv.
  destruct (write_text out text w2) as [[[]|e|c] w3]; simpl in *;
    [|intros [=]; by try destruct Hsf|done].
  intros _.
  destruct Hinv as [(Hnd & Hd & [[_ ->]|([=] & _)])|[e [[=] _]]].
  by apply is_dir_insert_file.
Qed.

(** Where a regular file lies on the way, the directory cannot be made. *)
Lemma mkdir_blocked p w q :
  wf_fs (fs w) -> q `prefix_of` p -> is_file (fs w) q = true ->
  exists e, fst (mkdir p true true w) = Raise e.
Proof.
  intros Hwf Hq Hf.
  pose proof (mkdir_post_holds p w) as (_ & Hx & Hch & Hdir & Hwf').
  destruct (mkdir p true true w) as [[[]|e|c] w1]; simpl in *;
    [|by eexists|by destruct (Hx c)].
  exfalso. specialize (Hwf' Hwf).
  pose proof (wf_ancestors _ _ Hwf' (Hdir eq_refl) q Hq) as Hd.
  unfold is_file in Hf. unfold is_dir in Hd.
  destruct (is_anchor q); [done|]. simpl in Hf, Hd.
  apply bool_decide_eq_true_1 in Hd.
  destruct (Hch q) as [Heq|(Hnone & _)].
  - rewrite Heq in Hd. by rewrite Hd in Hf.
  - by rewrite Hnone in Hf.
Qed.

(** A worker that has a text makes the directories above the output file
    before it writes: what it leaves is, but for the output file, a file
    system [f1] in which these directories are there. *)
Lemma process_file_makes_dirs pdf input output ov sk w out text :
  output_path pdf input output = Ok out ->
  (sk && exists_ (fs w) out) || (exists_ (fs w) out && negb ov) = false ->
  policy_text (fs w) pdf = inr text ->
  (forall q, q `prefix_of` parent out -> is_file (fs w) q = false) ->
  exists f1,
    mkdir_changes (fs w) f1 (parent out) /\
    is_dir f1 (parent out) = true /\
    (forall q, q <> out ->
       fs (snd (process_file (pdf, input, output, ov, sk) w)) !! q = f1 !! q) /\
    (encodable text = true -> is_dir (fs w) out = false ->
     process_file (pdf, input, output, ov, sk) w
     = (Ok success,
        mkWorld (<[out := File text]> f1)
          (events w ++ policy_events (fs w) pdf))).
Proof.
  intros Ho Hs Ht Hfree. rewrite process_file_eq, Ho, Hs, Ht. simpl.
  set (w1 := mkWorld _ _).
  pose proof (mkdir_post_holds (parent out) w1) as (Hev & _ & Hch & Hdir & _).
  pose proof (mkdir_succeeds (parent out) w1 Hfree) as Hok.
  destruct (mkdir (parent out) true true w1) as [r w2]; simpl in *. subst r.
  specialize (Hdir eq_refl). exists (fs w2). split_and!; [done|done| |].
  - intros q Hne. pose proof (write_text_inv out text w2) as Hinv.
    destruct (write_text out text w2) as [[[]|e|c] w3]; simpl in *.
    + destruct Hinv as [(_ & _ & [[_ ->]|([=] & _)])|[e [[=] _]]].
      by rewrite lookup_insert_ne.
    + destruct Hinv as [(_ & _ & [[[=] _]|(_ & _ & ->)])|[e' [_ ->]]];
        [by rewrite lookup_insert_ne|done].
    + destruct Hinv as [(_ & _ & [[[=] _]|([=] & _)])|[e' [[=] _]]].
  - intros Henc Hnd.
    assert (is_dir (fs w2) out = false) as Hnd2.
    { unfold is_dir in *. apply orb_false_iff in Hnd as [Hanc Hnd].
      rewrite Hanc. simpl.
      destruct (Hch out) as [->|(_ & _ & Hpre)]; [done|].
      apply prefix_length in Hpre.
      rewrite (parent_length out Hanc) in Hpre. lia. }
    rewrite (write_text_ok out text w2 Hnd2 Hdir), Henc. by rewrite Hev.
Qed.

(** C8, as amended.  For an input file [input/dirs/stem.pdf] with a non-empty
    stem, the output path is [output/dirs/stem.txt]: the path relative to the
    input root, re-rooted under the output root, with ".pdf" replaced by
    ".txt".  The parent directories of the output file are created as needed
    before writing.  For an item that is not skipped and whose extraction
    returns a text:
    - when no regular file lies where a directory is needed, the worker
      leaves, but for the output file, a file system [f1] that differs from
      the one before only by directories made on the way to the output file
      and in which the parent directory is there; so it is after the call,
      however the writing ends.  When moreover the text can be encoded and
      no directory lies at the output path, the text is written at the
      output path of [f1] and the worker reports success;
    - when, in a tree, a regular file lies where a directory is needed, the
      directories cannot be made and the item fails.
    And whenever the worker reports success, the output file holds the
    extracted text and lies in a directory, and in a tree every directory
    above it is there. *)
Theorem C8_output_path_mirrors_tree input output dirs stem ov sk w :
  stem <> [] ->
  is_absolute (dirs ++ [stem ++ u ".pdf"]) = false ->
  let pdf := input ++ dirs ++ [stem ++ u ".pdf"] in
  let out := output ++ dirs ++ [stem ++ u ".txt"] in
  let r := process_file (pdf, input, output, ov, sk) w in
  output_path pdf input output = Ok out /\
  (forall text,
     (sk && exists_ (fs w) out) || (exists_ (fs w) out && negb ov) = false ->
     fst (extract_text pdf w) = Ok text ->
     ((forall q, q `prefix_of` parent out -> is_file (fs w) q = false) ->
      exists f1,
        mkdir_changes (fs w) f1 (parent out) /\
        is_dir f1 (parent out) = true /\
        (forall q, q <> out -> fs (snd r) !! q = f1 !! q) /\
        is_dir (fs (snd r)) (parent out) = true /\
        (encodable text = true -> is_dir (fs w) out = false ->
         fst r = Ok success /\ fs (snd r) = <[out := File text]> f1)) /\
     (wf_fs (fs w) ->
      (exists q, q `prefix_of` parent out /\ is_file (fs w) q = true) ->
      fst r = Ok failed)) /\
  (fst r = Ok success ->
   (exists text, fst (extract_text pdf w) = Ok text
                 /\ fs (snd r) !! out = Some (File text)) /\
   is_dir (fs (snd r)) (parent out) = true /\
   (wf_fs (fs w) ->
    forall q, q `prefix_of` parent out -> is_dir (fs (snd r)) q = true)).
Proof.
  intros Hstem Hrel. cbv zeta.
  pose proof (output_path_pdf input output dirs stem Hstem Hrel) as Ho.
  split; [done|]. split.
  - intros text Hs Hext. rewrite extract_text_fst in Hext.
    destruct (policy_text (fs w) (input ++ dirs ++ [stem ++ u ".pdf"]))
      as [e|text'] eqn:Hpol; [done|].
    simpl in Hext. injection Hext as ->. split.
    + intros Hfree.
      destruct (process_file_makes_dirs _ _ _ _ _ _ _ _ Ho Hs Hpol Hfree)
        as (f1 & Hch & Hdir & Hrest & Hwrite).
      exists f1. split_and!; [done|done|done| |].
      * unfold is_dir in *.
        destruct (is_anchor (parent (output ++ dirs ++ [stem ++ u ".txt"])))
          eqn:Hanc; [done|].
        rewrite Hrest; [done|]. intros Heq. unfold parent in Heq, Hanc.
        destruct (is_anchor (output ++ dirs ++ [stem ++ u ".txt"])) eqn:Ha;
          [congruence|].
        apply (f_equal length) in Heq. rewrite !app_assoc in Heq.
        rewrite removelast_last, !length_app in Heq. simpl in Heq. lia.
      * intros Henc Hnd. by rewrite (Hwrite Henc Hnd).
    + intros Hwf (q & Hq & Hf). rewrite process_file_eq, Ho, Hs, Hpol.
      cbv zeta.
      set (w1 := mkWorld (fs w) _).
      destruct (mkdir_blocked
                  (parent (output ++ dirs ++ [stem ++ u ".txt"])) w1 q
                  Hwf Hq Hf) as [e He].
      destruct (mkdir _ true true w1) as [r2 w2]. simpl in He. by subst r2.
  - intros Hsucc.
    pose proof (process_file_success_parent _ _ _ _ _ _ _ Ho Hsucc) as Hpar.
    split_and!; [|done|].
    + destruct ((sk && exists_ (fs w) (output ++ dirs ++ [stem ++ u ".txt"]))
                || (exists_ (fs w) (output ++ dirs ++ [stem ++ u ".txt"])
                    && negb ov)) eqn:Hs.
      * rewrite (process_file_skips _ _ _ _ _ _ _ Ho Hs) in Hsucc.
        destruct outcomes_distinct as (Hks & _). simpl in Hsucc.
        injection Hsucc as Hsucc. by destruct Hks.
      * destruct (process_file_proceeds _ _ _ _ _ _ _ Ho Hs) as (_ & _ & H).
        destruct (H Hsucc) as (text & Hpol & Hfile).
        exists text. by rewrite extract_text_fst, Hpol.
    + intros Hwf. apply wf_ancestors; [by apply process_file_wf|done].
Qed.

(** C2. The skip decision of the worker, for an item whose output path is
    [out]: with [skip_existing] set and the output there, the item is skipped;
    with the output there and [overwrite] not set, it is skipped as well; an
    item is skipped in these cases only, and skipping leaves the whole world
    as it was (no file touched, no engine called).  In every other case the
    extraction is called, a success means the output file holds the extracted
    text, and the success is reached when the text can be encoded and nothing
    is in the way of the output file. *)
Theorem C2_skip_decision pdf input output ov sk w out :
  output_path pdf input output = Ok out ->
  let r := process_file (pdf, input, output, ov, sk) w in
  let there := exists_ (fs w) out in
  (sk = true -> there = true -> r = (Ok skipped, w)) /\
  (there = true -> ov = false -> r = (Ok skipped, w)) /\
  (fst r = Ok skipped ->
   ((sk = true /\ there = true) \/ (there = true /\ ov = false))
   /\ snd r = w) /\
  (~ (sk = true /\ there = true) -> ~ (there = true /\ ov = false) ->
   (exists rest, events (snd r) = events w ++ Ev_fitz_open pdf :: rest) /\
   forall text, fst (extract_text pdf w) = Ok text ->
     (fst r = Ok success -> fs (snd r) !! out = Some (File text)) /\
     (encodable text = true ->
      (forall q, q `prefix_of` parent out -> is_file (fs w) q = false) ->
      is_dir (fs w) out = false ->
      fst r = Ok success /\ fs (snd r) !! out = Some (File text))).
Proof.
  intros Ho. cbv zeta.
  destruct outcomes_distinct as (Hks & Hkf & _).
  split_and!.
  - intros -> Ht. apply (process_file_skips _ _ _ _ _ _ _ Ho). by rewrite Ht.
  - intros Ht ->. apply (process_file_skips _ _ _ _ _ _ _ Ho).
    rewrite Ht. apply orb_true_r.
  - intros Hr.
    destruct ((sk && exists_ (fs w) out) || (exists_ (fs w) out && negb ov))
      eqn:Hs.
    + rewrite (process_file_skips _ _ _ _ _ _ _ Ho Hs). split; [|done].
      apply orb_true_iff in Hs as [[? ?]%andb_true_iff|[? ?%negb_true_iff]%andb_true_iff];
        auto.
    + destruct (process_file_proceeds _ _ _ _ _ _ _ Ho Hs) as (_ & [Hf|Hf] & _);
        rewrite Hf in Hr; injection Hr as Hr; by destruct Hks, Hkf.
  - intros Hn1 Hn2.
    assert ((sk && exists_ (fs w) out) || (exists_ (fs w) out && negb ov)
            = false) as Hs.
    { destruct sk, ov, (exists_ (fs w) out); simpl; try done;
        (by destruct Hn1) || (by destruct Hn2). }
    destruct (process_file_proceeds _ _ _ _ _ _ _ Ho Hs) as ([rest Hev] & _ & Hsucc).
    split.
    { destruct (policy_events_head (fs w) pdf) as [rest' Hhead].
      exists (rest' ++ rest). by rewrite Hev, Hhead. }
    intros text Hext. rewrite extract_text_fst in Hext.
    destruct (policy_text (fs w) pdf) as [e|text'] eqn:Hpol; [done|].
    injection Hext as ->. split.
    + intros Hr. destruct (Hsucc Hr) as (t & [= ->] & ?). done.
    + intros Henc Hfree Hnd.
      destruct (process_file_writes _ _ _ _ _ _ _ _ Ho Hs Hpol Henc Hfree Hnd)
        as (f1 & -> & _). simpl. split; [done|]. apply lookup_insert_eq.
Qed.


(** C10. An item whose extraction raises ends as failed, with the failure
    logged and the file system exactly as it was; in general the worker
    changes the file system only after the extraction has returned a text. *)
Theorem C10_failed_extraction_writes_nothing pdf input output ov sk w :
  let r := process_file (pdf, input, output, ov, sk) w in
  (fs (snd r) <> fs w -> exists text, fst (extract_text pdf w) = Ok text) /\
  (forall e, fst (extract_text pdf w) = Raise e ->
     fs (snd r) = fs w /\
     fst r <> Ok success /\
     forall out, output_path pdf input output = Ok out ->
       (sk && exists_ (fs w) out) || (exists_ (fs w) out && negb ov) = false ->
       fst r = Ok failed /\
       exists called,
         events (snd r) = events w ++ called ++ [Ev_log_failed pdf e]).
Proof.
  cbv zeta.
  assert (forall e, policy_text (fs w) pdf = inl e ->
            fs (snd (process_file (pdf, input, output, ov, sk) w)) = fs w)
    as Hsame.
  { intros e He. rewrite process_file_eq.
    destruct (output_path pdf input output) as [out|e'|c]; [|done..].
    destruct (_ || _); [done|]. by rewrite He. }
  split.
  - intros Hne. rewrite extract_text_fst.
    destruct (policy_text (fs w) pdf) as [e|text] eqn:Hpol; [|eauto].
    by destruct Hne; eapply Hsame.
  - intros e He. rewrite extract_text_fst in He.
    destruct (policy_text (fs w) pdf) as [e'|text] eqn:Hpol; [|done].
    injection He as ->. destruct outcomes_distinct as (Hks & _ & Hsf).
    split_and!; [by eapply Hsame| |].
    + rewrite process_file_eq.
      destruct (output_path pdf input output) as [out|e'|c]; [| |done].
      * destruct (_ || _); simpl; [intros [=]; by try destruct Hks|].
        rewrite Hpol. intros [=]; by try destruct Hsf.
      * intros [=]; by try destruct Hsf.
    + intros out Ho Hs.
      rewrite (process_file_extraction_raises _ _ _ _ _ _ _ _ Ho Hs Hpol).
      simpl. eauto.
Qed.

End Worker.

(** ** The coordinator *)

Lemma completion_order_perm {A} (sched : list nat) (l : list A) :
  completion_order (length l) sched l ≡ₚ l.
Proof.
  remember (length l) as n eqn:Hn. revert sched l Hn.
  induction n as [|n IH]; intros sched l Hn.
  - destruct l; [done|discriminate].
  - cbn [completion_order]. rewrite <- Hn.
    assert (hd 0 sched `mod` S n < length l) as Hlt.
    { rewrite <- Hn. apply Nat.mod_upper_bound. lia. }
    destruct (lookup_lt_is_Some_2 _ _ Hlt) as [x Hx]. rewrite Hx.
    rewrite (delete_Permutation l _ x Hx) at 2. constructor.
    apply IH. rewrite length_delete by eauto. lia.
Qed.

Lemma imap_unordered_perm {A} (sched : list nat) (args : list A) :
  imap_unordered sched args ≡ₚ args.
Proof. apply completion_order_perm. Qed.

Lemma completion_order_fmap {A B} (g : A -> B) n sched (l : list A) :
  completion_order n sched (g <$> l) = g <$> completion_order n sched l.
Proof.
  revert sched l. induction n as [|n IH]; intros sched l; [done|].
  cbn [completion_order]. rewrite length_fmap, list_lookup_fmap.
  destruct (l !! _) as [x|]; [|done]. simpl.
  by rewrite <- list_fmap_delete, IH.
Qed.

Lemma imap_unordered_fmap {A B} (g : A -> B) sched (l : list A) :
  imap_unordered sched (g <$> l) = g <$> imap_unordered sched l.
Proof.
  unfold imap_unordered. by rewrite length_fmap, completion_order_fmap.
Qed.

Lemma counters_lookup s f k :
  counters s f k !! success = Some s /\
  counters s f k !! failed = Some f /\
  counters s f k !! skipped = Some k.
Proof.
  destruct outcomes_distinct as (Hks & Hkf & Hsf). unfold counters.
  split_and!.
  - apply lookup_insert_eq.
  - rewrite lookup_insert_ne by done. apply lookup_insert_eq.
  - rewrite !lookup_insert_ne by done. apply lookup_insert_eq.
Qed.

Lemma dict_incr_counters s f k :
  dict_incr (counters s f k) success = ret (counters (s + 1) f k) /\
  dict_incr (counters s f k) failed = ret (counters s (f + 1) k) /\
  dict_incr (counters s f k) skipped = ret (counters s f (k + 1)).
Proof.
  destruct outcomes_distinct as (Hks & Hkf & Hsf).
  destruct (counters_lookup s f k) as (H1 & H2 & H3).
  unfold dict_incr. rewrite H1, H2, H3. unfold counters.
  split_and!; f_equal; apply map_eq; intros i;
    rewrite !lookup_insert; repeat case_decide; congruence.
Qed.

Lemma count_outcome_cons o x outs :
  count_outcome o (x :: outs)
  = (if decide (x = o) then 1 else 0) + count_outcome o outs.
Proof.
  unfold count_outcome. rewrite filter_cons. by destruct (decide (x = o)).
Qed.

(** Every outcome falls into exactly one of the three classes. *)
Lemma count_outcome_total outs :
  Forall (fun o => o = skipped \/ o = success \/ o = failed) outs ->
  count_outcome success outs + count_outcome skipped outs
  + count_outcome failed outs = length outs.
Proof.
  destruct outcomes_distinct as (Hks & Hkf & Hsf).
  induction 1 as [|o outs Ho Houts IH]; [done|].
  rewrite !count_outcome_cons. simpl.
  destruct Ho as [-> | [-> | ->]]; repeat case_decide; try done; lia.
Qed.

Section Coordinator.

Variable fitz_open : FS -> Path -> Exception + list (Exception + str).
Variable PdfReader : FS -> Path -> Exception + list (Exception + str).

Local Abbreviation process_file := (process_file fitz_open PdfReader).
Local Abbreviation process_directory :=
  (process_directory fitz_open PdfReader).
Local Abbreviation runw := (run_workers fitz_open PdfReader).

Lemma run_workers_outcomes order w :
  length (fst (runw order w)) = length order /\
  Forall (fun o => o = skipped \/ o = success \/ o = failed)
         (fst (runw order w)).
Proof.
  revert w. induction order as [|a order IH]; intros w; [by split|].
  cbn [run_workers].
  destruct (process_file_total fitz_open PdfReader a w) as (o & Ho & Hv).
  destruct (process_file a w) as [r w1]. simpl in Ho. subst r.
  destruct (IH w1) as [Hlen Hall].
  destruct (runw order w1) as [outs w2]. simpl in *.
  split; [by rewrite Hlen|by constructor].
Qed.

Lemma pool_loop order s f k w :
  for_loop order
    (fun results a => result <- process_file a ;; dict_incr results result)
    (counters s f k) w
  = (Ok (counters (s + count_outcome success (fst (runw order w)))
                  (f + count_outcome failed (fst (runw order w)))
                  (k + count_outcome skipped (fst (runw order w)))),
     snd (runw order w)).
Proof.
  destruct outcomes_distinct as (Hks & Hkf & Hsf).
  revert s f k w. induction order as [|a order IH]; intros s f k w.
  - simpl. unfold ret, count_outcome. simpl. by rewrite !Nat.add_0_r.
  - cbn [for_loop run_workers]. rewrite bind_unfold, bind_unfold.
    destruct (process_file_total fitz_open PdfReader a w) as (o & Ho & Hv).
    destruct (process_file a w) as [r w1]. simpl in Ho. subst r.
    destruct (dict_incr_counters s f k) as (Hi1 & Hi2 & Hi3).
    destruct (runw order w1) as [outs w2] eqn:Hrun. cbn [fst snd].
    rewrite !count_outcome_cons.
    destruct Hv as [-> | [-> | ->]].
    + rewrite Hi3. unfold ret at 1. rewrite IH, Hrun. cbn [fst snd].
      repeat case_decide; try done; try congruence.
      do 3 f_equal; lia.
    + rewrite Hi1. unfold ret at 1. rewrite IH, Hrun. cbn [fst snd].
      repeat case_decide; try done; try congruence.
      do 3 f_equal; lia.
    + rewrite Hi2. unfold ret at 1. rewrite IH, Hrun. cbn [fst snd].
      repeat case_decide; try done; try congruence.
      do 3 f_equal; lia.
Qed.

(** The coordinator, step by step. *)
Lemma process_directory_eq sched input output workers ov sk w :
  process_directory sched input output workers ov sk w =
  let pdf_files := rglob_list (fs w) input in
  let total := length pdf_files in
  if total =? 0 then (Ok tt, mkWorld (fs w) (events w ++ [Ev_print_no_pdf]))
  else
    let w0 := mkWorld (fs w)
                (events w ++ [Ev_print_found total; Ev_print_using workers]) in
    if (workers <? 1)%Z then (Raise ValueError, w0)
    else
      let run := runw
                   (imap_unordered sched
                      (map (mk_args input output ov sk) pdf_files)) w0 in
      (Ok tt,
       mkWorld (fs (snd run))
         (events (snd run)
          ++ summary_block total
               (count_outcome success (fst run))
               (count_outcome skipped (fst run))
               (count_outcome failed (fst run)))).
Proof.
  unfold process_directory. rewrite bind_unfold.
  unfold rglob_pdf. cbv zeta.
  destruct (length (rglob_list (fs w) input) =? 0); [done|].
  do 2 (rewrite bind_unfold; cbn [emit fs events]).
  rewrite <- app_assoc. cbn [app].
  rewrite bind_unfold.
  unfold mp_Pool. destruct (workers <? 1)%Z; [done|]. cbn [ret].
  rewrite bind_unfold.
  change (<[success:=0]> (<[failed:=0]> (<[skipped:=0]> ∅)))
    with (counters 0 0 0).
  change (map (fun pdf => (pdf, input, output, ov, sk)))
    with (map (mk_args input output ov sk)).
  rewrite pool_loop. cbn [Nat.add].
  set (run := runw _ _).
  destruct (counters_lookup (count_outcome success (fst run))
              (count_outcome failed (fst run))
              (count_outcome skipped (fst run))) as (H1 & H2 & H3).
  unfold dict_get. rewrite H1, H2, H3.
  repeat (rewrite bind_unfold; cbn [emit ret fs events]).
  unfold emit, summary_block. cbn [fs events]. by rewrite <- !app_assoc.
Qed.

Lemma process_file_events args w :
  exists evs, events (snd (process_file args w)) = events w ++ evs.
Proof.
  destruct args as [[[[pdf input] output] ov] sk].
  rewrite process_file_eq.
  destruct (output_path pdf input output) as [out|e|c];
    [|by eexists|exists []; by rewrite app_nil_r].
  destruct (_ || _); [exists []; by rewrite app_nil_r|].
  destruct (policy_text fitz_open PdfReader (fs w) pdf) as [e|text]; simpl.
  { eexists. by rewrite <- app_assoc. }
  set (w1 := mkWorld _ _).
  pose proof (mkdir_post_holds (parent out) w1) as (Hev & _).
  destruct (mkdir (parent out) true true w1) as [[[]|e|c] w2]; simpl in *.
  - pose proof (write_text_events out text w2) as [Hev2 _].
    destruct (write_text out text w2) as [[[]|e|c] w3]; simpl in *;
      rewrite ?Hev2, Hev; try (by eexists).
    eexists. by rewrite <- app_assoc.
  - rewrite Hev. eexists. by rewrite <- app_assoc.
  - rewrite Hev. by eexists.
Qed.

Lemma run_workers_events order w :
  exists evs, events (snd (runw order w)) = events w ++ evs.
Proof.
  revert w. induction order as [|a order IH]; intros w.
  - exists []. simpl. by rewrite app_nil_r.
  - cbn [run_workers].
    destruct (process_file_events a w) as [evs1 H1].
    destruct (process_file a w) as [r w1]. simpl in H1.
    destruct (IH w1) as [evs2 H2].
    destruct (runw order w1) as [outs w2]. simpl in *.
    exists (evs1 ++ evs2). by rewrite H2, H1, app_assoc.
Qed.

(** The outcomes and the world of [run_workers] are those of the chain of
    worker calls. *)
Lemma run_workers_chain order w :
  worker_chain fitz_open PdfReader order (fst (runw order w)) w
    (snd (runw order w)).
Proof.
  revert w. induction order as [|a order IH]; intros w; [done|].
  cbn [run_workers].
  destruct (process_file_total fitz_open PdfReader a w) as (o & Ho & _).
  destruct (process_file a w) as [r w1] eqn:E. simpl in Ho. subst r.
  specialize (IH w1). destruct (runw order w1) as [outs w2].
  cbn [fst snd worker_chain] in *. exists w1. by rewrite E.
Qed.

Lemma worker_chain_length order outs w w' :
  worker_chain fitz_open PdfReader order outs w w' ->
  length outs = length order.
Proof.
  revert outs w. induction order as [|a order IH]; intros [|o outs] w;
    cbn [worker_chain]; try done.
  intros (w1 & _ & H). simpl. f_equal. by eapply IH.
Qed.

(** A run over a non-empty work list: every item goes through one call of
    the worker, in the order of completion, and the summary counts the
    outcomes of these calls. *)
Lemma process_directory_run sched input output workers ov sk w :
  (1 <= workers)%Z ->
  0 < length (rglob_list (fs w) input) ->
  let pdf_files := rglob_list (fs w) input in
  let total := length pdf_files in
  let r := process_directory sched input output workers ov sk w in
  fst r = Ok tt /\
  exists order outs w',
    order ≡ₚ pdf_files /\
    worker_chain fitz_open PdfReader
      (mk_args input output ov sk <$> order) outs
      (mkWorld (fs w)
         (events w ++ [Ev_print_found total; Ev_print_using workers])) w' /\
    length outs = total /\
    Forall (fun o => o = skipped \/ o = success \/ o = failed) outs /\
    snd r
    = mkWorld (fs w')
        (events w' ++ summary_block total (count_outcome success outs)
                        (count_outcome skipped outs)
                        (count_outcome failed outs)) /\
    total = count_outcome success outs + count_outcome skipped outs
            + count_outcome failed outs.
Proof.
  intros Hw Hne. cbv zeta. rewrite process_directory_eq. cbv zeta.
  destruct (Nat.eqb_spec (length (rglob_list (fs w) input)) 0); [lia|].
  assert ((workers <? 1)%Z = false) as -> by lia.
  split; [done|].
  change (map (mk_args input output ov sk) (rglob_list (fs w) input))
    with (mk_args input output ov sk <$> rglob_list (fs w) input).
  rewrite imap_unordered_fmap.
  set (order := imap_unordered sched (rglob_list (fs w) input)).
  set (w0 := mkWorld (fs w) (events w ++ [Ev_print_found _; _])).
  assert (order ≡ₚ rglob_list (fs w) input) as Hperm
    by apply imap_unordered_perm.
  destruct (run_workers_outcomes (mk_args input output ov sk <$> order) w0)
    as [Hlen Hall].
  rewrite length_fmap, (Permutation_length Hperm) in Hlen.
  exists order, (fst (runw (mk_args input output ov sk <$> order) w0)),
    (snd (runw (mk_args input output ov sk <$> order) w0)).
  split_and!; [done|apply run_workers_chain|done|done|done|].
  rewrite count_outcome_total by done. by rewrite Hlen.
Qed.

(** C1. With a worker count of at least one, a run always completes, and the
    three outcome tags are pairwise different.  On a non-empty work list the
    work items are taken, each once, in the order of completion; every item
    goes through one call of the worker, which returns one of the three
    outcomes; the counters the summary prints are the numbers of calls that
    returned success, skipped and failed, and total, the number of work
    items, is their sum.  On an empty work list a single line is printed and
    no counter is created. *)
Theorem C1_counters_balance sched input output workers ov sk w :
  (1 <= workers)%Z ->
  let pdf_files := rglob_list (fs w) input in
  let total := length pdf_files in
  let r := process_directory sched input output workers ov sk w in
  fst r = Ok tt /\
  (skipped <> success /\ skipped <> failed /\ success <> failed) /\
  (total = 0 ->
   snd r = mkWorld (fs w) (events w ++ [Ev_print_no_pdf])) /\
  (0 < total ->
   exists order outs w',
     order ≡ₚ pdf_files /\
     worker_chain fitz_open PdfReader
       (mk_args input output ov sk <$> order) outs
       (mkWorld (fs w)
          (events w ++ [Ev_print_found total; Ev_print_using workers])) w' /\
     length outs = total /\
     Forall (fun o => o = skipped \/ o = success \/ o = failed) outs /\
     snd r
     = mkWorld (fs w')
         (events w' ++ summary_block total (count_outcome success outs)
                         (count_outcome skipped outs)
                         (count_outcome failed outs)) /\
     total = count_outcome success outs + count_outcome skipped outs
             + count_outcome failed outs).
Proof.
  intros Hw. cbv zeta.
  split.
  { destruct (Nat.eq_dec (length (rglob_list (fs w) input)) 0) as [H0|Hne].
    - rewrite process_directory_eq. cbv zeta. by rewrite H0.
    - by apply process_directory_run; [|lia]. }
  split; [apply outcomes_distinct|]. split.
  - intros H0. rewrite process_directory_eq. cbv zeta. by rewrite H0.
  - intros Hpos.
    by destruct (process_directory_run sched input output workers ov sk w
                   Hw Hpos) as [_ H].
Qed.

(** C6, as amended.  On an empty work list the coordinator prints
    "No PDF files found." and returns: no summary is printed, no pool is
    created (so even a worker count below one is not refused), no engine is
    called and the file system is left as it was. *)
Theorem C6_empty_work_list sched input output workers ov sk w :
  rglob_list (fs w) input = [] ->
  process_directory sched input output workers ov sk w
  = (Ok tt, mkWorld (fs w) (events w ++ [Ev_print_no_pdf])).
Proof. intros H. by rewrite process_directory_eq, H. Qed.

Lemma count_outcome_replicate o o' n :
  count_outcome o (replicate n o') = if decide (o' = o) then n else 0.
Proof.
  induction n as [|n IH]; simpl; [by case_decide|].
  rewrite count_outcome_cons, IH. by case_decide.
Qed.

Lemma run_workers_all_skipped order w :
  (forall a, a ∈ order -> process_file a w = (Ok skipped, w)) ->
  runw order w = (replicate (length order) skipped, w).
Proof.
  induction order as [|a order IH]; intros Hall; [done|].
  cbn [run_workers]. rewrite (Hall a) by apply list_elem_of_here.
  rewrite IH; [done|]. intros a' Ha'. apply Hall. by apply list_elem_of_further.
Qed.

(** C9. A run with [skip_existing] set over a tree in which the output file
    of every work item exists reports every item as skipped (success = 0,
    skipped = total, failed = 0) and leaves every file as it is; no engine is
    called. *)
Theorem C9_repeated_run_skips_everything sched input output workers ov w :
  (1 <= workers)%Z ->
  (forall pdf out,
     pdf ∈ rglob_list (fs w) input ->
     output_path pdf input output = Ok out ->
     exists_ (fs w) out = true) ->
  let total := length (rglob_list (fs w) input) in
  process_directory sched input output workers ov true w
  = (Ok tt,
     mkWorld (fs w)
       (events w ++
        if total =? 0 then [Ev_print_no_pdf]
        else [Ev_print_found total; Ev_print_using workers]
             ++ summary_block total 0 total 0)).
Proof.
  intros Hw Hdone. cbv zeta. rewrite process_directory_eq. cbv zeta.
  destruct (length (rglob_list (fs w) input) =? 0); [done|].
  assert ((workers <? 1)%Z = false) as -> by lia.
  set (order := imap_unordered sched _).
  set (w0 := mkWorld (fs w) (events w ++ [Ev_print_found _; _])).
  assert (length order = length (rglob_list (fs w) input)) as Hlo.
  { unfold order. by rewrite imap_unordered_perm, length_map. }
  rewrite (run_workers_all_skipped order w0).
  - cbn [fst snd]. rewrite !count_outcome_replicate, Hlo.
    destruct outcomes_distinct as (Hks & Hkf & Hsf).
    repeat case_decide; try done. unfold w0. cbn [fs events].
    by rewrite <- app_assoc.
  - intros a Ha. unfold order in Ha. rewrite imap_unordered_perm in Ha.
    apply list_elem_of_fmap in Ha as (pdf & -> & Hpdf).
    destruct (rglob_list_output_path (fs w) input output pdf Hpdf)
      as [out Hout].
    unfold mk_args.
    apply (process_file_skips fitz_open PdfReader _ _ _ _ _ _ out Hout).
    change (fs w0) with (fs w). by rewrite (Hdone pdf out Hpdf Hout).
Qed.

End Coordinator.

(** ** Failure isolation *)

Lemma io_safe_tail f o outs : io_safe f (o :: outs) -> io_safe f outs.
Proof.
  intros (H1 & H2 & H3). split_and!.
  - intros o' q Ho'. apply H1. by apply list_elem_of_further.
  - intros o' Ho'. apply H2. by apply list_elem_of_further.
  - intros o1 o2 Ho1 Ho2. apply H3; by apply list_elem_of_further.
Qed.

Lemma never_skips_tail f o outs ov sk :
  never_skips f (o :: outs) ov sk -> never_skips f outs ov sk.
Proof.
  intros [?|[Hnd Hnew]]; [by left|right].
  apply NoDup_cons in Hnd as [_ Hnd]. split; [done|].
  intros o' Ho'. apply Hnew. by apply list_elem_of_further.
Qed.

Lemma never_skips_head f o outs ov sk :
  never_skips f (o :: outs) ov sk ->
  (sk && exists_ f o) || (exists_ f o && negb ov) = false.
Proof.
  intros [[-> ->]|[_ Hnew]].
  - simpl. apply andb_false_r.
  - rewrite (Hnew o) by apply list_elem_of_here. by rewrite andb_false_r.
Qed.

Lemma prefix_parent_neq (o o' : Path) :
  is_anchor o = false -> o `prefix_of` parent o' -> o' <> o.
Proof.
  intros Hanc Hpre ->. apply prefix_length in Hpre.
  rewrite (parent_length o Hanc) in Hpre. lia.
Qed.

(** Writing one output keeps the remaining outputs writable and new. *)
Lemma io_safe_step f f1 out outs text ov sk :
  io_safe f (out :: outs) -> never_skips f (out :: outs) ov sk ->
  mkdir_changes f f1 (parent out) ->
  io_safe (<[out := File text]> f1) outs
  /\ never_skips (<[out := File text]> f1) outs ov sk.
Proof.
  intros Hsafe Hskip Hch.
  pose proof Hsafe as (H1 & H2 & H3).
  assert (is_anchor out = false) as Hanc.
  { specialize (H2 out (list_elem_of_here _ _)). unfold is_dir in H2.
    by apply orb_false_iff in H2 as [? _]. }
  assert (forall o, o ∈ outs -> o <> out ->
            <[out := File text]> f1 !! o = f !! o) as Hsame.
  { intros o Ho Hne. rewrite lookup_insert_ne by done.
    destruct (Hch o) as [?|(_ & _ & Hpre)]; [done|].
    destruct Hne. apply H3; [by apply list_elem_of_further|
                             apply list_elem_of_here|].
    etrans; [exact Hpre|apply parent_prefix]. }
  split.
  - split_and!.
    + intros o q Ho Hq. unfold is_file.
      destruct (is_anchor q) eqn:Hq_anc; [done|]. simpl.
      destruct (decide (q = out)) as [->|Hne].
      * exfalso. assert (out = o) as <-.
        { apply H3; [apply list_elem_of_here|by apply list_elem_of_further|].
          etrans; [exact Hq|apply parent_prefix]. }
        by eapply prefix_parent_neq.
      * rewrite lookup_insert_ne by done.
        specialize (H1 o q (list_elem_of_further _ _ _ Ho) Hq).
        unfold is_file in H1. rewrite Hq_anc in H1. simpl in H1.
        destruct (Hch q) as [->|(_ & -> & _)]; done.
    + intros o Ho. specialize (H2 o (list_elem_of_further _ _ _ Ho)).
      unfold is_dir in *. apply orb_false_iff in H2 as [-> H2]. simpl.
      apply bool_decide_eq_false_2. apply bool_decide_eq_false_1 in H2.
      destruct (decide (o = out)) as [->|Hne].
      * by rewrite lookup_insert_eq.
      * by rewrite Hsame.
    + intros o1 o2 Ho1 Ho2. apply H3; by apply list_elem_of_further.
  - destruct Hskip as [?|[Hnd Hnew]]; [by left|right].
    apply NoDup_cons in Hnd as [Hnotin Hnd]. split; [done|].
    intros o Ho. assert (o <> out) as Hne by (by intros ->).
    specialize (Hnew o (list_elem_of_further _ _ _ Ho)).
    unfold exists_ in *. apply orb_false_iff in Hnew as [-> Hnew]. simpl.
    by rewrite Hsame.
Qed.

Section Isolation.

Variable fitz_open : FS -> Path -> Exception + list (Exception + str).
Variable PdfReader : FS -> Path -> Exception + list (Exception + str).
Variable input output : Path.
Variable ov sk : bool.
Variable bad : Path.

Local Abbreviation process_file := (process_file fitz_open PdfReader).
Local Abbreviation extract_text := (extract_text fitz_open PdfReader).
Local Abbreviation runw := (run_workers fitz_open PdfReader).

Local Abbreviation due := (due bad).

Lemma run_workers_isolated pdfs w :
  (forall pdf, pdf ∈ pdfs ->
     exists out, output_path pdf input output = Ok out) ->
  (forall w', exists e, fst (extract_text bad w') = Raise e) ->
  (forall pdf w', pdf ∈ pdfs -> pdf <> bad ->
     exists text, fst (extract_text pdf w') = Ok text
                  /\ encodable text = true) ->
  io_safe (fs w) (output_of input output <$> pdfs) ->
  never_skips (fs w) (output_of input output <$> pdfs) ov sk ->
  fst (runw (mk_args input output ov sk <$> pdfs) w) = due <$> pdfs.
Proof.
  intros Hout Hbad Hgood. revert w.
  induction pdfs as [|pdf pdfs IH]; intros w Hsafe Hskip; [done|].
  cbn [fmap list_fmap run_workers] in *.
  destruct (Hout pdf) as [out Ho]; [apply list_elem_of_here|].
  assert (output_of input output pdf = out) as Hof
    by (unfold output_of; by rewrite Ho).
  rewrite Hof in *.
  pose proof (never_skips_head _ _ _ _ _ Hskip) as Hns.
  assert (forall w1,
            io_safe (fs w1) (output_of input output <$> pdfs) ->
            never_skips (fs w1) (output_of input output <$> pdfs) ov sk ->
            fst (runw (mk_args input output ov sk <$> pdfs) w1)
            = due <$> pdfs) as IH'.
  { intros w1. apply IH.
    - intros p Hp. apply Hout. by apply list_elem_of_further.
    - intros p w' Hp. apply Hgood. by apply list_elem_of_further. }
  unfold mk_args at 1, due at 1.
  destruct (decide (pdf = bad)) as [->|Hne].
  - destruct (Hbad w) as [e He]. rewrite extract_text_fst in He.
    destruct (policy_text fitz_open PdfReader (fs w) bad) as [e'|] eqn:Hpol;
      [|done].
    rewrite (process_file_extraction_raises _ _ _ _ _ _ _ _ _ _ Ho Hns Hpol).
    specialize (IH' (mkWorld (fs w)
                       (events w ++ policy_events fitz_open (fs w) bad
                        ++ [Ev_log_failed bad e']))).
    destruct (runw _ _) as [outs w2]. simpl in *. f_equal.
    apply IH'; [by eapply io_safe_tail|by eapply never_skips_tail].
  - destruct (Hgood pdf w) as (text & Ht & Henc);
      [apply list_elem_of_here|done|].
    rewrite extract_text_fst in Ht.
    destruct (policy_text fitz_open PdfReader (fs w) pdf) as [|text'] eqn:Hpol;
      [done|]. injection Ht as ->.
    pose proof Hsafe as (H1 & H2 & _).
    destruct (process_file_writes fitz_open PdfReader _ _ _ _ _ _ _ _ Ho Hns
                Hpol Henc) as (f1 & -> & Hch & _).
    { intros q. apply H1. apply list_elem_of_here. }
    { apply H2. apply list_elem_of_here. }
    destruct (io_safe_step _ _ _ _ text _ _ Hsafe Hskip Hch) as [Hsafe' Hskip'].
    specialize (IH' (mkWorld (<[out := File text]> f1)
                       (events w ++ policy_events fitz_open (fs w) pdf))).
    destruct (runw _ _) as [outs w2]. simpl in *. f_equal.
    by apply IH'.
Qed.

Lemma due_bad : due bad = failed.
Proof. unfold due. by case_decide. Qed.

Lemma due_other pdf : pdf <> bad -> due pdf = success.
Proof. intros H. unfold due. by case_decide. Qed.

Lemma count_due pdfs :
  NoDup pdfs -> bad ∈ pdfs ->
  count_outcome failed (due <$> pdfs) = 1 /\
  count_outcome skipped (due <$> pdfs) = 0 /\
  count_outcome success (due <$> pdfs) = length pdfs - 1.
Proof.
  destruct outcomes_distinct as (Hks & Hkf & Hsf).
  assert (forall l, bad ∉ l ->
            count_outcome failed (due <$> l) = 0 /\
            count_outcome skipped (due <$> l) = 0 /\
            count_outcome success (due <$> l) = length l) as Hnone.
  { induction l as [|p l IH]; intros Hnot; [done|].
    apply not_elem_of_cons in Hnot as [Hne Hnot].
    destruct (IH Hnot) as (E1 & E2 & E3).
    cbn [fmap list_fmap]. rewrite !count_outcome_cons, E1, E2, E3.
    rewrite (due_other p) by done.
    repeat case_decide; try done; try congruence. }
  induction pdfs as [|p pdfs IH]; intros Hnd Hin;
    [by apply elem_of_nil in Hin|].
  apply NoDup_cons in Hnd as [Hnotin Hnd].
  cbn [fmap list_fmap]. rewrite !count_outcome_cons.
  destruct (decide (p = bad)) as [->|Hne].
  - destruct (Hnone pdfs Hnotin) as (-> & -> & ->). rewrite due_bad.
    repeat case_decide; try done; try congruence. simpl. split_and!; lia.
  - apply elem_of_cons in Hin as [->|Hin]; [done|].
    destruct (IH Hnd Hin) as (-> & -> & ->). rewrite (due_other p Hne).
    repeat case_decide; try done; try congruence. simpl.
    assert (length pdfs > 0)
      by (destruct pdfs; [by apply elem_of_nil in Hin|simpl; lia]).
    split_and!; lia.
Qed.

End Isolation.

Lemma rglob_list_NoDup (f : FS) (d : Path) : NoDup (rglob_list f d).
Proof.
  unfold rglob_list. destruct (is_dir f d); [|constructor].
  apply NoDup_filter. apply (NoDup_fst_map_to_list f).
Qed.

Lemma io_safe_perm f outs outs' :
  outs ≡ₚ outs' -> io_safe f outs -> io_safe f outs'.
Proof.
  intros Hp (H1 & H2 & H3). split_and!.
  - intros o q Ho. apply H1. by rewrite Hp.
  - intros o Ho. apply H2. by rewrite Hp.
  - intros o o' Ho Ho'. apply H3; by rewrite Hp.
Qed.

Lemma never_skips_perm f outs outs' ov sk :
  outs ≡ₚ outs' -> never_skips f outs ov sk -> never_skips f outs' ov sk.
Proof.
  intros Hp [?|[Hnd Hnew]]; [by left|right]. split; [by rewrite <- Hp|].
  intros o Ho. apply Hnew. by rewrite Hp.
Qed.

Lemma elem_of_prefixes (q p : Path) : q `prefix_of` p -> q ∈ prefixes p.
Proof.
  intros [k ->]. unfold prefixes. apply list_elem_of_fmap.
  exists (length q). split; [by rewrite take_app_length|].
  apply elem_of_seq. rewrite length_app. lia.
Qed.

Lemma io_safe_b_sound f outs : io_safe_b f outs = true -> io_safe f outs.
Proof.
  unfold io_safe_b. rewrite forallb_forall. intros H. split_and!.
  - intros o q Ho Hq. apply list_elem_of_In in Ho.
    apply H in Ho. apply andb_true_iff in Ho as [Ho _].
    apply andb_true_iff in Ho as [Ho _].
    rewrite forallb_forall in Ho. apply negb_true_iff, Ho.
    by apply list_elem_of_In, elem_of_prefixes.
  - intros o Ho. apply list_elem_of_In in Ho.
    apply H in Ho. apply andb_true_iff in Ho as [Ho _].
    apply andb_true_iff in Ho as [_ Ho]. by apply negb_true_iff.
  - intros o o' Ho Ho'. apply list_elem_of_In in Ho, Ho'.
    apply H in Ho. apply andb_true_iff in Ho as [_ Ho].
    rewrite forallb_forall in Ho. specialize (Ho o' Ho').
    rewrite bool_decide_eq_true in Ho. exact Ho.
Qed.

Lemma all_new_b_sound f outs ov sk :
  all_new_b f outs = true -> never_skips f outs ov sk.
Proof.
  unfold all_new_b. intros [Hnd Hnew]%andb_true_iff. right.
  rewrite bool_decide_eq_true in Hnd. split; [done|].
  intros o Ho. rewrite forallb_forall in Hnew.
  by apply negb_true_iff, Hnew, list_elem_of_In.
Qed.

Section FaultIsolation.

Variable fitz_open : FS -> Path -> Exception + list (Exception + str).
Variable PdfReader : FS -> Path -> Exception + list (Exception + str).

Local Abbreviation process_file := (process_file fitz_open PdfReader).
Local Abbreviation extract_text := (extract_text fitz_open PdfReader).
Local Abbreviation process_directory :=
  (process_directory fitz_open PdfReader).


End FaultIsolation.

(** ** Entry points *)

(** A computation that never ends in [SystemExit]. *)
Lemma no_exit_bind {A B} (m : M A) (k : A -> M B) :
  (forall w c, fst (m w) <> SysExit c) ->
  (forall a w c, fst (k a w) <> SysExit c) ->
  forall w c, fst (bind m k w) <> SysExit c.
Proof.
  intros Hm Hk w c. rewrite bind_unfold. specialize (Hm w).
  destruct (m w) as [[a|e|c'] w1]; simpl in *;
    [apply Hk|done|by destruct (Hm c')].
Qed.

Lemma no_exit_try_except {A} (body : M A) (handler : Exception -> M A) :
  (forall w c, fst (body w) <> SysExit c) ->
  (forall e w c, fst (handler e w) <> SysExit c) ->
  forall w c, fst (try_except body handler w) <> SysExit c.
Proof.
  intros Hb Hh w c. unfold try_except. specialize (Hb w).
  destruct (body w) as [[a|e|c'] w1]; simpl in *;
    [done|apply Hh|by destruct (Hb c')].
Qed.

Lemma no_exit_for_loop {A S} (xs : list A) (body : S -> A -> M S) :
  (forall s x w c, fst (body s x w) <> SysExit c) ->
  forall s w c, fst (for_loop xs body s w) <> SysExit c.
Proof.
  intros Hb. induction xs as [|x xs IH]; intros s w c; [done|].
  cbn [for_loop]. apply no_exit_bind; [apply Hb|]. intros s'. apply IH.
Qed.

Lemma no_exit_lift {A} (r : Result A) :
  (forall c, r <> SysExit c) -> forall w c, fst (lift r w) <> SysExit c.
Proof. intros H w c. apply H. Qed.

(** Opening the log file. *)
Lemma touch_lookup_ne (f : FS) p q : q <> p -> touch f p !! q = f !! q.
Proof.
  intros Hne. unfold touch. destruct (exists_ f p); [done|].
  by rewrite lookup_insert_ne.
Qed.

Lemma is_dir_touch (f : FS) p q : is_dir (touch f p) q = is_dir f q.
Proof.
  unfold touch. destruct (exists_ f p) eqn:He; [done|].
  unfold is_dir. destruct (is_anchor q); [done|]. simpl.
  destruct (decide (q = p)) as [->|Hne].
  - rewrite lookup_insert_eq, (not_exists_lookup _ _ He).
    by rewrite !bool_decide_eq_false_2.
  - by rewrite lookup_insert_ne.
Qed.

Lemma is_file_touch (f : FS) p q :
  q <> p -> is_file (touch f p) q = is_file f q.
Proof. intros Hne. unfold is_file. by rewrite touch_lookup_ne. Qed.

Lemma exists_touch (f : FS) p q :
  q <> p -> exists_ (touch f p) q = exists_ f q.
Proof. intros Hne. unfold exists_. by rewrite touch_lookup_ne. Qed.

Lemma open_log_file w :
  open_a LOG_FILE w
  = if is_dir (fs w) LOG_FILE then (Raise IsADirectoryError, w)
    else (Ok tt, mkWorld (touch (fs w) LOG_FILE) (events w)).
Proof.
  unfold open_a, touch. destruct (is_dir (fs w) LOG_FILE); [done|].
  destruct (exists_ (fs w) LOG_FILE); [by destruct w|].
  assert (parent LOG_FILE = []) as -> by reflexivity. done.
Qed.

Section EntryPoints.

Variable fitz_open : FS -> Path -> Exception + list (Exception + str).
Variable PdfReader : FS -> Path -> Exception + list (Exception + str).
Variable cpu_count : Z.

Local Abbreviation main := (main fitz_open PdfReader cpu_count).
Local Abbreviation interactive_mode :=
  (interactive_mode fitz_open PdfReader cpu_count).
Local Abbreviation legacy := (Legacy.process_directory fitz_open PdfReader).
Local Abbreviation legacy_script := (Legacy.script fitz_open PdfReader).

Lemma extract_text_no_exit p w c :
  fst (extract_text fitz_open PdfReader p w) <> SysExit c.
Proof.
  rewrite extract_text_fst.
  by destruct (policy_text fitz_open PdfReader (fs w) p).
Qed.

Lemma mkdir_no_exit p w c : fst (mkdir p true true w) <> SysExit c.
Proof. by destruct (mkdir_post_holds p w) as (_ & H & _). Qed.

(** On an input root that is an existing directory the sequential script does
    not exit. *)
Lemma legacy_runs input output w c :
  is_dir (fs w) input = true ->
  fst (legacy input output w) <> SysExit c.
Proof.
  intros Hd. unfold Legacy.process_directory.
  rewrite bind_unfold. cbn [path_exists].
  rewrite (is_dir_exists _ _ Hd). cbn [negb].
  rewrite bind_unfold. cbn [path_is_dir]. rewrite Hd. cbn [negb].
  revert c. generalize w. apply no_exit_bind; [apply mkdir_no_exit|].
  intros _. apply no_exit_bind; [done|]. intros pdf_files.
  apply no_exit_bind; [done|]. intros _.
  apply no_exit_bind; [|done].
  apply no_exit_for_loop. intros _ pdf_file.
  apply no_exit_try_except; [|done].
  apply no_exit_bind; [apply extract_text_no_exit|]. intros text.
  apply no_exit_bind; [apply no_exit_lift, relative_to_not_exit|].
  intros relative_path.
  apply no_exit_bind; [apply no_exit_lift, with_suffix_not_exit|].
  intros renamed.
  apply no_exit_bind; [apply mkdir_no_exit|]. intros _ w1 c1.
  apply write_text_events.
Qed.

(** The command-line mode, once the log file is open. *)
Lemma main_command_line sched a input output workers ov sk w :
  is_dir (fs w) LOG_FILE = false ->
  main sched a (mkArgs (Some input) (Some output) workers ov sk false) w
  = let w1 := mkWorld (touch (fs w) LOG_FILE) (events w) in
    if exists_ (fs w1) input
    then (mkdir output true true ;;;
          process_directory fitz_open PdfReader sched input output workers
            ov sk) w1
    else (SysExit 1, mkWorld (fs w1) (events w1 ++ [Ev_print_invalid_input])).
Proof.
  intros Hlog. unfold main, setup_logging.
  rewrite bind_unfold, open_log_file, Hlog.
  cbn [args_interactive args_input args_output args_workers args_overwrite
       args_skip_existing].
  rewrite bind_unfold. cbn [path_exists]. cbv zeta.
  by destruct (exists_ _ input).
Qed.

(** The output root can be made after the log file was opened. *)
Lemma mkdir_after_log output w :
  (forall q, q `prefix_of` output -> is_file (fs w) q = false) ->
  ~ LOG_FILE `prefix_of` output ->
  fst (mkdir output true true (mkWorld (touch (fs w) LOG_FILE) (events w)))
  = Ok tt.
Proof.
  intros Hfree Hlog. apply mkdir_succeeds. intros q Hq. cbn [fs].
  rewrite is_file_touch; [by apply Hfree|]. by intros ->.
Qed.


End EntryPoints.

(** ** Concrete runs of the worker *)

Lemma C4_extract_text_fallback_policy_witness :
  fst (extract_with_pymupdf ex_fitz_short ex_pdf (mkWorld ex_input_tree []))
  = Ok (u "  scan  ") /\
  fst (extract_text ex_fitz_short ex_pypdf ex_pdf (mkWorld ex_input_tree []))
  = Ok (u "from pypdf") /\
  fallback_calls
    (events (snd (extract_text ex_fitz_short ex_pypdf ex_pdf
                    (mkWorld ex_input_tree [])))) = 1.
Proof.
  split; [reflexivity|].
  destruct (C4_extract_text_fallback_policy ex_fitz_short ex_pypdf ex_pdf
              (mkWorld ex_input_tree []) (u "  scan  ") eq_refl)
    as (_ & _ & Hiff & Hshort & _).
  split.
  - rewrite Hshort; [reflexivity|]. vm_compute. lia.
  - apply Hiff. vm_compute. lia.
Defined.

Lemma C2_skip_decision_witness :
  output_path ex_pdf ex_root ex_out = Ok ex_txt /\
  process_file ex_fitz ex_pypdf (ex_pdf, ex_root, ex_out, false, false)
    (mkWorld ex_done_tree [])
  = (Ok skipped, mkWorld ex_done_tree []).
Proof.
  split; [reflexivity|].
  destruct (C2_skip_decision ex_fitz ex_pypdf ex_pdf ex_root ex_out false false
              (mkWorld ex_done_tree []) ex_txt eq_refl) as (_ & H & _).
  apply H; reflexivity.
Defined.



Lemma C10_failed_extraction_writes_nothing_witness :
  fst (extract_text ex_fitz_broken ex_pypdf ex_pdf (mkWorld ex_done_tree []))
  = Raise (LibraryError (u "cannot open broken document")) /\
  fs (snd (process_file ex_fitz_broken ex_pypdf
             (ex_pdf, ex_root, ex_out, true, false) (mkWorld ex_done_tree [])))
  = ex_done_tree /\
  fst (process_file ex_fitz_broken ex_pypdf
         (ex_pdf, ex_root, ex_out, true, false) (mkWorld ex_done_tree []))
  = Ok failed.
Proof.
  split; [reflexivity|].
  destruct (C10_failed_extraction_writes_nothing ex_fitz_broken ex_pypdf
              ex_pdf ex_root ex_out true false (mkWorld ex_done_tree []))
    as [_ H].
  destruct (H (LibraryError (u "cannot open broken document")) eq_refl)
    as (Hfs & _ & Hout).
  split; [exact Hfs|].
  destruct (Hout ex_txt eq_refl eq_refl) as [Hf _]. exact Hf.
Defined.

Lemma C8_output_path_mirrors_tree_witness :
  u "doc" <> [] /\
  is_absolute ([u "a"; u "b"] ++ [u "doc" ++ u ".pdf"]) = false /\
  output_path [u "root"; u "a"; u "b"; u "doc.pdf"] [u "root"] [u "out"]
  = Ok [u "out"; u "a"; u "b"; u "doc.txt"] /\
  exists_ ex_input_tree ex_out = false /\
  fst (process_file ex_fitz ex_pypdf (ex_pdf, ex_root, ex_out, false, false)
         (mkWorld ex_input_tree [])) = Ok success /\
  is_dir (fs (snd (process_file ex_fitz ex_pypdf
                     (ex_pdf, ex_root, ex_out, false, false)
                     (mkWorld ex_input_tree []))))
         [u "out"; u "a"; u "b"] = true /\
  fs (snd (process_file ex_fitz ex_pypdf
             (ex_pdf, ex_root, ex_out, false, false)
             (mkWorld ex_input_tree []))) !! ex_txt = Some (File ex_long).
Proof.
  assert (u "doc" <> []) as H1 by discriminate.
  assert (is_absolute ([u "a"; u "b"] ++ [u "doc" ++ u ".pdf"]) = false)
    as H2 by reflexivity.
  assert (exists_ ex_input_tree ex_out = false) as H3
    by (vm_compute; reflexivity).
  destruct (C8_output_path_mirrors_tree ex_fitz ex_pypdf [u "root"] [u "out"]
              [u "a"; u "b"] (u "doc") false false (mkWorld ex_input_tree [])
              H1 H2) as (Hpath & Hmade & Hsuccess).
  destruct (Hmade ex_long) as [Hfree _];
    [vm_compute; reflexivity|reflexivity|].
  destruct Hfree as (f1 & _ & _ & _ & Hdir & Hwrite).
  { intros q Hq. apply elem_of_prefixes in Hq. vm_compute in Hq.
    repeat (apply elem_of_cons in Hq as [-> | Hq]; [vm_compute; reflexivity|]).
    exfalso. exact (proj1 (elem_of_nil _) Hq). }
  destruct Hwrite as [Hr Hfs]; [reflexivity|vm_compute; reflexivity|].
  split_and!; [exact H1|exact H2|exact Hpath|exact H3|exact Hr|exact Hdir|].
  change (fs (snd (process_file ex_fitz ex_pypdf
                     (ex_pdf, ex_root, ex_out, false, false)
                     (mkWorld ex_input_tree [])))
          = <[ex_txt := File ex_long]> f1) in Hfs.
  rewrite Hfs. apply lookup_insert_eq.
Defined.

(** C8 as the specification states it does not hold for every qualifying
    file: the hidden file [root/a/.pdf] matches "*.pdf" and is listed by the
    resolver, but its name has no suffix for [with_suffix], so ".txt" is
    appended and the output path is [out/a/.pdf.txt], not [out/a/.txt].  Nor
    are the parent directories always created: with a regular file in the
    place of the output root they cannot be made, and the item fails with
    nothing written. *)
Lemma C8_counterexample :
  rglob_list ex_hidden_tree ex_root = [ex_hidden_pdf] /\
  output_path ex_hidden_pdf ex_root ex_out
  = Ok [u "out"; u "a"; u ".pdf.txt"] /\
  output_path ex_hidden_pdf ex_root ex_out <> Ok [u "out"; u "a"; u ".txt"] /\
  is_file ex_blocked_tree ex_out = true /\
  fst (extract_text ex_fitz ex_pypdf ex_pdf (mkWorld ex_blocked_tree []))
  = Ok ex_long /\
  fst (process_file ex_fitz ex_pypdf (ex_pdf, ex_root, ex_out, true, false)
         (mkWorld ex_blocked_tree [])) = Ok failed /\
  fs (snd (process_file ex_fitz ex_pypdf (ex_pdf, ex_root, ex_out, true, false)
             (mkWorld ex_blocked_tree []))) = ex_blocked_tree.
Proof.
  split_and!; [vm_compute; reflexivity..|vm_compute; discriminate| | | |];
    vm_compute; reflexivity.
Qed.

(** ** Concrete runs of the coordinator *)

Lemma C1_counters_balance_witness :
  (1 <= 2)%Z /\
  rglob_list ex_three_tree ex_root = [ex_other_pdf; ex_bad_pdf; ex_pdf] /\
  exists order outs w',
    order ≡ₚ [ex_other_pdf; ex_bad_pdf; ex_pdf] /\
    worker_chain ex_fitz_one_bad ex_pypdf
      (mk_args ex_root ex_out false false <$> order) outs
      (mkWorld ex_three_tree [Ev_print_found 3; Ev_print_using 2]) w' /\
    length outs = 3 /\
    snd (process_directory ex_fitz_one_bad ex_pypdf [2; 0] ex_root ex_out 2
           false false (mkWorld ex_three_tree []))
    = mkWorld (fs w') (events w' ++ summary_block 3 2 0 1) /\
    count_outcome success outs = 2 /\
    count_outcome skipped outs = 0 /\
    count_outcome failed outs = 1.
Proof.
  assert (1 <= 2)%Z as H by lia.
  assert (rglob_list ex_three_tree ex_root
          = [ex_other_pdf; ex_bad_pdf; ex_pdf]) as Hlist
    by (vm_compute; reflexivity).
  assert (events (snd (process_directory ex_fitz_one_bad ex_pypdf [2; 0]
                         ex_root ex_out 2 false false
                         (mkWorld ex_three_tree [])))
          = [Ev_print_found 3; Ev_print_using 2; Ev_fitz_open ex_pdf;
             Ev_fitz_open ex_other_pdf; Ev_fitz_open ex_bad_pdf;
             Ev_log_failed ex_bad_pdf
               (LibraryError (u "cannot open broken document"))]
            ++ summary_block 3 2 0 1) as Hev
    by (vm_compute; reflexivity).
  split_and!; [exact H|exact Hlist|].
  destruct (C1_counters_balance ex_fitz_one_bad ex_pypdf [2; 0] ex_root ex_out
              2 false false (mkWorld ex_three_tree []) H)
    as (_ & _ & _ & Hrun).
  cbn [fs events] in Hrun. rewrite Hlist in Hrun.
  destruct Hrun as (order & outs & w' & H1 & H2 & H3 & _ & H5 & _);
    [simpl; lia|].
  exists order, outs, w'.
  change (length [ex_other_pdf; ex_bad_pdf; ex_pdf]) with 3 in *.
  cbn [app] in H2.
  rewrite H5 in Hev. cbn [events] in Hev.
  apply app_inj_2 in Hev as [_ Hsum]; [|reflexivity].
  injection Hsum as Hs Hk Hf. rewrite Hs, Hk, Hf in H5.
  split_and!; [exact H1|exact H2|exact H3|exact H5|exact Hs|exact Hk|exact Hf].
Defined.

Lemma C6_empty_work_list_witness :
  rglob_list ex_empty_tree ex_root = [] /\
  process_directory ex_fitz ex_pypdf [] ex_root ex_out 0 false false
    (mkWorld ex_empty_tree [])
  = (Ok tt, mkWorld ex_empty_tree [Ev_print_no_pdf]).
Proof.
  assert (rglob_list ex_empty_tree ex_root = []) as H
    by (vm_compute; reflexivity).
  split; [exact H|].
  exact (C6_empty_work_list ex_fitz ex_pypdf [] ex_root ex_out 0 false false
           (mkWorld ex_empty_tree []) H).
Defined.

(** C6 as the specification states it does not hold: on an input directory
    without documents the run prints one line and no summary, so no
    zero-valued summary is produced. *)
Lemma C6_counterexample :
  rglob_list ex_empty_tree ex_root = [] /\
  events (snd (process_directory ex_fitz ex_pypdf [] ex_root ex_out 2 false
                 false (mkWorld ex_empty_tree [])))
  = [Ev_print_no_pdf] /\
  ~ (exists before,
       events (snd (process_directory ex_fitz ex_pypdf [] ex_root ex_out 2
                      false false (mkWorld ex_empty_tree [])))
       = before ++ summary_block 0 0 0 0).
Proof.
  split_and!; [vm_compute; reflexivity..|].
  intros [before H]. vm_compute in H.
  destruct before as [|e [|e' before]]; discriminate.
Qed.

Lemma C9_repeated_run_skips_everything_witness :
  (1 <= 2)%Z /\
  rglob_list ex_done_tree ex_root = [ex_pdf] /\
  exists_ ex_done_tree ex_txt = true /\
  process_directory ex_fitz ex_pypdf [] ex_root ex_out 2 false true
    (mkWorld ex_done_tree [])
  = (Ok tt,
     mkWorld ex_done_tree
       ([Ev_print_found 1; Ev_print_using 2] ++ summary_block 1 0 1 0)).
Proof.
  assert (1 <= 2)%Z as H1 by lia.
  assert (rglob_list ex_done_tree ex_root = [ex_pdf]) as H2
    by (vm_compute; reflexivity).
  assert (exists_ ex_done_tree ex_txt = true) as H3
    by (vm_compute; reflexivity).
  split_and!; [exact H1|exact H2|exact H3|].
  pose proof (C9_repeated_run_skips_everything ex_fitz ex_pypdf [] ex_root
                ex_out 2 false (mkWorld ex_done_tree []) H1) as H.
  cbv zeta in H. cbn [fs events] in H. rewrite H2 in H. apply H.
  intros pdf out Hpdf Hout.
  apply list_elem_of_singleton in Hpdf as ->.
  assert (out = ex_txt) as ->; [|exact H3].
  vm_compute in Hout. by injection Hout as <-.
Defined.



(** ** Concrete runs of the entry points *)



(** * Further properties of the two scripts *)

(** ** What the worker may touch *)

Section WorkerFrame.

Variable fitz_open : FS -> Path -> Exception + list (Exception + str).
Variable PdfReader : FS -> Path -> Exception + list (Exception + str).

Local Abbreviation pfile := (process_file fitz_open PdfReader).

(** Entry by entry: the worker leaves an entry as it is, or writes its output
    file where no directory was, or creates a missing directory above it. *)
Lemma process_file_frame pdf input output ov sk w out :
  output_path pdf input output = Ok out ->
  forall q,
    fs (snd (pfile (pdf, input, output, ov, sk) w)) !! q = fs w !! q
    \/ (q = out /\ fs w !! out <> Some Dir /\
        (sk && exists_ (fs w) out) || (exists_ (fs w) out && negb ov) = false /\
        exists t, fs (snd (pfile (pdf, input, output, ov, sk) w)) !! q
                  = Some (File t))
    \/ (fs w !! q = None /\
        fs (snd (pfile (pdf, input, output, ov, sk) w)) !! q = Some Dir /\
        q `prefix_of` parent out).
Proof.
  intros Ho q. rewrite process_file_eq, Ho.
  destruct ((sk && exists_ (fs w) out) || (exists_ (fs w) out && negb ov))
    eqn:Hs; [by left|].
  destruct (policy_text fitz_open PdfReader (fs w) pdf) as [e|text]; simpl;
    [by left|].
  set (w1 := mkWorld _ _).
  pose proof (mkdir_post_holds (parent out) w1) as (_ & _ & Hch & _).
  assert (forall w2, mkdir_changes (fs w) (fs w2) (parent out) ->
            fs w2 !! q = fs w !! q
            \/ (fs w !! q = None /\ fs w2 !! q = Some Dir
                /\ q `prefix_of` parent out)) as Hdirs.
  { intros w2 H. destruct (H q) as [?|?]; auto. }
  destruct (mkdir (parent out) true true w1) as [[[]|e|c] w2]; simpl in *;
    [|destruct (Hdirs w2 Hch); auto..].
  pose proof (write_text_inv out text w2) as Hinv.
  assert (fs w !! out <> Some Dir -> forall t,
            fs w2 !! q = fs w !! q
            \/ (fs w !! q = None /\ fs w2 !! q = Some Dir
                /\ q `prefix_of` parent out) ->
            <[out := File t]> (fs w2) !! q = fs w !! q
            \/ (q = out /\ fs w !! out <> Some Dir /\ false = false /\
                exists t', <[out := File t]> (fs w2) !! q = Some (File t'))
            \/ (fs w !! q = None /\ <[out := File t]> (fs w2) !! q = Some Dir
                /\ q `prefix_of` parent out)) as Hwrite.
  { intros Hnd t Hq. destruct (decide (q = out)) as [->|Hne].
    - right; left. rewrite lookup_insert_eq. eauto.
    - rewrite lookup_insert_ne by done. destruct Hq; auto. }
  assert (is_dir (fs w2) out = false -> fs w !! out <> Some Dir) as Hnd.
  { intros Hd Hdir. unfold is_dir in Hd. apply orb_false_iff in Hd as [_ Hd].
    apply bool_decide_eq_false_1 in Hd. destruct Hd.
    destruct (Hch out) as [->|(Hn & _)]; [done|congruence]. }
  destruct (write_text out text w2) as [[[]|e|c] w3]; simpl in *.
  - destruct Hinv as [(Hd & _ & [[_ ->]|([=] & _)])|[e [[=] _]]].
    apply Hwrite; auto.
  - destruct Hinv as [(Hd & _ & [[[=] _]|(_ & _ & ->)])|[e' [_ ->]]].
    + apply Hwrite; auto.
    + destruct (Hdirs w2 Hch); auto.
  - destruct Hinv as [(Hd & _ & [[[=] _]|([=] & _)])|[e' [[=] _]]].
Qed.

(** When no output path can be formed the worker changes no file. *)
Lemma process_file_no_output pdf input output ov sk w e :
  output_path pdf input output = Raise e ->
  pfile (pdf, input, output, ov, sk) w
  = (Ok failed, mkWorld (fs w) (events w ++ [Ev_log_failed pdf e])).
Proof. intros Ho. by rewrite process_file_eq, Ho. Qed.

(** The worker never replaces a directory. *)
Lemma process_file_keeps_dir args w q :
  fs w !! q = Some Dir -> fs (snd (pfile args w)) !! q = Some Dir.
Proof.
  destruct args as [[[[pdf input] output] ov] sk]. intros Hq.
  destruct (output_path pdf input output) as [out|e|c] eqn:Ho.
  - destruct (process_file_frame _ _ _ ov sk w _ Ho q)
      as [->|[(-> & Hnd & _)|(Hn & _)]]; [done|done|congruence].
  - by rewrite (process_file_no_output _ _ _ _ _ _ _ Ho).
  - by destruct (output_path_not_exit pdf input output c).
Qed.

(** Without [overwrite], or with [skip_existing], the worker changes no
    entry that exists. *)
Lemma process_file_keeps_entry pdf input output ov sk w q n :
  ov = false \/ sk = true ->
  fs w !! q = Some n ->
  fs (snd (pfile (pdf, input, output, ov, sk) w)) !! q = Some n.
Proof.
  intros Hflags Hq.
  destruct (output_path pdf input output) as [out|e|c] eqn:Ho.
  - destruct (process_file_frame _ _ _ ov sk w _ Ho q)
      as [->|[(-> & _ & Hs & _)|(Hn & _)]]; [done| |congruence].
    assert (exists_ (fs w) out = true) as Hex.
    { unfold exists_. rewrite Hq.
      rewrite (bool_decide_eq_true_2 (is_Some (Some n))) by eauto.
      apply orb_true_r. }
    rewrite Hex in Hs. destruct Hflags as [-> | ->]; simpl in Hs.
    + by rewrite orb_true_r in Hs.
    + done.
  - by rewrite (process_file_no_output _ _ _ _ _ _ _ Ho).
  - by destruct (output_path_not_exit pdf input output c).
Qed.

End WorkerFrame.

(** ** Output names *)

Lemma startswith_app (p s : str) : startswith (p ++ s) p = true.
Proof.
  induction p as [|c p IH]; simpl; [by destruct s|].
  by rewrite N.eqb_refl.
Qed.

Lemma endswith_app (pre s : str) : endswith (pre ++ s) s = true.
Proof. unfold endswith. rewrite rev_app_distr. apply startswith_app. Qed.

Lemma with_suffix_name (p renamed : Path) :
  with_suffix p (u ".txt") = Ok renamed ->
  exists stem, renamed = removelast p ++ [stem ++ u ".txt"].
Proof.
  unfold with_suffix.
  destruct (bool_decide (slash ∈ u ".txt")); [done|].
  destruct (_ || _); [done|].
  destruct (bool_decide (name p = [])); [done|].
  destruct (bool_decide (suffix p = [])); intros [= <-]; eauto.
Qed.

(** The name of an output path ends in ".txt". *)
Lemma output_path_name pdf input output out :
  output_path pdf input output = Ok out ->
  endswith (name out) (u ".txt") = true.
Proof.
  unfold output_path.
  destruct (relative_to pdf input) as [rel|e|c]; [|done..].
  destruct (with_suffix rel (u ".txt")) as [renamed|e|c] eqn:Hw; [|done..].
  destruct (with_suffix_name _ _ Hw) as [stem ->]. intros [= <-].
  assert (stem ++ u ".txt" <> [slash]) as Hns.
  { intros H. apply (f_equal length) in H. rewrite length_app in H.
    simpl in H. lia. }
  unfold joinpath. destruct (is_absolute _).
  - rewrite name_snoc by done. apply endswith_app.
  - rewrite app_assoc, name_snoc by done. apply endswith_app.
Qed.

Lemma pdf_name_not_txt (n : str) :
  fnmatch_pdf n = true -> endswith n (u ".txt") = true -> False.
Proof.
  unfold fnmatch_pdf, endswith. destruct (rev n) as [|c r]; [done|].
  change (rev (u ".pdf")) with ([102; 100; 112; 46]%N : str).
  change (rev (u ".txt")) with ([116; 120; 116; 46]%N : str).
  cbn [startswith]. intros [H1 _]%andb_true_iff [H2 _]%andb_true_iff.
  apply N.eqb_eq in H1, H2. congruence.
Qed.

Lemma rglob_list_elem (f : FS) (d p : Path) :
  p ∈ rglob_list f d ->
  is_Some (f !! p) /\ below d p = true /\ fnmatch_pdf (name p) = true.
Proof.
  unfold rglob_list. destruct (is_dir f d); [|by intros ?%elem_of_nil].
  intros [Hp Hin]%list_elem_of_filter.
  apply Is_true_true, andb_true_iff in Hp as [? ?]. split_and!; [|done..].
  apply list_elem_of_fmap in Hin as ([p' n] & -> & Hin).
  apply elem_of_map_to_list in Hin. simpl. eauto.
Qed.

Section Resolver.

Variable f : FS.
Variable input output : Path.

(** X1. Path arithmetic never fails for a document the resolver lists, the
    name of its output path ends in ".txt", and no output path is itself a
    listed document. *)
Theorem resolved_outputs_are_not_inputs pdf :
  pdf ∈ rglob_list f input ->
  exists out,
    output_path pdf input output = Ok out /\
    endswith (name out) (u ".txt") = true /\
    out ∉ rglob_list f input.
Proof.
  intros Hpdf.
  destruct (rglob_list_output_path f input output pdf Hpdf) as [out Ho].
  pose proof (output_path_name _ _ _ _ Ho) as Htxt.
  exists out. split_and!; [done..|].
  intros (_ & _ & Hpdf')%rglob_list_elem.
  by eapply pdf_name_not_txt.
Qed.

End Resolver.

(** ** What a run may touch *)

Section RunFrame.

Variable fitz_open : FS -> Path -> Exception + list (Exception + str).
Variable PdfReader : FS -> Path -> Exception + list (Exception + str).

Local Abbreviation pfile := (process_file fitz_open PdfReader).
Local Abbreviation runw := (run_workers fitz_open PdfReader).
Local Abbreviation pdir := (process_directory fitz_open PdfReader).

(** A relation between file systems that every worker call respects is
    respected by the pool, and by the run. *)
Lemma run_workers_related (R : relation FS) order w :
  (forall f, R f f) ->
  (forall f1 f2 f3, R f1 f2 -> R f2 f3 -> R f1 f3) ->
  (forall a w', a ∈ order -> R (fs w') (fs (snd (pfile a w')))) ->
  R (fs w) (fs (snd (runw order w))).
Proof.
  intros Hrefl Htrans.
  revert w. induction order as [|a order IH]; intros w Hstep; [apply Hrefl|].
  cbn [run_workers].
  pose proof (Hstep a w (list_elem_of_here _ _)) as H1.
  destruct (pfile a w) as [r w1]. simpl in H1.
  assert (R (fs w1) (fs (snd (runw order w1)))) as H2.
  { apply IH. intros a' w' Ha'. apply Hstep. by apply list_elem_of_further. }
  destruct (runw order w1) as [outs w2]. simpl in *. by eapply Htrans.
Qed.

Lemma process_directory_related (R : relation FS)
    sched input output workers ov sk w :
  (forall f, R f f) ->
  (forall f1 f2 f3, R f1 f2 -> R f2 f3 -> R f1 f3) ->
  (forall pdf w', pdf ∈ rglob_list (fs w) input ->
     R (fs w') (fs (snd (pfile (pdf, input, output, ov, sk) w')))) ->
  R (fs w) (fs (snd (pdir sched input output workers ov sk w))).
Proof.
  intros Hrefl Htrans Hstep. rewrite process_directory_eq. cbv zeta.
  destruct (_ =? 0); [apply Hrefl|]. destruct (_ <? _)%Z; [apply Hrefl|].
  cbn [snd fs].
  set (w0 := mkWorld (fs w) (events w ++ [Ev_print_found _; _])).
  change (fs w) with (fs w0) at 1. apply run_workers_related; [done..|].
  intros a w' Ha. rewrite imap_unordered_perm in Ha.
  apply list_elem_of_fmap in Ha as (pdf & -> & Hpdf). by apply Hstep.
Qed.

Lemma process_directory_keeps_others sched input output workers ov sk w q n :
  fs w !! q = Some n -> q ∉ outputs (fs w) input output ->
  fs (snd (pdir sched input output workers ov sk w)) !! q = Some n.
Proof.
  intros Hq Hnot. revert Hq.
  apply (process_directory_related
           (fun f f' => f !! q = Some n -> f' !! q = Some n)).
  - by intros ?.
  - intros f1 f2 f3 H12 H23 ?. auto.
  - intros pdf w' Hpdf Hq.
    destruct (rglob_list_output_path (fs w) input output pdf Hpdf)
      as [out Ho].
    destruct (process_file_frame fitz_open PdfReader _ _ _ ov sk w' _ Ho q)
      as [->|[(-> & _)|(Hn & _)]]; [done| |congruence].
    destruct Hnot. unfold outputs. apply list_elem_of_fmap.
    exists pdf. split; [|done]. unfold output_of. by rewrite Ho.
Qed.

(** X2. What a run may touch.  The log file apart, every entry of the file
    system is after the run what it was before, unless it is the output path
    of a listed document, or it was missing, lies on the way to the output
    path of a listed document and is a directory now.  This holds for every
    schedule and every setting of the flags; in particular every listed
    document is left as it was. *)
Theorem run_changes_only_outputs sched input output workers ov sk w :
  let r := pdir sched input output workers ov sk w in
  (forall q, q <> LOG_FILE ->
     fs (snd r) !! q = fs w !! q
     \/ q ∈ outputs (fs w) input output
     \/ (fs w !! q = None /\ fs (snd r) !! q = Some Dir /\
         exists out, out ∈ outputs (fs w) input output
                     /\ q `prefix_of` parent out)) /\
  (forall pdf, pdf ∈ rglob_list (fs w) input ->
     fs (snd r) !! pdf = fs w !! pdf).
Proof.
  cbv zeta. split.
  - intros q _.
    apply (process_directory_related
             (fun f f' =>
                f' !! q = f !! q
                \/ q ∈ outputs (fs w) input output
                \/ (f !! q = None /\ f' !! q = Some Dir /\
                    exists out, out ∈ outputs (fs w) input output
                                /\ q `prefix_of` parent out))).
    + by left.
    + intros f1 f2 f3 [H12|[?|(Hn & Hd & Hout)]] [H23|[?|(Hn' & Hd' & Hout')]];
        first [ by auto
              | left; congruence
              | right; right; rewrite <- H12; by auto
              | right; right; rewrite H23; by auto
              | congruence ].
    + intros pdf w' Hpdf.
      destruct (rglob_list_output_path (fs w) input output pdf Hpdf)
        as [out Ho].
      assert (out ∈ outputs (fs w) input output) as Hin.
      { unfold outputs. apply list_elem_of_fmap.
        exists pdf. split; [|done]. unfold output_of. by rewrite Ho. }
      destruct (process_file_frame fitz_open PdfReader _ _ _ ov sk w' _ Ho q)
        as [?|[(-> & _)|(Hn & Hd & Hpre)]]; eauto 8.
  - intros pdf Hpdf.
    destruct (rglob_list_elem _ _ _ Hpdf) as ([n Hn] & _ & Hname).
    rewrite Hn. apply process_directory_keeps_others; [done|].
    unfold outputs. intros (pdf' & Hout & Hpdf')%list_elem_of_fmap.
    destruct (rglob_list_output_path (fs w) input output pdf' Hpdf')
      as [out Ho].
    unfold output_of in Hout. rewrite Ho in Hout. subst out.
    apply output_path_name in Ho. by eapply pdf_name_not_txt.
Qed.

(** X3. Without [overwrite], or with [skip_existing], a run never changes an
    entry that exists: whatever was in the file system before the run, the
    log file apart, is there, unchanged, after it. *)
Theorem run_without_overwrite_keeps_files sched input output workers ov sk w :
  ov = false \/ sk = true ->
  forall q n,
    q <> LOG_FILE ->
    fs w !! q = Some n ->
    fs (snd (process_directory fitz_open PdfReader sched input output workers
               ov sk w)) !! q = Some n.
Proof.
  intros Hflags q n _.
  apply (process_directory_related
           (fun f f' => f !! q = Some n -> f' !! q = Some n)).
  - by intros ?.
  - intros f1 f2 f3 H12 H23 ?. auto.
  - intros pdf w' _. by apply process_file_keeps_entry.
Qed.

(** X4. A run never removes or replaces a directory, and it keeps a file
    system that is a tree a tree. *)
Theorem run_keeps_directories sched input output workers ov sk w :
  let r := pdir sched input output workers ov sk w in
  (forall q, is_dir (fs w) q = true -> is_dir (fs (snd r)) q = true) /\
  (wf_fs (fs w) -> wf_fs (fs (snd r))).
Proof.
  cbv zeta. split.
  - intros q. unfold is_dir. destruct (is_anchor q); [done|]. simpl.
    rewrite !bool_decide_eq_true.
    apply (process_directory_related
             (fun f f' => f !! q = Some Dir -> f' !! q = Some Dir)).
    + by intros ?.
    + intros f1 f2 f3 H12 H23 ?. auto.
    + intros pdf w' _. apply process_file_keeps_dir.
  - apply (process_directory_related (fun f f' => wf_fs f -> wf_fs f')).
    + by intros ?.
    + intros f1 f2 f3 H12 H23 ?. auto.
    + intros pdf w' _. apply process_file_wf.
Qed.

End RunFrame.

(** ** Edge cases of the worker *)

Section WorkerEdges.

Variable fitz_open : FS -> Path -> Exception + list (Exception + str).
Variable PdfReader : FS -> Path -> Exception + list (Exception + str).

Local Abbreviation pfile := (process_file fitz_open PdfReader).

Lemma strip_prefix_self (p : Path) : strip_prefix p p = Some [].
Proof. rewrite <- (app_nil_r p) at 1. apply strip_prefix_app. Qed.

(** X5. A path that does not lie below the input root, or that is the input
    root itself, has no output path: [relative_to] or [with_suffix] raises
    ValueError, which the worker turns into the outcome failed; it logs the
    error, calls no engine and touches no file. *)
Theorem process_file_outside_input_root pdf input output ov sk w :
  strip_prefix pdf input = None \/ pdf = input ->
  pfile (pdf, input, output, ov, sk) w
  = (Ok failed, mkWorld (fs w) (events w ++ [Ev_log_failed pdf ValueError])).
Proof.
  intros Hout. apply process_file_no_output.
  unfold output_path, relative_to.
  destruct (negb _); [done|].
  destruct Hout as [-> | ->]; [done|].
  by rewrite strip_prefix_self.
Qed.

(** X6. After a success the same item, tried again without [overwrite], is
    skipped, and the second attempt changes nothing. *)
Theorem process_file_again_is_skipped pdf input output sk sk' w :
  let r := pfile (pdf, input, output, false, sk) w in
  fst r = Ok success ->
  pfile (pdf, input, output, false, sk') (snd r) = (Ok skipped, snd r).
Proof.
  cbv zeta. intros Hsucc.
  destruct (output_path pdf input output) as [out|e|c] eqn:Ho.
  - apply (process_file_skips _ _ _ _ _ _ _ _ out Ho).
    assert (exists_ (fs (snd (pfile (pdf, input, output, false, sk) w))) out
            = true) as ->; [|by destruct sk'].
    destruct ((sk && exists_ (fs w) out) || (exists_ (fs w) out && negb false))
      eqn:Hs.
    + rewrite (process_file_skips _ _ _ _ _ _ _ _ out Ho Hs) in Hsucc.
      destruct outcomes_distinct as (Hks & _). simpl in Hsucc.
      injection Hsucc as Hsucc. by destruct Hks.
    + destruct (process_file_proceeds fitz_open PdfReader _ _ _ _ _ _ _ Ho Hs)
        as (_ & _ & H).
      destruct (H Hsucc) as (text & _ & Hfile).
      unfold exists_. rewrite Hfile.
      rewrite (bool_decide_eq_true_2 (is_Some _)) by eauto.
      apply orb_true_r.
  - rewrite process_file_eq, Ho in Hsucc. simpl in Hsucc.
    destruct outcomes_distinct as (_ & _ & Hsf).
    injection Hsucc as Hsucc. by destruct Hsf.
  - by destruct (output_path_not_exit pdf input output c).
Qed.

End WorkerEdges.

(** ** How often the engines are called *)

Section Calls.

Variable fitz_open : FS -> Path -> Exception + list (Exception + str).
Variable PdfReader : FS -> Path -> Exception + list (Exception + str).

Local Abbreviation pfile := (process_file fitz_open PdfReader).
Local Abbreviation runw := (run_workers fitz_open PdfReader).
Local Abbreviation pdir := (process_directory fitz_open PdfReader).

Lemma policy_events_calls f pdf :
  primary_calls (policy_events fitz_open f pdf) = 1 /\
  fallback_calls (policy_events fitz_open f pdf) <= 1.
Proof.
  unfold policy_events. destruct (pymupdf_text fitz_open f pdf);
    [cbn; lia|]. destruct (_ <? _); cbn; lia.
Qed.

(** One worker call: the primary engine is called once unless the item is
    skipped, the fallback engine at most once and only then. *)
Lemma process_file_calls pdf input output ov sk w out :
  output_path pdf input output = Ok out ->
  let r := pfile (pdf, input, output, ov, sk) w in
  let worked := match fst r with
                | Ok o => if decide (o = skipped) then 0 else 1
                | _ => 1
                end in
  primary_calls (events (snd r)) = primary_calls (events w) + worked /\
  fallback_calls (events (snd r)) <= fallback_calls (events w) + worked.
Proof.
  intros Ho. cbv zeta.
  destruct outcomes_distinct as (Hks & Hkf & Hsf).
  destruct (policy_events_calls (fs w) pdf) as [Hp Hf].
  rewrite process_file_eq, Ho.
  destruct (_ || _); [simpl; case_decide; [lia|done]|].
  assert (forall e : Exception,
            primary_calls [Ev_log_failed pdf e] = 0
            /\ fallback_calls [Ev_log_failed pdf e] = 0) as Hlog by done.
  destruct (policy_text fitz_open PdfReader (fs w) pdf) as [e|text]; simpl.
  { case_decide as Hd; [by destruct Hkf|].
    rewrite !primary_calls_app, !fallback_calls_app.
    destruct (Hlog e) as [-> ->]. lia. }
  set (w1 := mkWorld _ _).
  pose proof (mkdir_post_holds (parent out) w1) as (Hev & Hx & _).
  destruct (mkdir (parent out) true true w1) as [[[]|e|c] w2]; simpl in *;
    [| |by destruct (Hx c)].
  - pose proof (write_text_events out text w2) as [Hev2 Hx2].
    destruct (write_text out text w2) as [[[]|e|c] w3]; simpl in *;
      [| |by destruct (Hx2 c)].
    + case_decide as Hd; [by destruct Hks|].
      rewrite Hev2, Hev, primary_calls_app, fallback_calls_app. lia.
    + case_decide as Hd; [by destruct Hkf|].
      rewrite Hev2, Hev, !primary_calls_app, !fallback_calls_app.
      destruct (Hlog e) as [-> ->]. lia.
  - case_decide as Hd; [by destruct Hkf|].
    rewrite Hev, !primary_calls_app, !fallback_calls_app.
    destruct (Hlog e) as [-> ->]. lia.
Qed.

Lemma run_workers_calls input output ov sk pdfs w :
  (forall pdf, pdf ∈ pdfs ->
     exists out, output_path pdf input output = Ok out) ->
  let run := runw (mk_args input output ov sk <$> pdfs) w in
  primary_calls (events (snd run))
  = primary_calls (events w) + count_outcome success (fst run)
    + count_outcome failed (fst run) /\
  fallback_calls (events (snd run))
  <= fallback_calls (events w) + count_outcome success (fst run)
     + count_outcome failed (fst run).
Proof.
  destruct outcomes_distinct as (Hks & Hkf & Hsf).
  revert w. induction pdfs as [|pdf pdfs IH]; intros w Hout; cbv zeta.
  { cbn. unfold count_outcome. simpl. lia. }
  cbn [fmap list_fmap run_workers].
  destruct (Hout pdf (list_elem_of_here _ _)) as [out Ho].
  pose proof (process_file_calls pdf input output ov sk w out Ho) as Hc.
  cbv zeta in Hc.
  change (mk_args input output ov sk pdf) with (pdf, input, output, ov, sk).
  destruct (process_file_total fitz_open PdfReader
              (pdf, input, output, ov, sk) w) as (o & Hfst & Hval).
  destruct (pfile (pdf, input, output, ov, sk) w) as [r w1].
  simpl in Hfst, Hc. subst r.
  specialize (IH w1). cbv zeta in IH.
  destruct IH as [IH1 IH2].
  { intros p Hp. apply Hout. by apply list_elem_of_further. }
  destruct (runw (mk_args input output ov sk <$> pdfs) w1) as [outs w2].
  cbn [fst snd] in *. rewrite !count_outcome_cons.
  destruct Hc as [Hc1 Hc2].
  destruct Hval as [-> | [-> | ->]]; repeat case_decide; simplify_eq; lia.
Qed.

(** X7. In a run the primary engine is called exactly once for every item
    that is not skipped, so success + failed times in all, and the fallback
    engine at most as often. *)
Theorem run_calls_engines_once_per_item sched input output workers ov sk w :
  (1 <= workers)%Z ->
  0 < length (rglob_list (fs w) input) ->
  let r := pdir sched input output workers ov sk w in
  exists before n_success n_skipped n_failed,
    events (snd r)
    = before ++ summary_block (length (rglob_list (fs w) input))
                  n_success n_skipped n_failed /\
    primary_calls (events (snd r))
    = primary_calls (events w) + n_success + n_failed /\
    fallback_calls (events (snd r))
    <= fallback_calls (events w) + n_success + n_failed.
Proof.
  intros Hw Hn. cbv zeta. rewrite process_directory_eq. cbv zeta.
  destruct (Nat.eqb_spec (length (rglob_list (fs w) input)) 0); [lia|].
  assert ((workers <? 1)%Z = false) as -> by lia.
  change (map (mk_args input output ov sk) (rglob_list (fs w) input))
    with (mk_args input output ov sk <$> rglob_list (fs w) input).
  rewrite imap_unordered_fmap.
  set (pdfs := imap_unordered sched (rglob_list (fs w) input)).
  set (w0 := mkWorld (fs w) (events w ++ [Ev_print_found _; _])).
  destruct (run_workers_calls input output ov sk pdfs w0) as [H1 H2].
  { intros pdf Hpdf. unfold pdfs in Hpdf. rewrite imap_unordered_perm in Hpdf.
    by eapply rglob_list_output_path. }
  cbv zeta in H1, H2.
  set (run := runw (mk_args input output ov sk <$> pdfs) w0) in *.
  eexists _, _, _, _. cbn [snd events]. split; [reflexivity|].
  rewrite primary_calls_app, fallback_calls_app, H1.
  assert (primary_calls (events w0) = primary_calls (events w)) as ->.
  { unfold w0. cbn [events]. rewrite primary_calls_app. cbn. lia. }
  assert (fallback_calls (events w0) = fallback_calls (events w)) as Hf0.
  { unfold w0. cbn [events]. rewrite fallback_calls_app. cbn. lia. }
  rewrite Hf0 in H2. cbn. lia.
Qed.

End Calls.

(** ** The engines and the threshold *)

Lemma lstrip_spaces (ws s : str) :
  forallb isspace ws = true -> lstrip (ws ++ s) = lstrip s.
Proof.
  induction ws as [|c ws IH]; [done|]. simpl.
  intros [-> Hws]%andb_true_iff. auto.
Qed.

Lemma lstrip_all_spaces (ws : str) : forallb isspace ws = true -> lstrip ws = [].
Proof.
  intros H. rewrite <- (app_nil_r ws). by rewrite lstrip_spaces.
Qed.

Lemma forallb_rev {A} (P : A -> bool) (l : list A) :
  forallb P (rev l) = forallb P l.
Proof.
  induction l as [|x l IH]; [done|]. simpl.
  rewrite forallb_app, IH. simpl. rewrite andb_true_r. apply andb_comm.
Qed.

(** [strip] removes the white space around a core that neither begins nor
    ends with white space, and nothing else. *)
Lemma strip_padded (l core r : str) :
  forallb isspace l = true -> forallb isspace r = true ->
  (forall c rest, core = c :: rest -> isspace c = false) ->
  (forall c front, core = front ++ [c] -> isspace c = false) ->
  strip (l ++ core ++ r) = core.
Proof.
  intros Hl Hr Hfirst Hlast. unfold strip, rstrip.
  rewrite !rev_app_distr, <- app_assoc.
  rewrite lstrip_spaces by (by rewrite forallb_rev).
  destruct core as [|c rest] using rev_ind.
  - simpl. by rewrite (lstrip_all_spaces (rev l)) by (by rewrite forallb_rev).
  - clear IHrest. rewrite rev_app_distr. simpl.
    rewrite (Hlast c rest eq_refl). simpl.
    rewrite rev_app_distr, !rev_involutive. simpl. rewrite <- app_assoc.
    rewrite lstrip_spaces by done.
    destruct (rest ++ [c]) as [|c' rest'] eqn:E.
    + by destruct rest.
    + simpl. by rewrite (Hfirst c' rest' eq_refl).
Qed.

Lemma gather_append {A} (ts : list A) (acc : list A) :
  gather (inr <$> ts) (fun chunks t => chunks ++ [t]) acc
  = inr (B:=list A) (A:=Exception) (acc ++ ts).
Proof.
  revert acc. induction ts as [|t ts IH]; intros acc; simpl.
  - by rewrite app_nil_r.
  - rewrite IH. by rewrite <- app_assoc.
Qed.

Lemma gather_concat (ts : list str) (acc : str) :
  gather (inr <$> ts)
    (fun text t => if bool_decide (t = []) then text else text ++ t) acc
  = inr (A:=Exception) (acc ++ concat ts).
Proof.
  revert acc. induction ts as [|t ts IH]; intros acc; simpl.
  - by rewrite app_nil_r.
  - rewrite IH. case_bool_decide as Ht.
    + by rewrite Ht.
    + by rewrite <- app_assoc.
Qed.

Lemma gather_first_failure {A S} (ts : list A) e rest (g : S -> A -> S) acc :
  gather ((inr <$> ts) ++ inl e :: rest) g acc = inl e.
Proof. revert acc. induction ts as [|t ts IH]; intros acc; simpl; auto. Qed.

Lemma join_length (sep : str) (ts : list str) :
  length (join sep ts)
  = length (concat ts) + length sep * (length ts - 1).
Proof.
  induction ts as [|t [|t' ts] IH];
    [simpl; lia|simpl; rewrite app_nil_r; lia|].
  change (join sep (t :: t' :: ts)) with (t ++ sep ++ join sep (t' :: ts)).
  change (concat (t :: t' :: ts)) with (t ++ concat (t' :: ts)).
  rewrite !length_app, IH. simpl length. nia.
Qed.

Lemma join_spaces (sep : str) (ts : list str) :
  forallb isspace sep = true ->
  Forall (fun t => forallb isspace t = true) ts ->
  forallb isspace (join sep ts) = true.
Proof.
  intros Hsep. induction 1 as [|t ts Ht Hts IH]; [done|].
  destruct ts as [|t' ts]; [done|].
  change (join sep (t :: t' :: ts)) with (t ++ sep ++ join sep (t' :: ts)).
  rewrite !forallb_app, Ht, Hsep. simpl. exact IH.
Qed.

Section Engines.

Variable fitz_open : FS -> Path -> Exception + list (Exception + str).
Variable PdfReader : FS -> Path -> Exception + list (Exception + str).

Local Abbreviation primary := (extract_with_pymupdf fitz_open).
Local Abbreviation secondary := (extract_with_pypdf PdfReader).
Local Abbreviation policy := (extract_text fitz_open PdfReader).

(** X8. The primary engine joins the page texts with a newline, the fallback
    engine concatenates them directly: on the same page texts the primary
    text is longer by one character per page boundary. *)
Theorem engines_join_pages_differently p w (ts : list str) :
  fitz_open (fs w) p = inr (inr <$> ts) ->
  PdfReader (fs w) p = inr (inr <$> ts) ->
  fst (primary p w) = Ok (join [10%N] ts) /\
  fst (secondary p w) = Ok (concat ts) /\
  len (join [10%N] ts) = len (concat ts) + (length ts - 1).
Proof.
  intros Hf Hp. rewrite extract_with_pymupdf_eq, extract_with_pypdf_eq.
  unfold pymupdf_text, pypdf_text. rewrite Hf, Hp.
  rewrite gather_append, gather_concat. simpl. split_and!; [done..|].
  unfold len. rewrite join_length. simpl. lia.
Qed.

(** X9. An engine gives up at the first page that raises: the exception of
    that page is the result, whatever the pages before it returned and
    whatever the pages after it would do; an exception on opening the
    document is the result as well. *)
Theorem engines_raise_first_page_failure p w (ts : list str) e rest :
  (fitz_open (fs w) p = inr ((inr <$> ts) ++ inl e :: rest)
   \/ fitz_open (fs w) p = inl e ->
   fst (extract_with_pymupdf fitz_open p w) = Raise e /\
   fst (extract_text fitz_open PdfReader p w) = Raise e) /\
  (PdfReader (fs w) p = inr ((inr <$> ts) ++ inl e :: rest)
   \/ PdfReader (fs w) p = inl e ->
   fst (extract_with_pypdf PdfReader p w) = Raise e).
Proof.
  split.
  - intros Hf.
    assert (pymupdf_text fitz_open (fs w) p = inl e) as Hprim.
    { unfold pymupdf_text. destruct Hf as [-> | ->]; [|done].
      by rewrite gather_first_failure. }
    rewrite extract_with_pymupdf_eq, extract_text_fst.
    unfold policy_text. by rewrite Hprim.
  - intros Hp. rewrite extract_with_pypdf_eq. unfold pypdf_text. simpl.
    destruct Hp as [-> | ->]; [|done]. by rewrite gather_first_failure.
Qed.

(** X10. White space around the primary text does not count towards the
    threshold, and the text that is kept is kept with its white space: for a
    primary text [l ++ core ++ r] with [l] and [r] white space and [core]
    neither beginning nor ending with white space, the fallback engine is
    used when [core] has fewer than 50 characters, and the whole primary text
    is returned otherwise. *)
Theorem threshold_ignores_padding p w (l core r : str) :
  fst (primary p w) = Ok (l ++ core ++ r) ->
  forallb isspace l = true -> forallb isspace r = true ->
  (forall c rest, core = c :: rest -> isspace c = false) ->
  (forall c front, core = front ++ [c] -> isspace c = false) ->
  (len core < 50 -> fst (policy p w) = fst (secondary p w)) /\
  (50 <= len core -> fst (policy p w) = Ok (l ++ core ++ r)).
Proof.
  rewrite extract_with_pymupdf_eq, extract_with_pypdf_eq, extract_text_fst.
  simpl. intros Hprim Hl Hr Hfirst Hlast. unfold policy_text.
  destruct (pymupdf_text fitz_open (fs w) p) as [|text]; [done|].
  injection Hprim as ->. rewrite (strip_padded l core r) by done.
  unfold MIN_TEXT_THRESHOLD.
  destruct (Nat.ltb_spec (len core) 50); split; (done || lia).
Qed.

(** X11. A document without pages, or whose pages all give white space only,
    is always handed to the fallback engine, however long the primary text
    is. *)
Theorem blank_document_uses_fallback p w (ts : list str) :
  fitz_open (fs w) p = inr (inr <$> ts) ->
  Forall (fun t => forallb isspace t = true) ts ->
  fst (policy p w) = fst (secondary p w) /\
  fallback_calls (events (snd (policy p w))) = S (fallback_calls (events w)).
Proof.
  intros Hf Hts. rewrite extract_text_eq, extract_with_pypdf_eq.
  cbn [fst snd fs events].
  unfold policy_text, policy_events, pymupdf_text. rewrite Hf, gather_append.
  cbn [app]. cbv beta iota.
  set (text := join _ ts).
  assert (strip text = []) as ->.
  { assert (forallb isspace text = true) as Hsp
      by (by apply join_spaces).
    rewrite <- (app_nil_r text).
    apply (strip_padded text [] []); [done..|].
    intros c front Hc. by destruct front. }
  change (len [] <? MIN_TEXT_THRESHOLD) with true. cbv iota.
  split; [done|]. rewrite fallback_calls_app. cbn. lia.
Qed.

End Engines.

(** ** One output per input? *)

Lemma with_suffix_hidden_pdf (dirs : Path) :
  with_suffix (dirs ++ [u ".pdf"]) (u ".txt") = Ok (dirs ++ [u ".pdf.txt"]).
Proof.
  unfold with_suffix, suffix.
  rewrite (name_snoc dirs (u ".pdf")) by done.
  rewrite (bool_decide_eq_false_2 (slash ∈ u ".txt"));
    [|vm_compute; intros H; repeat (apply elem_of_cons in H as [H|H]; [done|]);
      by apply not_elem_of_nil in H].
  change (negb (bool_decide (u ".txt" = [])) && negb (startswith (u ".txt") [dot])
          || bool_decide (u ".txt" = [dot])) with false.
  cbv iota. rewrite (bool_decide_eq_false_2 (u ".pdf" = [])) by done.
  change (rfind_dot (u ".pdf")) with (Some 0). cbv iota.
  change (0 <? 0) with false. cbn [andb].
  rewrite (bool_decide_eq_true_2 (@nil N = [])) by done.
  by rewrite removelast_last.
Qed.

Section Outputs.

Variable input output : Path.

(** X12. Documents with a non-empty stem get different output paths: on such
    inputs the output path determines the input path. *)
Theorem output_path_injective dirs stem dirs' stem' :
  stem <> [] -> stem' <> [] ->
  is_absolute (dirs ++ [stem ++ u ".pdf"]) = false ->
  is_absolute (dirs' ++ [stem' ++ u ".pdf"]) = false ->
  output_path (input ++ dirs ++ [stem ++ u ".pdf"]) input output
  = output_path (input ++ dirs' ++ [stem' ++ u ".pdf"]) input output ->
  input ++ dirs ++ [stem ++ u ".pdf"] = input ++ dirs' ++ [stem' ++ u ".pdf"].
Proof.
  intros Hs Hs' Ha Ha'.
  rewrite (output_path_pdf input output dirs stem Hs Ha).
  rewrite (output_path_pdf input output dirs' stem' Hs' Ha').
  intros [= H]. apply app_inv_head in H.
  apply app_inj_tail in H as [-> H]. apply app_inv_tail in H. by subst.
Qed.

(** X13. Two different documents can share one output path: in every
    directory the hidden file ".pdf" and the file ".pdf.pdf" are both mapped
    to ".pdf.txt". *)
Theorem output_path_collision dirs :
  is_absolute (dirs ++ [u ".pdf"]) = false ->
  input ++ dirs ++ [u ".pdf"] <> input ++ dirs ++ [u ".pdf.pdf"] /\
  output_path (input ++ dirs ++ [u ".pdf"]) input output
  = Ok (output ++ dirs ++ [u ".pdf.txt"]) /\
  output_path (input ++ dirs ++ [u ".pdf.pdf"]) input output
  = Ok (output ++ dirs ++ [u ".pdf.txt"]).
Proof.
  intros Ha. split_and!.
  - intros H. apply app_inv_head, app_inv_head in H. discriminate.
  - unfold output_path.
    rewrite (relative_to_app _ _ Ha), with_suffix_hidden_pdf.
    unfold joinpath.
    assert (is_absolute (dirs ++ [u ".pdf.txt"]) = false) as ->; [|done].
    rewrite is_absolute_app in *. by case_bool_decide.
  - apply (output_path_pdf input output dirs (u ".pdf")); [done|].
    rewrite is_absolute_app in *. by case_bool_decide.
Qed.

End Outputs.

(** ** What depends on the files only *)

Lemma agree_refl {A} (x : Result A * World) : agree x x.
Proof. done. Qed.

Lemma agree_bind {A B} (m m' : M A) (k k' : A -> M B) w w' :
  agree (m w) (m' w') ->
  (forall a w1 w1', fs w1 = fs w1' -> agree (k a w1) (k' a w1')) ->
  agree (bind m k w) (bind m' k' w').
Proof.
  intros [Hr Hf] Hk. rewrite !bind_unfold.
  destruct (m w) as [r w1], (m' w') as [r' w1']. simpl in *. subst r'.
  destruct r as [a|e|c]; [by apply Hk|done..].
Qed.

Lemma agree_try_except {A} (m m' : M A) (h h' : Exception -> M A) w w' :
  agree (m w) (m' w') ->
  (forall e w1 w1', fs w1 = fs w1' -> agree (h e w1) (h' e w1')) ->
  agree (try_except m h w) (try_except m' h' w').
Proof.
  intros [Hr Hf] Hh. unfold try_except.
  destruct (m w) as [r w1], (m' w') as [r' w1']. simpl in *. subst r'.
  destruct r as [a|e|c]; [done|by apply Hh|done].
Qed.

Lemma agree_os_mkdir p w w' :
  fs w = fs w' -> agree (os_mkdir p w) (os_mkdir p w').
Proof.
  intros Hf. unfold os_mkdir. rewrite <- Hf.
  destruct (exists_ (fs w) p); [done|].
  destruct (is_dir (fs w) (parent p)); [by split; simpl; rewrite ?Hf|].
  by destruct (exists_ (fs w) (parent p)).
Qed.

Lemma agree_exist_ok p e w w' :
  fs w = fs w' ->
  agree ((d <- path_is_dir p ;;
          if negb true || negb d then raise e else ret tt) w)
        ((d <- path_is_dir p ;;
          if negb true || negb d then raise e else ret tt) w').
Proof.
  intros Hf. rewrite !bind_unfold. cbn [path_is_dir]. rewrite <- Hf.
  by destruct (is_dir (fs w) p).
Qed.

Lemma agree_mkdir_single p w w' :
  fs w = fs w' -> agree (mkdir_single p true w) (mkdir_single p true w').
Proof.
  intros Hf. unfold mkdir_single.
  apply agree_try_except; [by apply agree_os_mkdir|].
  intros e w1 w1' Hf1. destruct e; try (by apply agree_exist_ok); done.
Qed.

Lemma agree_mkdir_rev rp w w' :
  fs w = fs w' -> agree (mkdir_rev rp true true w) (mkdir_rev rp true true w').
Proof.
  revert w w'. induction rp as [|x rp IH]; intros w w' Hf; cbn [mkdir_rev].
  - apply agree_try_except; [by apply agree_os_mkdir|].
    intros e w1 w1' Hf1. destruct e; try (by apply agree_exist_ok).
    by destruct (_ || _).
  - apply agree_try_except; [by apply agree_os_mkdir|].
    intros e w1 w1' Hf1. destruct e; try (by apply agree_exist_ok).
    destruct (_ || _); [done|].
    apply agree_bind; [by apply IH|].
    intros _ w2 w2' Hf2. by apply agree_mkdir_single.
Qed.

Lemma agree_mkdir p w w' :
  fs w = fs w' -> agree (mkdir p true true w) (mkdir p true true w').
Proof. apply agree_mkdir_rev. Qed.

Lemma agree_write_text p data w w' :
  fs w = fs w' -> agree (write_text p data w) (write_text p data w').
Proof.
  intros Hf. unfold write_text. apply agree_bind.
  - unfold open_w. rewrite <- Hf.
    destruct (is_dir (fs w) p); [done|].
    destruct (is_dir (fs w) (parent p)); [by split; simpl; rewrite ?Hf|].
    by destruct (exists_ (fs w) (parent p)).
  - intros _ w1 w1' Hf1. destruct (encodable data); [|done].
    split; simpl; [done|by rewrite Hf1].
Qed.

(** ** The sequential script *)

Lemma completion_order_in_order {A} (l : list A) :
  imap_unordered [] l = l.
Proof.
  unfold imap_unordered. induction l as [|x l IH]; [done|].
  cbn [length completion_order hd tl]. rewrite Nat.Div0.mod_0_l.
  cbn [lookup list_lookup delete list_delete]. by rewrite IH.
Qed.

Section Sequential.

Variable fitz_open : FS -> Path -> Exception + list (Exception + str).
Variable PdfReader : FS -> Path -> Exception + list (Exception + str).
Variable input output : Path.

Local Abbreviation pfile := (process_file fitz_open PdfReader).
Local Abbreviation runw := (run_workers fitz_open PdfReader).
Local Abbreviation body := (legacy_body fitz_open PdfReader input output).
Local Abbreviation legacy := (Legacy.process_directory fitz_open PdfReader).

(** The loop body, step by step. *)
Lemma legacy_body_eq pdf w :
  body tt pdf w =
  let w1 := mkWorld (fs w)
              (events w ++ policy_events fitz_open (fs w) pdf) in
  match policy_text fitz_open PdfReader (fs w) pdf with
  | inl e => (Ok tt, mkWorld (fs w) (events w1 ++ [Ev_log_failed pdf e]))
  | inr text =>
      match output_path pdf input output with
      | Ok out =>
          match mkdir (parent out) true true w1 with
          | (Ok _, w2) =>
              match write_text out text w2 with
              | (Ok _, w3) => (Ok tt, w3)
              | (Raise e, w3) =>
                  (Ok tt, mkWorld (fs w3) (events w3 ++ [Ev_log_failed pdf e]))
              | (SysExit c, w3) => (SysExit c, w3)
              end
          | (Raise e, w2) =>
              (Ok tt, mkWorld (fs w2) (events w2 ++ [Ev_log_failed pdf e]))
          | (SysExit c, w2) => (SysExit c, w2)
          end
      | Raise e => (Ok tt, mkWorld (fs w) (events w1 ++ [Ev_log_failed pdf e]))
      | SysExit c => (SysExit c, w1)
      end
  end.
Proof.
  unfold legacy_body, try_except, Legacy.extract_text, output_path.
  rewrite bind_unfold, extract_text_eq. cbv zeta.
  destruct (policy_text fitz_open PdfReader (fs w) pdf) as [e|text];
    cbn [as_result]; [done|].
  rewrite bind_unfold. unfold lift at 1.
  destruct (relative_to pdf input) as [rel|e|c]; [|done..].
  rewrite bind_unfold. unfold lift at 1.
  destruct (with_suffix rel (u ".txt")) as [renamed|e|c]; [|done..].
  rewrite bind_unfold.
  destruct (mkdir _ true true _) as [[[]|e|c] w2]; [|done..].
  by destruct (write_text _ text w2) as [[[]|e|c] w3].
Qed.

(** One round of the loop returns normally, calls the primary engine once,
    and treats the files as the worker does with [overwrite] set. *)
Lemma legacy_body_step pdf w :
  exists w',
    body tt pdf w = (Ok tt, w') /\
    primary_calls (events w') = primary_calls (events w) + 1 /\
    forall out wb,
      output_path pdf input output = Ok out -> fs wb = fs w ->
      fs w' = fs (snd (pfile (pdf, input, output, true, false) wb)).
Proof.
  rewrite legacy_body_eq. cbv zeta.
  destruct (policy_events_calls fitz_open (fs w) pdf) as [Hp _].
  assert (forall e : Exception, primary_calls [Ev_log_failed pdf e] = 0)
    as Hlog by done.
  assert (forall out wb, output_path pdf input output = Ok out ->
            fs wb = fs w ->
            pfile (pdf, input, output, true, false) wb
            = match policy_text fitz_open PdfReader (fs w) pdf with
              | inl e =>
                  (Ok failed,
                   mkWorld (fs w)
                     ((events wb ++ policy_events fitz_open (fs w) pdf)
                      ++ [Ev_log_failed pdf e]))
              | inr text =>
                  match mkdir (parent out) true true
                          (mkWorld (fs w)
                             (events wb
                              ++ policy_events fitz_open (fs w) pdf)) with
                  | (Ok _, w2) =>
                      match write_text out text w2 with
                      | (Ok _, w3) => (Ok success, w3)
                      | (Raise e, w3) =>
                          (Ok failed,
                           mkWorld (fs w3)
                             (events w3 ++ [Ev_log_failed pdf e]))
                      | (SysExit c, w3) => (SysExit c, w3)
                      end
                  | (Raise e, w2) =>
                      (Ok failed,
                       mkWorld (fs w2) (events w2 ++ [Ev_log_failed pdf e]))
                  | (SysExit c, w2) => (SysExit c, w2)
                  end
              end) as Hpf.
  { intros out wb Ho Hf. rewrite process_file_eq, Ho, Hf.
    by rewrite andb_false_r. }
  destruct (policy_text fitz_open PdfReader (fs w) pdf) as [e|text] eqn:Hpol.
  { eexists. split; [reflexivity|]. split.
    - cbn [events]. rewrite !primary_calls_app, Hp, Hlog. lia.
    - intros out wb Ho Hf. by rewrite (Hpf out wb Ho Hf). }
  pose proof (output_path_not_exit pdf input output) as Hne.
  destruct (output_path pdf input output) as [out|e|c];
    [| |by destruct (Hne c)].
  2:{ eexists. split; [reflexivity|]. split; [|done].
      cbn [events]. rewrite !primary_calls_app, Hp, Hlog. lia. }
  set (w1 := mkWorld (fs w) (events w ++ _)).
  assert (forall wb, fs wb = fs w ->
            agree (mkdir (parent out) true true w1)
                  (mkdir (parent out) true true
                     (mkWorld (fs w)
                        (events wb ++ policy_events fitz_open (fs w) pdf))))
    as Hmk by (intros; by apply agree_mkdir).
  pose proof (mkdir_post_holds (parent out) w1) as (Hev & Hx & _).
  destruct (mkdir (parent out) true true w1) as [[[]|e|c] w2] eqn:Hm;
    simpl in Hev, Hx; [| |by destruct (Hx c)].
  - pose proof (write_text_events out text w2) as [Hev2 Hx2].
    assert (forall w2', fs w2 = fs w2' ->
              agree (write_text out text w2) (write_text out text w2'))
      as Hwr by (intros; by apply agree_write_text).
    destruct (write_text out text w2) as [[[]|e|c] w3] eqn:Hwt;
      simpl in Hev2, Hx2; [| |by destruct (Hx2 c)].
    + eexists. split; [reflexivity|]. split.
      * rewrite Hev2, Hev. unfold w1. cbn [events].
        rewrite primary_calls_app, Hp. lia.
      * intros out' wb [= <-] Hf. rewrite (Hpf out wb eq_refl Hf).
        destruct (Hmk wb Hf) as [Hr Hfs].
        destruct (mkdir (parent out) true true (mkWorld _ _))
          as [r2' w2']. simpl in Hr, Hfs. subst r2'.
        destruct (Hwr w2' Hfs) as [Hr3 Hfs3].
        destruct (write_text out text w2') as [r3' w3']. simpl in *.
        by subst r3'.
    + eexists. split; [reflexivity|]. split.
      * cbn [events]. rewrite primary_calls_app, Hlog, Hev2, Hev.
        unfold w1. cbn [events]. rewrite primary_calls_app, Hp. lia.
      * intros out' wb [= <-] Hf. rewrite (Hpf out wb eq_refl Hf).
        destruct (Hmk wb Hf) as [Hr Hfs].
        destruct (mkdir (parent out) true true (mkWorld _ _))
          as [r2' w2']. simpl in Hr, Hfs. subst r2'.
        destruct (Hwr w2' Hfs) as [Hr3 Hfs3].
        destruct (write_text out text w2') as [r3' w3']. simpl in *.
        by subst r3'.
  - eexists. split; [reflexivity|]. split.
    + cbn [events]. rewrite primary_calls_app, Hlog, Hev.
      unfold w1. cbn [events]. rewrite primary_calls_app, Hp. lia.
    + intros out' wb [= <-] Hf. rewrite (Hpf out wb eq_refl Hf).
      destruct (Hmk wb Hf) as [Hr Hfs].
      destruct (mkdir (parent out) true true (mkWorld _ _))
        as [r2' w2']. simpl in Hr, Hfs. by subst r2'.
Qed.

Lemma legacy_loop pdfs w :
  exists w',
    for_loop pdfs body tt w = (Ok tt, w') /\
    primary_calls (events w') = primary_calls (events w) + length pdfs /\
    forall wb,
      (forall pdf, pdf ∈ pdfs ->
         exists out, output_path pdf input output = Ok out) ->
      fs wb = fs w ->
      fs w' = fs (snd (runw (mk_args input output true false <$> pdfs) wb)).
Proof.
  revert w. induction pdfs as [|pdf pdfs IH]; intros w.
  { exists w. split_and!; [done|simpl; lia|]. intros wb _ Hf. by simpl. }
  destruct (legacy_body_step pdf w) as (w1 & Hb & Hc & Hfs).
  destruct (IH w1) as (w' & Hloop & Hc' & Hfs').
  exists w'. split_and!.
  - cbn [for_loop]. rewrite bind_unfold, Hb. exact Hloop.
  - rewrite Hc', Hc. simpl. lia.
  - intros wb Hout Hf. cbn [fmap list_fmap run_workers].
    destruct (Hout pdf (list_elem_of_here _ _)) as [out Ho].
    specialize (Hfs out wb Ho Hf).
    change (mk_args input output true false pdf)
      with (pdf, input, output, true, false).
    destruct (pfile (pdf, input, output, true, false) wb) as [r wb1].
    simpl in Hfs.
    specialize (Hfs' wb1). 
    destruct (runw (mk_args input output true false <$> pdfs) wb1)
      as [outs wb2] eqn:Hrun. simpl in *.
    apply Hfs'; [|done].
    intros p Hp. apply Hout. by apply list_elem_of_further.
Qed.

(** The script, once the input root has passed the tests and the output root
    has been created. *)
Lemma legacy_after_checks w :
  is_dir (fs w) input = true ->
  legacy input output w
  = (mkdir output true true ;;;
     pdf_files <- rglob_pdf input ;;
     emit (Ev_print_found (length pdf_files)) ;;;
     for_loop pdf_files body tt ;;;
     emit Ev_print_complete) w.
Proof.
  intros Hd. unfold Legacy.process_directory.
  rewrite bind_unfold. cbn [path_exists].
  rewrite (is_dir_exists _ _ Hd). cbn [negb].
  rewrite bind_unfold. cbn [path_is_dir]. rewrite Hd. reflexivity.
Qed.

(** X14. Given an input root that is a directory and an output root that can
    be created, the sequential script always returns normally, whatever the
    engines do: it prints "Processing complete." last, and it has called the
    primary engine exactly once for every document listed, existing outputs
    or not. *)
Theorem legacy_extracts_every_document w :
  is_dir (fs w) input = true ->
  (forall q, q `prefix_of` output -> is_file (fs w) q = false) ->
  let listed := rglob_list (fs (snd (mkdir output true true w))) input in
  let r := legacy input output w in
  fst r = Ok tt /\
  (exists before, events (snd r) = before ++ [Ev_print_complete]) /\
  primary_calls (events (snd r)) = primary_calls (events w) + length listed.
Proof.
  intros Hd Hfree. cbv zeta. rewrite (legacy_after_checks w Hd).
  rewrite bind_unfold.
  pose proof (mkdir_post_holds output w) as (Hev & _).
  pose proof (mkdir_succeeds output w Hfree) as Hok.
  destruct (mkdir output true true w) as [r1 w1]. simpl in Hev, Hok.
  subst r1. cbn [snd].
  rewrite bind_unfold. cbn [rglob_pdf].
  rewrite bind_unfold. cbn [emit].
  set (w2 := mkWorld (fs w1) _).
  destruct (legacy_loop (rglob_list (fs w1) input) w2) as (w3 & Hloop & Hc & _).
  rewrite bind_unfold, Hloop. cbn [emit fst snd events].
  split_and!; [done|by eexists|].
  rewrite primary_calls_app, Hc. unfold w2. cbn [events].
  rewrite primary_calls_app, Hev. cbn. lia.
Qed.

End Sequential.

Section SequentialAndParallel.

Variable fitz_open : FS -> Path -> Exception + list (Exception + str).
Variable PdfReader : FS -> Path -> Exception + list (Exception + str).
Variable cpu_count : Z.

(** The two scripts after the log file was opened and the input root has
    passed the tests. *)
Lemma legacy_agrees_after_setup input output workers w :
  is_dir (fs w) input = true ->
  (1 <= workers)%Z ->
  agree (Legacy.process_directory fitz_open PdfReader input output w)
        ((mkdir output true true ;;;
          process_directory fitz_open PdfReader [] input output workers
            true false) w).
Proof.
  intros Hd Hw. rewrite (legacy_after_checks _ _ _ _ w Hd).
  rewrite !(bind_unfold (mkdir output true true)).
  destruct (mkdir output true true w) as [[[]|e|c] w1]; [|done..].
  rewrite process_directory_eq. cbv zeta.
  rewrite bind_unfold. cbn [rglob_pdf]. rewrite bind_unfold. cbn [emit].
  set (pdfs := rglob_list (fs w1) input).
  set (w2 := mkWorld (fs w1) (events w1 ++ [Ev_print_found _])).
  destruct (legacy_loop fitz_open PdfReader input output pdfs w2)
    as (w3 & Hloop & _ & Hfs).
  rewrite bind_unfold, Hloop. cbn [emit].
  destruct (Nat.eqb_spec (length pdfs) 0) as [Hz|Hnz].
  { split; [done|]. cbn [snd fs].
    assert (pdfs = []) as Hnil by (by destruct pdfs).
    rewrite Hnil in Hloop. cbn in Hloop. by injection Hloop as <-. }
  assert ((workers <? 1)%Z = false) as -> by lia.
  split; [done|]. cbn [snd fs].
  change (map (mk_args input output true false) pdfs)
    with (mk_args input output true false <$> pdfs).
  rewrite completion_order_in_order.
  apply Hfs; [|done].
  intros pdf Hpdf. by eapply rglob_list_output_path.
Qed.

(** X15. The sequential script is the parallel script run with --overwrite
    and with every item completing in the order of the list: given an input
    root that is a directory and a worker count of at least one, both end
    the same way (return, or the same exception) and leave the same file
    system, the log file apart, in which their records differ. *)
Theorem legacy_is_parallel_with_overwrite input output workers a w :
  is_dir (fs w) input = true ->
  (1 <= workers)%Z ->
  agree_but_log
    (Legacy.script fitz_open PdfReader input output w)
    (main fitz_open PdfReader cpu_count [] a
       (mkArgs (Some input) (Some output) workers true false false) w).
Proof.
  intros Hd Hw.
  unfold Legacy.script, Legacy.logging_basicConfig, Legacy.main.
  rewrite bind_unfold, open_log_file.
  destruct (is_dir (fs w) LOG_FILE) eqn:Hlog.
  - unfold main, setup_logging. rewrite bind_unfold, open_log_file, Hlog.
    by split.
  - rewrite main_command_line by done. cbv zeta. cbn [fs].
    rewrite is_dir_exists by (by rewrite is_dir_touch).
    destruct (legacy_agrees_after_setup input output workers
                (mkWorld (touch (fs w) LOG_FILE) (events w)))
      as [Hr Hfs]; [cbn [fs]; by rewrite is_dir_touch|done|].
    split; [done|]. intros q _. by rewrite Hfs.
Qed.

End SequentialAndParallel.

(** ** The entry points of the parallel script *)

Lemma mkdir_keeps_entry p w q n :
  fs w !! q = Some n -> fs (snd (mkdir p true true w)) !! q = Some n.
Proof.
  intros Hq. destruct (mkdir_post_holds p w) as (_ & _ & Hch & _).
  destruct (Hch q) as [->|(Hn & _)]; [done|congruence].
Qed.

Section EntryPointFrames.

Variable fitz_open : FS -> Path -> Exception + list (Exception + str).
Variable PdfReader : FS -> Path -> Exception + list (Exception + str).
Variable cpu_count : Z.

Local Abbreviation pdir := (process_directory fitz_open PdfReader).
Local Abbreviation run_main := (main fitz_open PdfReader cpu_count).
Local Abbreviation interactive :=
  (interactive_mode fitz_open PdfReader cpu_count).

Lemma process_directory_keeps_entry sched input output workers ov sk w q n :
  ov = false \/ sk = true ->
  fs w !! q = Some n ->
  fs (snd (pdir sched input output workers ov sk w)) !! q = Some n.
Proof.
  intros Hflags.
  apply (process_directory_related fitz_open PdfReader
           (fun f f' => f !! q = Some n -> f' !! q = Some n)).
  - by intros ?.
  - intros f1 f2 f3 H12 H23 ?. auto.
  - intros pdf w' _. by apply process_file_keeps_entry.
Qed.

Lemma process_directory_keeps_is_dir sched input output workers ov sk w q :
  is_dir (fs w) q = true ->
  is_dir (fs (snd (pdir sched input output workers ov sk w))) q = true.
Proof.
  unfold is_dir. destruct (is_anchor q); [done|]. simpl.
  rewrite !bool_decide_eq_true.
  apply (process_directory_related fitz_open PdfReader
           (fun f f' => f !! q = Some Dir -> f' !! q = Some Dir)).
  - by intros ?.
  - intros f1 f2 f3 H12 H23 ?. auto.
  - intros pdf w' _. apply process_file_keeps_dir.
Qed.

Lemma exists_touch_mono (f : FS) p q :
  exists_ f q = true -> exists_ (touch f p) q = true.
Proof.
  unfold touch. destruct (exists_ f p); [done|]. unfold exists_.
  destruct (is_anchor q); [done|]. simpl.
  rewrite !bool_decide_eq_true. intros [n Hn].
  destruct (decide (q = p)) as [->|Hne].
  - rewrite lookup_insert_eq. eauto.
  - rewrite lookup_insert_ne by done. eauto.
Qed.

(** X16. Started on the command line with an input root that exists and an
    output root that can be created (no regular file lies on its path, and
    neither does the log file, which the script opens first), the parallel
    script leaves the output root behind as a directory, whether documents
    were found or not and whatever the worker count is. *)
Theorem main_leaves_output_root sched a input output workers ov sk w :
  is_dir (fs w) LOG_FILE = false ->
  ~ LOG_FILE `prefix_of` output ->
  exists_ (fs w) input = true ->
  (forall q, q `prefix_of` output -> is_file (fs w) q = false) ->
  is_dir (fs (snd (main fitz_open PdfReader cpu_count sched a
                     (mkArgs (Some input) (Some output) workers ov sk false)
                     w)))
         output = true.
Proof.
  intros Hlog Hpre Hex Hfree. rewrite main_command_line by done. cbv zeta.
  cbn [fs]. rewrite exists_touch_mono by done. rewrite bind_unfold.
  set (w0 := mkWorld (touch (fs w) LOG_FILE) (events w)).
  pose proof (mkdir_post_holds output w0) as (_ & _ & _ & Hdir & _).
  pose proof (mkdir_after_log output w Hfree Hpre) as Hok. fold w0 in Hok.
  destruct (mkdir output true true w0) as [r1 w1]. simpl in Hdir, Hok.
  subst r1. by apply process_directory_keeps_is_dir, Hdir.
Qed.

Lemma interactive_mode_keeps_entry sched a w q n :
  fs w !! q = Some n ->
  fs (snd (interactive sched a w)) !! q = Some n.
Proof.
  intros Hq. unfold interactive_mode.
  rewrite bind_unfold. cbn [path_exists]. rewrite bind_unfold.
  cbn [path_is_dir].
  destruct (negb _ || negb _); [done|].
  rewrite bind_unfold. cbn [path_exists]. rewrite bind_unfold.
  assert (forall w1, fs w1 !! q = Some n ->
            fs (snd ((workers <- match ans_workers a with
                                 | Some r => lift_ext r
                                 | None => ret cpu_count
                                 end;;
                      pdir sched (ans_input a) (ans_output a) workers false
                        true) w1)) !! q = Some n) as Hrest.
  { intros w1 Hq1. rewrite bind_unfold.
    destruct (ans_workers a) as [[e|workers]|]; cbn [lift_ext raise ret];
      [done|by apply process_directory_keeps_entry; auto..]. }
  destruct (negb (exists_ (fs w) (ans_output a))); [|by apply Hrest].
  case_bool_decide; [|done].
  pose proof (mkdir_keeps_entry (ans_output a) w q n Hq) as Hq1.
  destruct (mkdir (ans_output a) true true w) as [[[]|e|c] w1]; simpl in Hq1;
    [by apply Hrest|done..].
Qed.

(** X17. A run of the script in interactive mode never changes an entry
    that exists, the log file apart: it opens the log file, may create the
    output directory, and runs the engine with [overwrite] off and
    [skip_existing] on, so whatever the answers are and however the run
    ends, every other file and directory that was there before is there,
    unchanged, afterwards. *)
Theorem interactive_mode_keeps_files sched a args w q n :
  args_interactive args = true ->
  q <> LOG_FILE ->
  fs w !! q = Some n ->
  fs (snd (main fitz_open PdfReader cpu_count sched a args w)) !! q = Some n.
Proof.
  intros Hint Hne Hq. unfold main, setup_logging.
  rewrite bind_unfold, open_log_file, Hint.
  destruct (is_dir (fs w) LOG_FILE); [done|].
  apply interactive_mode_keeps_entry. cbn [fs].
  by rewrite touch_lookup_ne.
Qed.

End EntryPointFrames.

(** ** A run over readable documents *)

Section CompleteRun.

Variable fitz_open : FS -> Path -> Exception + list (Exception + str).
Variable PdfReader : FS -> Path -> Exception + list (Exception + str).
Variable input output : Path.
Variable ov sk : bool.

Local Abbreviation pfile := (process_file fitz_open PdfReader).
Local Abbreviation policy := (extract_text fitz_open PdfReader).
Local Abbreviation runw := (run_workers fitz_open PdfReader).
Local Abbreviation pdir := (process_directory fitz_open PdfReader).

(** The worker never removes a regular file nor turns it into a directory. *)
Lemma process_file_keeps_is_file args w q :
  is_file (fs w) q = true -> is_file (fs (snd (pfile args w))) q = true.
Proof.
  destruct args as [[[[pdf inp] outp] ov'] sk']. unfold is_file.
  destruct (is_anchor q); [done|]. cbn [negb andb].
  destruct (fs w !! q) as [[t|]|] eqn:Hq; try done. intros _.
  destruct (output_path pdf inp outp) as [out|e|c] eqn:Ho.
  - destruct (process_file_frame fitz_open PdfReader _ _ _ ov' sk' w _ Ho q)
      as [->|[(-> & _ & _ & t' & ->)|(Hn & _)]];
      [by rewrite Hq|done|congruence].
  - rewrite (process_file_no_output _ _ _ _ _ _ _ _ _ Ho). cbn [snd fs].
    by rewrite Hq.
  - by destruct (output_path_not_exit pdf inp outp c).
Qed.

Lemma run_workers_complete pdfs w :
  (forall pdf, pdf ∈ pdfs ->
     exists out, output_path pdf input output = Ok out) ->
  (forall pdf w', pdf ∈ pdfs ->
     exists text, fst (policy pdf w') = Ok text /\ encodable text = true) ->
  io_safe (fs w) (output_of input output <$> pdfs) ->
  never_skips (fs w) (output_of input output <$> pdfs) ov sk ->
  let run := runw (mk_args input output ov sk <$> pdfs) w in
  fst run = replicate (length pdfs) success /\
  forall pdf, pdf ∈ pdfs ->
    is_file (fs (snd run)) (output_of input output pdf) = true.
Proof.
  intros Hout Hgood. revert w.
  induction pdfs as [|pdf pdfs IH]; intros w Hsafe Hskip; cbv zeta.
  { split; [done|]. by intros pdf ?%elem_of_nil. }
  cbn [fmap list_fmap run_workers length replicate] in *.
  destruct (Hout pdf) as [out Ho]; [apply list_elem_of_here|].
  assert (output_of input output pdf = out) as Hof
    by (unfold output_of; by rewrite Ho).
  rewrite Hof in *.
  pose proof (never_skips_head _ _ _ _ _ Hskip) as Hns.
  destruct (Hgood pdf w) as (text & Ht & Henc); [apply list_elem_of_here|].
  rewrite extract_text_fst in Ht.
  destruct (policy_text fitz_open PdfReader (fs w) pdf) as [|text'] eqn:Hpol;
    [done|]. injection Ht as ->.
  pose proof Hsafe as (H1 & H2 & _).
  change (mk_args input output ov sk pdf) with (pdf, input, output, ov, sk).
  destruct (process_file_writes fitz_open PdfReader _ _ _ _ _ _ _ _ Ho Hns
              Hpol Henc) as (f1 & -> & Hch & _).
  { intros q. apply H1. apply list_elem_of_here. }
  { apply H2. apply list_elem_of_here. }
  destruct (io_safe_step _ _ _ _ text _ _ Hsafe Hskip Hch) as [Hsafe' Hskip'].
  set (w1 := mkWorld (<[out := File text]> f1) _).
  specialize (IH (fun p Hp => Hout p (list_elem_of_further _ _ _ Hp))
                 (fun p w' Hp => Hgood p w' (list_elem_of_further _ _ _ Hp))
                 w1 Hsafe' Hskip').
  cbv zeta in IH. destruct IH as [IH1 IH2].
  assert (is_file (fs (snd (runw (mk_args input output ov sk <$> pdfs) w1)))
                  out = true) as Hkept.
  { apply (run_workers_related fitz_open PdfReader
             (fun f f' => is_file f out = true -> is_file f' out = true)).
    - by intros ?.
    - intros f1' f2 f3 H12 H23 ?. auto.
    - intros a w' _. apply process_file_keeps_is_file.
    - unfold w1, is_file. cbn [fs]. rewrite lookup_insert_eq.
      specialize (H2 out (list_elem_of_here _ _)). unfold is_dir in H2.
      apply orb_false_iff in H2 as [-> _]. done. }
  destruct (runw (mk_args input output ov sk <$> pdfs) w1) as [outs w2].
  cbn [fst snd] in *. split; [by rewrite IH1|].
  intros p [->|Hp]%elem_of_cons; [by rewrite Hof|by apply IH2].
Qed.

(** X18. A run over documents that every engine call can read, with nothing
    in the way of the outputs and no item skipped, completes with
    success = N, skipped = 0 and failed = 0 for every schedule, and leaves a
    regular file at the output path of every document. *)
Theorem run_over_readable_documents sched workers w :
  (1 <= workers)%Z ->
  0 < length (rglob_list (fs w) input) ->
  (forall pdf w', pdf ∈ rglob_list (fs w) input ->
     exists text, fst (policy pdf w') = Ok text /\ encodable text = true) ->
  io_safe (fs w) (outputs (fs w) input output) ->
  never_skips (fs w) (outputs (fs w) input output) ov sk ->
  let n := length (rglob_list (fs w) input) in
  let r := pdir sched input output workers ov sk w in
  fst r = Ok tt /\
  (exists before, events (snd r) = before ++ summary_block n n 0 0) /\
  forall out, out ∈ outputs (fs w) input output ->
    is_file (fs (snd r)) out = true.
Proof.
  intros Hw Hn Hgood Hsafe Hskip. cbv zeta. rewrite process_directory_eq.
  cbv zeta.
  destruct (Nat.eqb_spec (length (rglob_list (fs w) input)) 0); [lia|].
  assert ((workers <? 1)%Z = false) as -> by lia.
  change (map (mk_args input output ov sk) (rglob_list (fs w) input))
    with (mk_args input output ov sk <$> rglob_list (fs w) input).
  rewrite imap_unordered_fmap.
  set (pdfs := imap_unordered sched (rglob_list (fs w) input)).
  assert (pdfs ≡ₚ rglob_list (fs w) input) as Hperm
    by apply imap_unordered_perm.
  set (w0 := mkWorld (fs w) (events w ++ [Ev_print_found _; _])).
  destruct (run_workers_complete pdfs w0) as [Houts Hfiles].
  - intros pdf Hpdf. rewrite Hperm in Hpdf.
    by eapply rglob_list_output_path.
  - intros pdf w' Hpdf. apply Hgood. by rewrite <- Hperm.
  - eapply io_safe_perm; [|exact Hsafe]. unfold outputs. by rewrite Hperm.
  - eapply never_skips_perm; [|exact Hskip]. unfold outputs.
    by rewrite Hperm.
  - cbv zeta in Houts, Hfiles. rewrite Houts.
    destruct outcomes_distinct as (Hks & Hkf & Hsf).
    rewrite !count_outcome_replicate.
    repeat case_decide; try done; try congruence.
    rewrite (Permutation_length Hperm). split_and!; [done|by eexists|].
    cbn [snd fs]. intros out (pdf & -> & Hpdf)%list_elem_of_fmap.
    apply Hfiles. by rewrite Hperm.
Qed.

End CompleteRun.

(** ** Concrete instances of the further properties *)

Lemma resolved_outputs_are_not_inputs_witness :
  ex_pdf ∈ rglob_list ex_input_tree ex_root /\
  exists out,
    output_path ex_pdf ex_root ex_out = Ok out /\
    endswith (name out) (u ".txt") = true /\
    out ∉ rglob_list ex_input_tree ex_root.
Proof.
  assert (rglob_list ex_input_tree ex_root = [ex_pdf]) as Hl
    by (vm_compute; reflexivity).
  assert (ex_pdf ∈ rglob_list ex_input_tree ex_root) as H
    by (rewrite Hl; apply list_elem_of_here).
  split; [exact H|].
  exact (resolved_outputs_are_not_inputs ex_input_tree ex_root ex_out ex_pdf H).
Defined.

Lemma run_changes_only_outputs_witness :
  [u "out"; u "a"] <> LOG_FILE /\
  ex_input_tree !! [u "out"; u "a"] = None /\
  outputs ex_input_tree ex_root ex_out = [ex_txt] /\
  fs (snd (process_directory ex_fitz ex_pypdf [] ex_root ex_out 2 true false
             (mkWorld ex_input_tree []))) !! [u "out"; u "a"] = Some Dir /\
  [u "out"; u "a"] `prefix_of` parent ex_txt /\
  fs (snd (process_directory ex_fitz ex_pypdf [] ex_root ex_out 2 true false
             (mkWorld ex_input_tree []))) !! ex_pdf
  = Some (File (u "%PDF-1.7")).
Proof.
  assert ([u "out"; u "a"] <> LOG_FILE) as Hne by discriminate.
  assert (ex_input_tree !! [u "out"; u "a"] = None) as Hnone
    by (vm_compute; reflexivity).
  assert (outputs ex_input_tree ex_root ex_out = [ex_txt]) as Houts
    by (vm_compute; reflexivity).
  assert (rglob_list ex_input_tree ex_root = [ex_pdf]) as Hl
    by (vm_compute; reflexivity).
  assert (fs (snd (process_directory ex_fitz ex_pypdf [] ex_root ex_out 2 true
                     false (mkWorld ex_input_tree []))) !! [u "out"; u "a"]
          <> None) as Hmade by (vm_compute; discriminate).
  destruct (run_changes_only_outputs ex_fitz ex_pypdf [] ex_root ex_out 2
              true false (mkWorld ex_input_tree [])) as [Hframe Hpdf].
  cbn [fs] in Hframe, Hpdf. rewrite Houts in Hframe. rewrite Hl in Hpdf.
  split_and!; [exact Hne|exact Hnone|exact Houts| | |].
  - destruct (Hframe [u "out"; u "a"] Hne)
      as [Hsame|[Hin|(_ & Hdir & _)]]; [| |exact Hdir].
    + rewrite Hnone in Hsame. by destruct Hmade.
    + apply list_elem_of_singleton in Hin. discriminate Hin.
  - destruct (Hframe [u "out"; u "a"] Hne)
      as [Hsame|[Hin|(_ & _ & out & Hout & Hpre)]].
    + rewrite Hnone in Hsame. by destruct Hmade.
    + apply list_elem_of_singleton in Hin. discriminate Hin.
    + apply list_elem_of_singleton in Hout. by subst out.
  - rewrite (Hpdf ex_pdf (list_elem_of_here _ _)). vm_compute. reflexivity.
Defined.

Lemma run_without_overwrite_keeps_files_witness :
  ex_txt <> LOG_FILE /\
  ex_done_tree !! ex_txt = Some (File (u "old text")) /\
  fs (snd (process_directory ex_fitz ex_pypdf [] ex_root ex_out 2 false false
             (mkWorld ex_done_tree []))) !! ex_txt
  = Some (File (u "old text")).
Proof.
  assert (ex_txt <> LOG_FILE) as Hne by discriminate.
  assert (ex_done_tree !! ex_txt = Some (File (u "old text"))) as H
    by (vm_compute; reflexivity).
  split_and!; [exact Hne|exact H|].
  exact (run_without_overwrite_keeps_files ex_fitz ex_pypdf [] ex_root ex_out
           2 false false (mkWorld ex_done_tree []) (or_introl eq_refl)
           ex_txt (File (u "old text")) Hne H).
Defined.

Lemma run_keeps_directories_witness :
  is_dir ex_done_tree [u "out"; u "a"] = true /\
  is_dir (fs (snd (process_directory ex_fitz ex_pypdf [] ex_root ex_out 2 true
                     false (mkWorld ex_done_tree []))))
         [u "out"; u "a"] = true.
Proof.
  assert (is_dir ex_done_tree [u "out"; u "a"] = true) as H
    by (vm_compute; reflexivity).
  split; [exact H|].
  destruct (run_keeps_directories ex_fitz ex_pypdf [] ex_root ex_out 2 true
              false (mkWorld ex_done_tree [])) as [Hdir _].
  exact (Hdir [u "out"; u "a"] H).
Defined.

Lemma process_file_outside_input_root_witness :
  strip_prefix ex_stray_pdf ex_root = None /\
  process_file ex_fitz ex_pypdf (ex_stray_pdf, ex_root, ex_out, true, false)
    (mkWorld ex_input_tree [])
  = (Ok failed,
     mkWorld ex_input_tree [Ev_log_failed ex_stray_pdf ValueError]).
Proof.
  assert (strip_prefix ex_stray_pdf ex_root = None) as H
    by (vm_compute; reflexivity).
  split; [exact H|].
  exact (process_file_outside_input_root ex_fitz ex_pypdf ex_stray_pdf ex_root
           ex_out true false (mkWorld ex_input_tree []) (or_introl H)).
Defined.

Lemma process_file_again_is_skipped_witness :
  fst (process_file ex_fitz ex_pypdf (ex_pdf, ex_root, ex_out, false, false)
         (mkWorld ex_input_tree [])) = Ok success /\
  fst (process_file ex_fitz ex_pypdf (ex_pdf, ex_root, ex_out, false, true)
         (snd (process_file ex_fitz ex_pypdf
                 (ex_pdf, ex_root, ex_out, false, false)
                 (mkWorld ex_input_tree [])))) = Ok skipped.
Proof.
  assert (fst (process_file ex_fitz ex_pypdf
                 (ex_pdf, ex_root, ex_out, false, false)
                 (mkWorld ex_input_tree [])) = Ok success) as H
    by (vm_compute; reflexivity).
  split; [exact H|].
  by rewrite (process_file_again_is_skipped ex_fitz ex_pypdf ex_pdf ex_root
                ex_out false true (mkWorld ex_input_tree []) H).
Defined.

Lemma run_calls_engines_once_per_item_witness :
  (1 <= 2)%Z /\
  0 < length (rglob_list ex_three_tree ex_root) /\
  exists before n_success n_skipped n_failed,
    events (snd (process_directory ex_fitz_one_bad ex_pypdf [2; 0] ex_root
                   ex_out 2 false false (mkWorld ex_three_tree [])))
    = before ++ summary_block 3 n_success n_skipped n_failed /\
    primary_calls
      (events (snd (process_directory ex_fitz_one_bad ex_pypdf [2; 0] ex_root
                      ex_out 2 false false (mkWorld ex_three_tree []))))
    = n_success + n_failed.
Proof.
  assert (1 <= 2)%Z as H1 by lia.
  assert (rglob_list ex_three_tree ex_root
          = [ex_other_pdf; ex_bad_pdf; ex_pdf]) as Hl
    by (vm_compute; reflexivity).
  assert (0 < length (rglob_list ex_three_tree ex_root)) as H2
    by (rewrite Hl; simpl; lia).
  split_and!; [exact H1|exact H2|].
  destruct (run_calls_engines_once_per_item ex_fitz_one_bad ex_pypdf [2; 0]
              ex_root ex_out 2 false false (mkWorld ex_three_tree []) H1 H2)
    as (before & s & k & f & Hev & Hprim & _).
  exists before, s, k, f. cbn [fs events] in Hev, Hprim.
  rewrite Hl in Hev. split; [exact Hev|exact Hprim].
Defined.

Lemma engines_join_pages_differently_witness :
  ex_pypdf ex_input_tree ex_pdf = inr (inr <$> [u "from "; []; u "pypdf"]) /\
  fst (extract_with_pymupdf ex_pypdf ex_pdf (mkWorld ex_input_tree []))
  = Ok (join [10%N] [u "from "; []; u "pypdf"]) /\
  fst (extract_with_pypdf ex_pypdf ex_pdf (mkWorld ex_input_tree []))
  = Ok (u "from pypdf") /\
  len (join [10%N] [u "from "; []; u "pypdf"]) = len (u "from pypdf") + 2.
Proof.
  assert (ex_pypdf ex_input_tree ex_pdf
          = inr (inr <$> [u "from "; []; u "pypdf"])) as H by reflexivity.
  split; [exact H|].
  exact (engines_join_pages_differently ex_pypdf ex_pypdf ex_pdf
           (mkWorld ex_input_tree []) [u "from "; []; u "pypdf"] H H).
Defined.

Lemma engines_raise_first_page_failure_witness :
  ex_fitz_broken ex_input_tree ex_pdf
  = inl (LibraryError (u "cannot open broken document")) /\
  fst (extract_text ex_fitz_broken ex_pypdf ex_pdf (mkWorld ex_input_tree []))
  = Raise (LibraryError (u "cannot open broken document")) /\
  fst (extract_with_pypdf ex_fitz_broken ex_pdf (mkWorld ex_input_tree []))
  = Raise (LibraryError (u "cannot open broken document")).
Proof.
  assert (ex_fitz_broken ex_input_tree ex_pdf
          = inl (LibraryError (u "cannot open broken document"))) as H
    by reflexivity.
  split; [exact H|].
  destruct (engines_raise_first_page_failure ex_fitz_broken ex_pypdf ex_pdf
              (mkWorld ex_input_tree []) []
              (LibraryError (u "cannot open broken document")) [])
    as [Hprimary _].
  destruct (engines_raise_first_page_failure ex_fitz ex_fitz_broken ex_pdf
              (mkWorld ex_input_tree []) []
              (LibraryError (u "cannot open broken document")) [])
    as [_ Hfallback].
  destruct (Hprimary (or_intror H)) as [_ Hpolicy].
  split; [exact Hpolicy|exact (Hfallback (or_intror H))].
Defined.

Lemma threshold_ignores_padding_witness :
  fst (extract_with_pymupdf ex_fitz_short ex_pdf (mkWorld ex_input_tree []))
  = Ok (u "  " ++ u "scan" ++ u "  ") /\
  len (u "scan") < 50 /\
  fst (extract_text ex_fitz_short ex_pypdf ex_pdf (mkWorld ex_input_tree []))
  = Ok (u "from pypdf").
Proof.
  assert (fst (extract_with_pymupdf ex_fitz_short ex_pdf
                 (mkWorld ex_input_tree []))
          = Ok (u "  " ++ u "scan" ++ u "  ")) as H1 by reflexivity.
  assert (forallb isspace (u "  ") = true) as H2 by reflexivity.
  assert (forall c rest, u "scan" = c :: rest -> isspace c = false) as H3.
  { intros c rest H. vm_compute in H. injection H as <- _. reflexivity. }
  assert (forall c front, u "scan" = front ++ [c] -> isspace c = false) as H4.
  { intros c front H.
    assert (c = List.last (u "scan") 0%N) as ->
      by (rewrite H; symmetry; apply last_last).
    reflexivity. }
  assert (len (u "scan") < 50) as H5 by (vm_compute; lia).
  split_and!; [exact H1|exact H5|].
  destruct (threshold_ignores_padding ex_fitz_short ex_pypdf ex_pdf
              (mkWorld ex_input_tree []) (u "  ") (u "scan") (u "  ")
              H1 H2 H2 H3 H4) as [Hshort _].
  rewrite (Hshort H5). reflexivity.
Defined.

Lemma blank_document_uses_fallback_witness :
  ex_fitz_blank ex_input_tree ex_pdf
  = inr (inr <$> [u "   "; []; u " "]) /\
  Forall (fun t => forallb isspace t = true) [u "   "; []; u " "] /\
  fst (extract_text ex_fitz_blank ex_pypdf ex_pdf (mkWorld ex_input_tree []))
  = Ok (u "from pypdf").
Proof.
  assert (ex_fitz_blank ex_input_tree ex_pdf
          = inr (inr <$> [u "   "; []; u " "])) as H1 by reflexivity.
  assert (Forall (fun t => forallb isspace t = true) [u "   "; []; u " "])
    as H2 by (repeat constructor).
  split_and!; [exact H1|exact H2|].
  destruct (blank_document_uses_fallback ex_fitz_blank ex_pypdf ex_pdf
              (mkWorld ex_input_tree []) [u "   "; []; u " "] H1 H2)
    as [Hfallback _].
  rewrite Hfallback. reflexivity.
Defined.

Lemma output_path_injective_witness :
  u "doc" <> [] /\
  is_absolute ([u "a"; u "b"] ++ [u "doc" ++ u ".pdf"]) = false /\
  ex_root ++ [u "a"; u "b"] ++ [u "doc" ++ u ".pdf"]
  = ex_root ++ [u "a"; u "b"] ++ [u "doc" ++ u ".pdf"].
Proof.
  assert (u "doc" <> []) as H1 by discriminate.
  assert (is_absolute ([u "a"; u "b"] ++ [u "doc" ++ u ".pdf"]) = false)
    as H2 by reflexivity.
  split_and!; [exact H1|exact H2|].
  exact (output_path_injective ex_root ex_out [u "a"; u "b"] (u "doc")
           [u "a"; u "b"] (u "doc") H1 H1 H2 H2 eq_refl).
Defined.

Lemma output_path_collision_witness :
  is_absolute ([u "a"] ++ [u ".pdf"]) = false /\
  output_path (ex_root ++ [u "a"] ++ [u ".pdf"]) ex_root ex_out
  = output_path (ex_root ++ [u "a"] ++ [u ".pdf.pdf"]) ex_root ex_out.
Proof.
  assert (is_absolute ([u "a"] ++ [u ".pdf"]) = false) as H by reflexivity.
  split; [exact H|].
  destruct (output_path_collision ex_root ex_out [u "a"] H)
    as (_ & -> & ->).
  reflexivity.
Defined.

Lemma legacy_extracts_every_document_witness :
  is_dir ex_three_tree ex_root = true /\
  fst (Legacy.process_directory ex_fitz_one_bad ex_pypdf ex_root ex_out
         (mkWorld ex_three_tree [])) = Ok tt /\
  primary_calls
    (events (snd (Legacy.process_directory ex_fitz_one_bad ex_pypdf ex_root
                    ex_out (mkWorld ex_three_tree [])))) = 3.
Proof.
  assert (is_dir ex_three_tree ex_root = true) as H1
    by (vm_compute; reflexivity).
  assert (forall q, q `prefix_of` ex_out -> is_file ex_three_tree q = false)
    as H2.
  { intros q Hq. apply elem_of_prefixes in Hq. vm_compute in Hq.
    repeat (apply elem_of_cons in Hq as [-> | Hq]; [vm_compute; reflexivity|]).
    exfalso. exact (proj1 (elem_of_nil _) Hq). }
  split; [exact H1|].
  destruct (legacy_extracts_every_document ex_fitz_one_bad ex_pypdf ex_root
              ex_out (mkWorld ex_three_tree []) H1 H2) as (Hr & _ & Hcalls).
  split; [exact Hr|]. rewrite Hcalls. vm_compute. reflexivity.
Defined.

Lemma legacy_is_parallel_with_overwrite_witness :
  is_dir ex_done_tree ex_root = true /\
  (1 <= 2)%Z /\
  ex_txt <> LOG_FILE /\
  fs (snd (Legacy.script ex_fitz ex_pypdf ex_root ex_out
             (mkWorld ex_done_tree []))) !! ex_txt
  = fs (snd (main ex_fitz ex_pypdf 4 [] ex_answers
               (mkArgs (Some ex_root) (Some ex_out) 2 true false false)
               (mkWorld ex_done_tree []))) !! ex_txt.
Proof.
  assert (is_dir ex_done_tree ex_root = true) as H1
    by (vm_compute; reflexivity).
  assert (1 <= 2)%Z as H2 by lia.
  assert (ex_txt <> LOG_FILE) as H3 by discriminate.
  split_and!; [exact H1|exact H2|exact H3|].
  destruct (legacy_is_parallel_with_overwrite ex_fitz ex_pypdf 4 ex_root
              ex_out 2 ex_answers (mkWorld ex_done_tree []) H1 H2)
    as [_ Hfs].
  exact (Hfs ex_txt H3).
Defined.

Lemma main_leaves_output_root_witness :
  is_dir ex_empty_tree LOG_FILE = false /\
  ~ LOG_FILE `prefix_of` ex_out /\
  exists_ ex_empty_tree ex_root = true /\
  is_dir (fs (snd (main ex_fitz ex_pypdf 4 [] ex_answers (ex_args ex_root 0)
                     (mkWorld ex_empty_tree []))))
         ex_out = true.
Proof.
  assert (is_dir ex_empty_tree LOG_FILE = false) as Hlog
    by (vm_compute; reflexivity).
  assert (~ LOG_FILE `prefix_of` ex_out) as Hpre.
  { intros [k Hk]. vm_compute in Hk. discriminate Hk. }
  assert (exists_ ex_empty_tree ex_root = true) as H1
    by (vm_compute; reflexivity).
  assert (forall q, q `prefix_of` ex_out -> is_file ex_empty_tree q = false)
    as H2.
  { intros q Hq. apply elem_of_prefixes in Hq. vm_compute in Hq.
    repeat (apply elem_of_cons in Hq as [-> | Hq]; [vm_compute; reflexivity|]).
    exfalso. exact (proj1 (elem_of_nil _) Hq). }
  split_and!; [exact Hlog|exact Hpre|exact H1|].
  exact (main_leaves_output_root ex_fitz ex_pypdf 4 [] ex_answers ex_root
           ex_out 0 false false (mkWorld ex_empty_tree []) Hlog Hpre H1 H2).
Defined.

Lemma interactive_mode_keeps_files_witness :
  ex_txt <> LOG_FILE /\
  ex_done_tree !! ex_txt = Some (File (u "old text")) /\
  fs (snd (main ex_fitz ex_pypdf 4 [] ex_answers
             (mkArgs None None 2 false false true)
             (mkWorld ex_done_tree []))) !! ex_txt
  = Some (File (u "old text")).
Proof.
  assert (ex_txt <> LOG_FILE) as Hne by discriminate.
  assert (ex_done_tree !! ex_txt = Some (File (u "old text"))) as H
    by (vm_compute; reflexivity).
  split_and!; [exact Hne|exact H|].
  exact (interactive_mode_keeps_files ex_fitz ex_pypdf 4 [] ex_answers
           (mkArgs None None 2 false false true) (mkWorld ex_done_tree [])
           ex_txt (File (u "old text")) eq_refl Hne H).
Defined.

Lemma run_over_readable_documents_witness :
  (1 <= 2)%Z /\
  0 < length (rglob_list ex_input_tree ex_root) /\
  io_safe ex_input_tree (outputs ex_input_tree ex_root ex_out) /\
  never_skips ex_input_tree (outputs ex_input_tree ex_root ex_out) false false /\
  (exists before,
     events (snd (process_directory ex_fitz ex_pypdf [] ex_root ex_out 2 false
                    false (mkWorld ex_input_tree [])))
     = before ++ summary_block 1 1 0 0) /\
  is_file (fs (snd (process_directory ex_fitz ex_pypdf [] ex_root ex_out 2
                      false false (mkWorld ex_input_tree []))))
          ex_txt = true.
Proof.
  assert (1 <= 2)%Z as H1 by lia.
  assert (rglob_list ex_input_tree ex_root = [ex_pdf]) as Hl
    by (vm_compute; reflexivity).
  assert (0 < length (rglob_list ex_input_tree ex_root)) as H2
    by (rewrite Hl; simpl; lia).
  assert (io_safe ex_input_tree (outputs ex_input_tree ex_root ex_out)) as H3.
  { apply io_safe_b_sound. vm_compute. reflexivity. }
  assert (never_skips ex_input_tree (outputs ex_input_tree ex_root ex_out)
            false false) as H4.
  { apply all_new_b_sound. vm_compute. reflexivity. }
  split_and!; [exact H1|exact H2|exact H3|exact H4|..];
    destruct (run_over_readable_documents ex_fitz ex_pypdf ex_root ex_out
                false false [] 2 (mkWorld ex_input_tree []) H1 H2)
      as (_ & Hev & Hfiles);
    try exact H3; try exact H4;
    try (intros pdf w' _; exists ex_long; split; [|reflexivity];
         rewrite extract_text_fst; reflexivity).
  - cbn [fs events] in Hev. rewrite Hl in Hev. exact Hev.
  - apply Hfiles. cbn [fs]. unfold outputs. rewrite Hl.
    apply list_elem_of_here.
Defined.
